(** * Azure/amqp: the frame and composite encoder, and the sending link

    A shallow embedding of [encode.go] (writeFrame, marshal,
    marshalComposite, writeString, ...), of [link.go] (attach,
    setSettleModes) and of [sender.go] (Send, send, muxHandleFrame),
    with the properties of the specification proved about it.

    Conventions.  A Go byte is a [Z] in [0, 256); the conversions
    [byte(x)], [uint32(x)], [uint64(x)] are written out as reductions
    modulo 2^8, 2^32, 2^64.  A Go string and a Go []byte are both
    [list byte].  A pointer that may be nil is an [option].  A Go [int]
    is 64 bits wide; lengths are [Z.of_nat (length _)]. *)

From Stdlib Require Import String ZArith List Lia Bool.
Import ListNotations.
Local Open Scope Z_scope.
Set Warnings "-notation-for-abbreviation,-register-all".

(** A byte and a format code are numbers; the names are kept for
    reading. *)
Notation byte := Z (only parsing).

(** Go's integer conversions. *)
Definition to_byte (x : Z) : byte := x mod 256.
Definition to_uint16 (x : Z) : Z := x mod 2 ^ 16.
Definition to_uint32 (x : Z) : Z := x mod 2 ^ 32.
Definition to_uint64 (x : Z) : Z := x mod 2 ^ 64.

(** [math.MaxUint8], [math.MaxUint32]. *)
Definition MaxUint8 : Z := 255.
Definition MaxUint32 : Z := 4294967295.

(** [len(x)] as a Go int. *)
Definition len {A : Type} (l : list A) : Z := Z.of_nat (length l).

(** ** Errors

    [errors.New] and [fmt.Errorf] values keep the text of the source;
    the numeric arguments of a format are kept beside it.  [LinkError]
    is [&LinkError{RemoteErr, inner}], [AMQPError] the peer's [*Error]
    returned as it is, [ContextError] what [ctx.Err()] returns.
    [Panic] in the error position is a run-time panic of the Go
    program. *)
Inductive error : Type :=
| errorsNew (msg : string)
| Errorf (format : string) (args : list Z)
| LinkError (RemoteErr : option string) (inner : option string)
| AMQPError (condition : string)
| ContextError (msg : string)
| Panic (msg : string).

Definition isSome {A : Type} (o : option A) : bool :=
  match o with Some _ => true | None => false end.

(** Modelled from the spec: [isContextErr] is declared outside the
    sources at hand; it tells the errors of a context, cancellation
    and the expired deadline, from the others.  These are the
    [ContextError] values. *)
Definition isContextErr (err : error) : bool :=
  match err with ContextError _ => true | _ => false end.

(** ** encoding/binary, big endian (Go standard library) *)
Module binary.

Definition PutUint16 (v : Z) : list byte :=
  [to_byte (Z.shiftr v 8); to_byte v].

Definition PutUint32 (v : Z) : list byte :=
  [to_byte (Z.shiftr v 24); to_byte (Z.shiftr v 16);
   to_byte (Z.shiftr v 8); to_byte v].

Definition PutUint64 (v : Z) : list byte :=
  [to_byte (Z.shiftr v 56); to_byte (Z.shiftr v 48);
   to_byte (Z.shiftr v 40); to_byte (Z.shiftr v 32);
   to_byte (Z.shiftr v 24); to_byte (Z.shiftr v 16);
   to_byte (Z.shiftr v 8); to_byte v].

(** [BigEndian.Uint32(b)]: panics (None) on fewer than four bytes. *)
Definition Uint32 (p : list byte) : option Z :=
  match p with
  | b0 :: b1 :: b2 :: b3 :: _ =>
      Some (Z.lor (Z.lor (Z.lor (Z.shiftl b0 24) (Z.shiftl b1 16))
                         (Z.shiftl b2 8)) b3)
  | _ => None
  end.

Definition Uint64 (p : list byte) : option Z :=
  match p with
  | b0 :: b1 :: b2 :: b3 :: b4 :: b5 :: b6 :: b7 :: _ =>
      Some (Z.lor (Z.lor (Z.lor (Z.lor (Z.lor (Z.lor (Z.lor
        (Z.shiftl b0 56) (Z.shiftl b1 48)) (Z.shiftl b2 40))
        (Z.shiftl b3 32)) (Z.shiftl b4 24)) (Z.shiftl b5 16))
        (Z.shiftl b6 8)) b7)
  | _ => None
  end.

End binary.

(** ** unicode/utf8 (Go standard library)

    [ValidString] walks the string as the library does: an ASCII byte
    is one rune; any other leading byte selects, through the table
    [first], the length of the sequence and the range accepted for
    its second byte; the remaining bytes are continuation bytes. *)
Module utf8.

Definition RuneSelf : Z := 128.
Definition locb : Z := 128.
Definition hicb : Z := 191.

(** The entry of [first] for a leading byte: [None] is the invalid
    marker [xx], [Some (size, lo, hi)] gives the sequence length and
    the accept range of the second byte. *)
Definition first (si : byte) : option (nat * Z * Z) :=
  if si <? 194 then None                              (* 0x80..0xC1 *)
  else if si <=? 223 then Some (2%nat, locb, hicb)    (* 0xC2..0xDF *)
  else if si =? 224 then Some (3%nat, 160, hicb)      (* 0xE0 *)
  else if si <=? 236 then Some (3%nat, locb, hicb)    (* 0xE1..0xEC *)
  else if si =? 237 then Some (3%nat, locb, 159)      (* 0xED *)
  else if si <=? 239 then Some (3%nat, locb, hicb)    (* 0xEE..0xEF *)
  else if si =? 240 then Some (4%nat, 144, hicb)      (* 0xF0 *)
  else if si <=? 243 then Some (4%nat, locb, hicb)    (* 0xF1..0xF3 *)
  else if si =? 244 then Some (4%nat, locb, 143)      (* 0xF4 *)
  else None.                                          (* 0xF5..0xFF *)

Definition within (c lo hi : Z) : bool := (lo <=? c) && (c <=? hi).

Fixpoint ValidString (s : list byte) : bool :=
  match s with
  | [] => true
  | si :: rest =>
      if si <? RuneSelf then ValidString rest
      else
        match first si with
        | None => false
        | Some (size, lo, hi) =>
            match size, rest with
            | 2%nat, c1 :: r =>
                within c1 lo hi && ValidString r
            | 3%nat, c1 :: c2 :: r =>
                within c1 lo hi && within c2 locb hicb && ValidString r
            | 4%nat, c1 :: c2 :: c3 :: r =>
                within c1 lo hi && within c2 locb hicb
                && within c3 locb hicb && ValidString r
            | _, _ => false
            end
        end
  end.

End utf8.

(** ** internal/buffer *)
Module buffer.

(** Modelled from the spec: the byte buffer of [internal/buffer] is not
    among the sources; the specification describes it as a growable
    byte buffer with big-endian integer helpers, a cursor-based read
    and write-back patching at an index.  [b] is the storage, [i] the
    read cursor; every write appends to [b]. *)
Record Buffer : Type := mk { b : list byte; i : nat }.

(** Modelled from the spec: [New], a buffer over the bytes [p], none of
    them read. *)
Definition New (p : list byte) : Buffer := mk p 0.

(** Modelled from the spec: [Reset] empties the buffer. *)
Definition Reset (wr : Buffer) : Buffer := mk [] 0.

(** Modelled from the spec: [Len], the number of unread bytes. *)
Definition Len (wr : Buffer) : Z := len (b wr) - Z.of_nat (i wr).

(** Modelled from the spec: [Bytes], the unread bytes.  In Go the slice
    shares the storage of the buffer, so a write through it is a write
    into the buffer: see [PutUint32At]. *)
Definition Bytes (wr : Buffer) : list byte := skipn (i wr) (b wr).

(** Modelled from the spec: [Write] and the other writers append at the
    end of the storage. *)
Definition Write (wr : Buffer) (p : list byte) : Buffer :=
  mk (b wr ++ p) (i wr).

(** Modelled from the spec: [WriteByte]. *)
Definition WriteByte (wr : Buffer) (c : byte) : Buffer := Write wr [c].

(** Modelled from the spec: [WriteString]. *)
Definition WriteString (wr : Buffer) (s : list byte) : Buffer := Write wr s.

(** Modelled from the spec: [WriteUint16], big endian. *)
Definition WriteUint16 (wr : Buffer) (n : Z) : Buffer :=
  Write wr (binary.PutUint16 n).

(** Modelled from the spec: [WriteUint32], big endian. *)
Definition WriteUint32 (wr : Buffer) (n : Z) : Buffer :=
  Write wr (binary.PutUint32 n).

(** Modelled from the spec: [WriteUint64], big endian. *)
Definition WriteUint64 (wr : Buffer) (n : Z) : Buffer :=
  Write wr (binary.PutUint64 n).

(** Modelled from the spec: write-back patching at an index, as the
    callers do it with [binary.BigEndian.PutUint32(wr.Bytes()[idx:], v)]:
    the four bytes at offset [idx] of the unread part are overwritten
    in place.  Go panics when the slice expression is out of range or
    fewer than four bytes follow: [None]. *)
Definition PutUint32At (wr : Buffer) (idx : Z) (v : Z) : option Buffer :=
  if (0 <=? idx) && (idx + 4 <=? Len wr) then
    let k := (i wr + Z.to_nat idx)%nat in
    Some (mk (firstn k (b wr) ++ binary.PutUint32 v ++ skipn (k + 4) (b wr))
             (i wr))
  else None.

(** Modelled from the spec: the cursor-based read [Next(n)]: the next
    [n] unread bytes, or all that remain when fewer are left (the flag
    tells which); the cursor moves past them.  A negative [n] with
    enough bytes left makes the slice expression [b[i:i+n]] panic:
    [None]. *)
Definition Next (wr : Buffer) (n : Z) : option (list byte * bool * Buffer) :=
  if Z.of_nat (i wr) + n >? len (b wr) then
    Some (skipn (i wr) (b wr), false, mk (b wr) (length (b wr)))
  else if n <? 0 then None
  else
    Some (firstn (Z.to_nat n) (skipn (i wr) (b wr)), true,
          mk (b wr) (i wr + Z.to_nat n)).

End buffer.

Import buffer(Buffer).

(** ** AMQP format codes and descriptors *)
Notation amqpType := Z (only parsing).

(** Modelled from the spec: the constant table of the package
    ([typeCodeNull], ...) is not among the sources; the values are the
    AMQP 1.0 format codes that the specification's codec follows, of
    which its first scenario shows smallulong (0x53) and vbin8 (0xa0). *)
Definition typeCodeNull : amqpType := 64.        (* 0x40 *)
Definition typeCodeBoolTrue : amqpType := 65.    (* 0x41 *)
Definition typeCodeBoolFalse : amqpType := 66.   (* 0x42 *)
Definition typeCodeUint0 : amqpType := 67.       (* 0x43 *)
Definition typeCodeUlong0 : amqpType := 68.      (* 0x44 *)
Definition typeCodeList0 : amqpType := 69.       (* 0x45 *)
Definition typeCodeUbyte : amqpType := 80.       (* 0x50 *)
Definition typeCodeByte : amqpType := 81.        (* 0x51 *)
Definition typeCodeSmallUint : amqpType := 82.   (* 0x52 *)
Definition typeCodeSmallUlong : amqpType := 83.  (* 0x53 *)
Definition typeCodeSmallint : amqpType := 84.    (* 0x54 *)
Definition typeCodeSmalllong : amqpType := 85.   (* 0x55 *)
Definition typeCodeUshort : amqpType := 96.      (* 0x60 *)
Definition typeCodeShort : amqpType := 97.       (* 0x61 *)
Definition typeCodeUint : amqpType := 112.       (* 0x70 *)
Definition typeCodeInt : amqpType := 113.        (* 0x71 *)
Definition typeCodeUlong : amqpType := 128.      (* 0x80 *)
Definition typeCodeLong : amqpType := 129.       (* 0x81 *)
Definition typeCodeVbin8 : amqpType := 160.      (* 0xa0 *)
Definition typeCodeStr8 : amqpType := 161.       (* 0xa1 *)
Definition typeCodeVbin32 : amqpType := 176.     (* 0xb0 *)
Definition typeCodeStr32 : amqpType := 177.      (* 0xb1 *)
Definition typeCodeList32 : amqpType := 208.     (* 0xd0 *)

(** Modelled from the spec: the descriptors of the composites, as the
    specification's data model and interfaces list them. *)
Definition typeCodeTransfer : amqpType := 20.    (* 0x14 *)
Definition typeCodeDisposition : amqpType := 21. (* 0x15 *)
Definition typeCodeDetach : amqpType := 22.      (* 0x16 *)
Definition typeCodeEnd : amqpType := 23.         (* 0x17 *)
Definition typeCodeClose : amqpType := 24.       (* 0x18 *)
Definition typeCodeError : amqpType := 29.       (* 0x1d *)
Definition typeCodeApplicationData : amqpType := 117. (* 0x75 *)

(** ** encode.go *)

(** The dynamic types that [marshal] switches on.  A Go value and a
    pointer to it take the same branch, so one constructor stands for
    both.  [Composite] is a [marshaler] whose method is a call of
    [marshalComposite] (the performatives of frames.go); [TransferBody]
    is [performTransfer], which appends its payload after the
    composite; [Unsupported] is any type that reaches the [default]
    branch.  A [marshalField] is the pair of the field's value and its
    [omit] flag. *)
Inductive value : Type :=
| Nil
| Bool (t : bool)
| Uint64 (t : Z)
| Uint32 (t : Z)
| Uint16 (t : Z)
| Uint8 (t : Z)
| Int8 (t : Z)
| Int16 (t : Z)
| Int32 (t : Z)
| Int64 (t : Z)
| String_ (t : list byte)
| Binary (t : list byte)
| Composite (code : amqpType) (fields : list (value * bool))
| TransferBody (fields : list (value * bool)) (Payload : list byte)
| Unsupported.

Definition marshalField : Type := (value * bool)%type.
Definition field_value (f : marshalField) : value := fst f.
Definition omit (f : marshalField) : bool := snd f.

Definition writeInt32 (wr : Buffer) (n : Z) : Buffer :=
  if (n <? 128) && (n >=? -128) then
    buffer.Write wr [typeCodeSmallint; to_byte n]
  else
    buffer.WriteUint32 (buffer.WriteByte wr typeCodeInt) (to_uint32 n).

Definition writeInt64 (wr : Buffer) (n : Z) : Buffer :=
  if (n <? 128) && (n >=? -128) then
    buffer.Write wr [typeCodeSmalllong; to_byte n]
  else
    buffer.WriteUint64 (buffer.WriteByte wr typeCodeLong) (to_uint64 n).

Definition writeUint32 (wr : Buffer) (n : Z) : Buffer :=
  if n =? 0 then buffer.WriteByte wr typeCodeUint0
  else if n <? 256 then buffer.Write wr [typeCodeSmallUint; to_byte n]
  else buffer.WriteUint32 (buffer.WriteByte wr typeCodeUint) n.

Definition writeUint64 (wr : Buffer) (n : Z) : Buffer :=
  if n =? 0 then buffer.WriteByte wr typeCodeUlong0
  else if n <? 256 then buffer.Write wr [typeCodeSmallUlong; to_byte n]
  else buffer.WriteUint64 (buffer.WriteByte wr typeCodeUlong) n.

Definition errNotUTF8 : error := errorsNew "not a valid UTF-8 string".
Definition errTooLong : error := errorsNew "too long".
Definition errFrameTooLarge : error := errorsNew "frame too large".
Definition errNotImplemented : error :=
  Errorf "marshal not implemented for %T" [].

Definition writeString (wr : Buffer) (str : list byte)
  : Buffer * option error :=
  if negb (utf8.ValidString str) then (wr, Some errNotUTF8)
  else
    let l := len str in
    if l <? 256 then
      (buffer.WriteString (buffer.Write wr [typeCodeStr8; to_byte l]) str,
       None)
    else if l <? MaxUint32 then
      (buffer.WriteString
         (buffer.WriteUint32 (buffer.WriteByte wr typeCodeStr32)
                             (to_uint32 l)) str,
       None)
    else (wr, Some errTooLong).

Definition writeBinary (wr : Buffer) (bin : list byte)
  : Buffer * option error :=
  let l := len bin in
  if l <? 256 then
    (buffer.Write (buffer.Write wr [typeCodeVbin8; to_byte l]) bin, None)
  else if l <? MaxUint32 then
    (buffer.Write
       (buffer.WriteUint32 (buffer.WriteByte wr typeCodeVbin32)
                           (to_uint32 l)) bin,
     None)
  else (wr, Some errTooLong).

Definition writeDescriptor (wr : Buffer) (code : amqpType) : Buffer :=
  buffer.Write wr [0; typeCodeSmallUlong; to_byte code].

Section MarshalComposite.

(** [marshalComposite] and [marshal] call each other; the composite
    writer is stated over the function it calls on its fields and
    the knot is tied in [marshal] below. *)
Variable marshal : Buffer -> value -> Buffer * option error.

(** The first loop: [lastSetIdx] after ranging over the fields from
    index [i] on, [last] being its value so far. *)
Fixpoint lastSetIdxFrom (i last : Z) (fields : list marshalField) : Z :=
  match fields with
  | [] => last
  | f :: rest => lastSetIdxFrom (i + 1) (if omit f then last else i) rest
  end.

(** The second loop, over [fields[:n]]. *)
Fixpoint marshalFields (fields : list marshalField) (n : nat) (wr : Buffer)
  : Buffer * option error :=
  match fields, n with
  | f :: rest, S n' =>
      if omit f then
        marshalFields rest n' (buffer.WriteByte wr typeCodeNull)
      else
        match marshal wr (field_value f) with
        | (wr', Some err) => (wr', Some err)
        | (wr', None) => marshalFields rest n' wr'
        end
  | _, _ => (wr, None)
  end.

Definition marshalComposite_ (wr : Buffer) (code : amqpType)
           (fields : list marshalField) : Buffer * option error :=
  let lastSetIdx := lastSetIdxFrom 0 (-1) fields in
  if lastSetIdx =? -1 then
    (buffer.Write wr [0; typeCodeSmallUlong; to_byte code; typeCodeList0],
     None)
  else
    let wr := writeDescriptor wr code in
    let wr := buffer.WriteByte wr typeCodeList32 in
    let sizeIdx := buffer.Len wr in
    let wr := buffer.Write wr [0; 0; 0; 0] in
    let preFieldLen := buffer.Len wr in
    let wr := buffer.WriteUint32 wr (to_uint32 (lastSetIdx + 1)) in
    match marshalFields fields (Z.to_nat (lastSetIdx + 1)) wr with
    | (wr, Some err) => (wr, Some err)
    | (wr, None) =>
        let size := to_uint32 (buffer.Len wr - preFieldLen) in
        match buffer.PutUint32At wr sizeIdx size with
        | Some wr => (wr, None)
        | None => (wr, Some (Panic "index out of range"))
        end
    end.

End MarshalComposite.

Fixpoint marshal (wr : Buffer) (i : value) {struct i}
  : Buffer * option error :=
  match i with
  | Nil => (buffer.WriteByte wr typeCodeNull, None)
  | Bool t =>
      (if t then buffer.WriteByte wr typeCodeBoolTrue
       else buffer.WriteByte wr typeCodeBoolFalse, None)
  | Uint64 t => (writeUint64 wr t, None)
  | Uint32 t => (writeUint32 wr t, None)
  | Uint16 t =>
      (buffer.WriteUint16 (buffer.WriteByte wr typeCodeUshort) t, None)
  | Uint8 t => (buffer.Write wr [typeCodeUbyte; t], None)
  | Int8 t => (buffer.Write wr [typeCodeByte; to_byte t], None)
  | Int16 t =>
      (buffer.WriteUint16 (buffer.WriteByte wr typeCodeShort) (to_uint16 t),
       None)
  | Int32 t => (writeInt32 wr t, None)
  | Int64 t => (writeInt64 wr t, None)
  | String_ t => writeString wr t
  | Binary t => writeBinary wr t
  | Composite code fields => marshalComposite_ marshal wr code fields
  | TransferBody fields Payload =>
      match marshalComposite_ marshal wr typeCodeTransfer fields with
      | (wr, Some err) => (wr, Some err)
      | (wr, None) => (buffer.Write wr Payload, None)
      end
  | Unsupported => (wr, Some errNotImplemented)
  end.

Definition marshalComposite : Buffer -> amqpType -> list marshalField ->
                              Buffer * option error :=
  marshalComposite_ marshal.

(** frames.go: the frame handed to [writeFrame]. *)
Record frame : Type := mkFrame {
  type_ : Z;          (* uint8: AMQP/SASL *)
  channel : Z;        (* uint16 *)
  body : value        (* frameBody *)
}.

Definition writeFrame (buf : Buffer) (fr : frame) : Buffer * option error :=
  let buf := buffer.Write buf [0; 0; 0; 0; 2; type_ fr] in
  let buf := buffer.WriteUint16 buf (channel fr) in
  match marshal buf (body fr) with
  | (buf, Some err) => (buf, Some err)
  | (buf, None) =>
      if buffer.Len buf >? MaxUint32 then (buf, Some errFrameTooLarge)
      else
        let bufBytes := buffer.Bytes buf in
        match buffer.PutUint32At buf 0 (to_uint32 (len bufBytes)) with
        | Some buf => (buf, None)
        | None => (buf, Some (Panic "index out of range"))
        end
  end.

(** frames.go: three performatives and their [marshal] methods. *)
Record performDetach : Type := mkDetach {
  detach_Handle : Z;
  detach_Closed : bool;
  detach_Error : option value
}.

Definition orNil (v : option value) : value :=
  match v with Some x => x | None => Nil end.

Definition isNil (v : option value) : bool :=
  match v with Some _ => false | None => true end.

Definition performDetach_marshal (d : performDetach) : value :=
  Composite typeCodeDetach
    [(Uint32 (detach_Handle d), false);
     (Bool (detach_Closed d), negb (detach_Closed d));
     (orNil (detach_Error d), isNil (detach_Error d))].

Definition performEnd_marshal (e_Error : option value) : value :=
  Composite typeCodeEnd [(orNil e_Error, isNil e_Error)].

Definition performClose_marshal (c_Error : option value) : value :=
  Composite typeCodeClose [(orNil c_Error, isNil c_Error)].

(** ** Settlement modes, frames and delivery states *)

(** Modelled from the spec: the declarations of the [encoding] and
    [frames] packages used by link.go and sender.go are not among the
    sources.  The sender's settlement mode is the enumeration of the
    data model: unsettled, settled, mixed. *)
Inductive SenderSettleMode : Type :=
| SenderSettleModeUnsettled
| SenderSettleModeSettled
| SenderSettleModeMixed.

(** Modelled from the spec: the receiver's settlement mode, first or
    second. *)
Inductive ReceiverSettleMode : Type :=
| ReceiverSettleModeFirst
| ReceiverSettleModeSecond.

Definition SenderSettleMode_eqb (a c : SenderSettleMode) : bool :=
  match a, c with
  | SenderSettleModeUnsettled, SenderSettleModeUnsettled
  | SenderSettleModeSettled, SenderSettleModeSettled
  | SenderSettleModeMixed, SenderSettleModeMixed => true
  | _, _ => false
  end.

Definition ReceiverSettleMode_eqb (a c : ReceiverSettleMode) : bool :=
  match a, c with
  | ReceiverSettleModeFirst, ReceiverSettleModeFirst
  | ReceiverSettleModeSecond, ReceiverSettleModeSecond => true
  | _, _ => false
  end.

(** The wire value of a mode, used where an error message prints it. *)
Definition SenderSettleMode_code (m : SenderSettleMode) : Z :=
  match m with
  | SenderSettleModeUnsettled => 0
  | SenderSettleModeSettled => 1
  | SenderSettleModeMixed => 2
  end.

Definition ReceiverSettleMode_code (m : ReceiverSettleMode) : Z :=
  match m with
  | ReceiverSettleModeFirst => 0
  | ReceiverSettleModeSecond => 1
  end.

(** Modelled from the spec: the role of a link endpoint. *)
Inductive Role : Type := RoleSender | RoleReceiver.

(** Modelled from the spec: [encoding.DeliveryState], the terminal
    states of a delivery; [StateRejected] carries the peer's error. *)
Inductive DeliveryState : Type :=
| StateAccepted
| StateRejected (Error : string)
| StateReleased
| StateModified.

(** Modelled from the spec: the address held in a transfer's
    [DeliveryID]; the package-level sentinel [needsDeliveryID] is
    declared outside the sources: the session replaces it by the
    delivery-id it assigns at the first transfer. *)
Inductive DeliveryIDRef : Type :=
| needsDeliveryID
| deliveryID (id : Z).

Module frames.

(** Modelled from the spec: the target terminus, with the fields the
    sender touches. *)
Record Target : Type := mkTarget {
  Address : string;
  Dynamic : bool
}.

(** Modelled from the spec: the source terminus. *)
Record Source : Type := mkSource {
  source_Address : string
}.

(** Modelled from the spec: the Attach performative, with the fields
    that [link.attach] fills in or reads. *)
Record PerformAttach : Type := mkAttach {
  attach_Name : string;
  attach_Handle : Z;
  attach_Role : Role;
  attach_SenderSettleMode : option SenderSettleMode;
  attach_ReceiverSettleMode : option ReceiverSettleMode;
  attach_Source : option Source;
  attach_Target : option Target;
  attach_MaxMessageSize : Z       (* uint64 *)
}.

(** Modelled from the spec: the link part of the Flow performative. *)
Record PerformFlow : Type := mkFlow {
  flow_Handle : option Z;
  flow_DeliveryCount : option Z;  (* *uint32 *)
  flow_LinkCredit : option Z;     (* *uint32 *)
  flow_Echo : bool
}.

(** Modelled from the spec: the Disposition performative. *)
Record PerformDisposition : Type := mkDisposition {
  disp_Role : Role;
  disp_First : Z;
  disp_Last : option Z;
  disp_Settled : bool;
  disp_State : option DeliveryState
}.

(** Modelled from the spec: the Detach performative. *)
Record PerformDetach : Type := mkDetach {
  pd_Handle : Z;
  pd_Closed : bool;
  pd_Error : option string
}.

(** The Transfer performative, with the fields of the struct in
    frames.go; [Done] tells whether the completion channel of the
    delivery is attached. *)
Record PerformTransfer : Type := mkTransfer {
  Handle : Z;
  DeliveryID : option DeliveryIDRef;
  DeliveryTag : list byte;        (* nil is the empty list *)
  MessageFormat : option Z;
  Settled : bool;
  More : bool;
  transfer_ReceiverSettleMode : option ReceiverSettleMode;
  State : option DeliveryState;
  Resume : bool;
  Aborted : bool;
  Batchable : bool;
  Payload : list byte;
  Done : bool
}.

(** Modelled from the spec: [frames.FrameBody], the performatives a
    link receives. *)
Inductive FrameBody : Type :=
| FrameAttach (fr : PerformAttach)
| FrameFlow (fr : PerformFlow)
| FrameDisposition (fr : PerformDisposition)
| FrameDetach (fr : PerformDetach)
| FrameTransfer (fr : PerformTransfer)
| FrameOther.

End frames.

(** ** link.go *)

(** Modelled from the spec: the connection is declared outside the
    sources; the sender reads the max-frame-size the peer advertised. *)
Record conn : Type := mkConn {
  peerMaxFrameSize : Z            (* uint32 *)
}.

(** Modelled from the spec: the parent session as the link sees it
    (session.go is not among the sources): its connection and the
    frames handed to [txFrame], oldest first. *)
Record Session : Type := mkSession {
  session_conn : conn;
  session_tx : list frames.FrameBody
}.

(** Modelled from the spec: [Session.txFrame] queues the frame for the
    connection's writer. *)
Definition txFrame (s : Session) (fr : frames.FrameBody) : Session :=
  mkSession (session_conn s) (session_tx s ++ [fr]).

(** The [link] struct, with the fields that the functions below read
    or write ([done] tells whether the done channel is closed); the
    channels and queues that carry frames between goroutines appear as
    the environments of the functions. *)
Record link : Type := mkLink {
  key_name : string;
  handle : Z;                     (* uint32 *)
  dynamicAddr : bool;
  done : bool;
  doneErr : option error;
  session : Session;
  source : option frames.Source;
  target : option frames.Target;
  deliveryCount : Z;              (* uint32 *)
  senderSettleMode : option SenderSettleMode;
  receiverSettleMode : option ReceiverSettleMode;
  maxMessageSize : Z;             (* uint64 *)
  detachReceived : bool
}.

Definition set_handle (l : link) (h : Z) : link :=
  mkLink (key_name l) h (dynamicAddr l) (done l) (doneErr l) (session l)
         (source l) (target l) (deliveryCount l) (senderSettleMode l)
         (receiverSettleMode l) (maxMessageSize l) (detachReceived l).

Definition set_session (l : link) (s : Session) : link :=
  mkLink (key_name l) (handle l) (dynamicAddr l) (done l) (doneErr l) s
         (source l) (target l) (deliveryCount l) (senderSettleMode l)
         (receiverSettleMode l) (maxMessageSize l) (detachReceived l).

Definition set_target (l : link) (t : option frames.Target) : link :=
  mkLink (key_name l) (handle l) (dynamicAddr l) (done l) (doneErr l)
         (session l) (source l) t (deliveryCount l) (senderSettleMode l)
         (receiverSettleMode l) (maxMessageSize l) (detachReceived l).

Definition set_senderSettleMode (l : link) (m : option SenderSettleMode)
  : link :=
  mkLink (key_name l) (handle l) (dynamicAddr l) (done l) (doneErr l)
         (session l) (source l) (target l) (deliveryCount l) m
         (receiverSettleMode l) (maxMessageSize l) (detachReceived l).

Definition set_receiverSettleMode (l : link) (m : option ReceiverSettleMode)
  : link :=
  mkLink (key_name l) (handle l) (dynamicAddr l) (done l) (doneErr l)
         (session l) (source l) (target l) (deliveryCount l)
         (senderSettleMode l) m (maxMessageSize l) (detachReceived l).

Definition set_maxMessageSize (l : link) (n : Z) : link :=
  mkLink (key_name l) (handle l) (dynamicAddr l) (done l) (doneErr l)
         (session l) (source l) (target l) (deliveryCount l)
         (senderSettleMode l) (receiverSettleMode l) n (detachReceived l).

Definition set_detachReceived (l : link) (d : bool) : link :=
  mkLink (key_name l) (handle l) (dynamicAddr l) (done l) (doneErr l)
         (session l) (source l) (target l) (deliveryCount l)
         (senderSettleMode l) (receiverSettleMode l) (maxMessageSize l) d.

Definition set_done (l : link) (e : option error) : link :=
  mkLink (key_name l) (handle l) (dynamicAddr l) true e (session l)
         (source l) (target l) (deliveryCount l) (senderSettleMode l)
         (receiverSettleMode l) (maxMessageSize l) (detachReceived l).

(** What [waitForFrame] hands back: the next frame of the link's
    queue, the context's error, or the session's terminal error. *)
Inductive waitResult : Type :=
| Received (fr : frames.FrameBody)
| ContextErr (e : error)
| SessionErr (e : error).

(** What the outside world does during one [attach]: the outcome of
    [Session.allocateHandle] (a handle, or its error), what the first
    and the second call of [waitForFrame] return, and what [ctx.Err()]
    returns when [attach] reads it after a wait that ended on the
    session's error: nil as long as the caller's context is live. *)
Record attachEnv : Type := mkAttachEnv {
  allocateHandle : error + Z;
  firstWait : waitResult;
  secondWait : waitResult;
  ctxErr : option error
}.

Section Link.

(** [receiverSettleModeValue] and [senderSettleModeValue] turn a
    possibly nil mode into a mode; they are declared outside the
    sources at hand and are taken as they are. *)
Variable receiverSettleModeValue :
  option ReceiverSettleMode -> ReceiverSettleMode.
Variable senderSettleModeValue :
  option SenderSettleMode -> SenderSettleMode.

(** [muxClose], the teardown of the link run on the failure paths of
    [attach]; nothing below depends on what it leaves behind. *)
Variable muxClose : link -> link.

(** The two mismatch errors print the local pointer and the address of
    the peer's value; the arguments kept are the wire values of both. *)
Definition errRecvSettle (req : option ReceiverSettleMode)
           (got : ReceiverSettleMode) : error :=
  Errorf
    "amqp: receiver settlement mode %q requested, received %q from server"
    (match req with
     | Some m => [ReceiverSettleMode_code m]
     | None => []
     end ++ [ReceiverSettleMode_code got]).

Definition errSendSettle (req : option SenderSettleMode)
           (got : SenderSettleMode) : error :=
  Errorf
    "amqp: sender settlement mode %q requested, received %q from server"
    (match req with
     | Some m => [SenderSettleMode_code m]
     | None => []
     end ++ [SenderSettleMode_code got]).

Definition setSettleModes (l : link) (resp : frames.PerformAttach)
  : link * option error :=
  let localRecvSettle := receiverSettleModeValue (receiverSettleMode l) in
  let respRecvSettle :=
    receiverSettleModeValue (frames.attach_ReceiverSettleMode resp) in
  if isSome (receiverSettleMode l)
     && negb (ReceiverSettleMode_eqb localRecvSettle respRecvSettle)
  then (l, Some (errRecvSettle (receiverSettleMode l) respRecvSettle))
  else
    let l := set_receiverSettleMode l (Some respRecvSettle) in
    let localSendSettle := senderSettleModeValue (senderSettleMode l) in
    let respSendSettle :=
      senderSettleModeValue (frames.attach_SenderSettleMode resp) in
    if isSome (senderSettleMode l)
       && negb (SenderSettleMode_eqb localSendSettle respSendSettle)
    then (l, Some (errSendSettle (senderSettleMode l) respSendSettle))
    else (set_senderSettleMode l (Some respSendSettle), None).

(** [link.muxHandleFrame]. *)
Definition link_muxHandleFrame (l : link) (fr : frames.FrameBody)
  : link * option error :=
  match fr with
  | frames.FrameDetach fr =>
      if negb (frames.pd_Closed fr) then
        (l, Some (LinkError None
                    (Some "non-closing detach not supported: %+v"%string)))
      else
        let l := set_detachReceived l true in
        match frames.pd_Error fr with
        | Some e => (l, Some (LinkError (Some e) None))
        | None => (l, Some (LinkError None None))
        end
  | _ => (l, None)
  end.

(** [link.attach].  [beforeAttach] edits the outgoing frame,
    [afterAttach] the link once the peer has answered.  The [Role] of
    the frame literal is Go's zero value, [RoleSender].  The frame's
    [Target] is the link's own pointer: when the link has a target,
    what [beforeAttach] writes through it is seen by the link.  After
    a wait that ended on an error for which [isContextErr] holds,
    [attach] returns [ctx.Err()], not that error: when the context
    itself was done this is the error the wait returned, and when the
    session ended on such an error it is what the caller's context
    says then, nil if it is live.  The cleanup goroutines started on
    those paths run concurrently and are not part of the call's
    result. *)
Definition link_attach (env : attachEnv) (l : link)
           (beforeAttach : frames.PerformAttach -> frames.PerformAttach)
           (afterAttach : frames.PerformAttach -> link -> link)
  : link * option error :=
  match allocateHandle env with
  | inl err => (l, Some err)
  | inr h =>
      let l := set_handle l h in
      let attach :=
        frames.mkAttach (key_name l) (handle l) RoleSender
                 (senderSettleMode l) (receiverSettleMode l)
                 (source l) (target l) (maxMessageSize l) in
      let attach := beforeAttach attach in
      let l :=
        match target l with
        | Some _ => set_target l (frames.attach_Target attach)
        | None => l
        end in
      let l :=
        set_session l (txFrame (session l) (frames.FrameAttach attach)) in
      match firstWait env with
      | ContextErr e => (l, Some e)
      | SessionErr e => if isContextErr e then (l, ctxErr env) else (l, Some e)
      | Received (frames.FrameAttach resp) =>
          if negb (isSome (frames.attach_Source resp))
             && negb (isSome (frames.attach_Target resp))
          then
            match secondWait env with
            | ContextErr e => (l, Some e)
            | SessionErr e =>
                if isContextErr e then (l, ctxErr env) else (l, Some e)
            | Received (frames.FrameDetach detach) =>
                let l :=
                  set_session l
                    (txFrame (session l)
                       (frames.FrameDetach
                          (frames.mkDetach (handle l) true None)))
                in
                match frames.pd_Error detach with
                | None =>
                    (l, Some (Errorf
                                "received detach with no error specified"
                                []))
                | Some e => (l, Some (AMQPError e))
                end
            | Received _ =>
                (l, Some (Errorf
                            "unexpected frame while waiting for detach: %#v"
                            []))
            end
          else
            let l :=
              if (maxMessageSize l =? 0)
                 || (frames.attach_MaxMessageSize resp <? maxMessageSize l)
              then set_maxMessageSize l (frames.attach_MaxMessageSize resp)
              else l in
            let l := afterAttach resp l in
            match setSettleModes l resp with
            | (l, Some err) => (muxClose l, Some err)
            | (l, None) => (l, None)
            end
      | Received _ =>
          (l, Some (Errorf "unexpected attach response: %#v" []))
      end
  end.

End Link.

(** ** message.go *)

(** Modelled from the spec: [Message] is not among the sources; these
    are the fields the sender reads, and the data sections of the
    body. *)
Record Message : Type := mkMessage {
  DeliveryTag : list byte;
  Format : Z;                     (* uint32 *)
  SendSettled : bool;
  Data : list (list byte)
}.

(** Modelled from the spec: [NewMessage], a message whose body is one
    data section. *)
Definition NewMessage (data : list byte) : Message :=
  mkMessage [] 0 false [data].

(** Modelled from the spec: a data section on the wire, as the
    specification's first scenario shows it: the described-type
    marker, the application-data descriptor, then the bytes as a
    binary value. *)
Fixpoint marshalData (wr : Buffer) (sections : list (list byte))
  : Buffer * option error :=
  match sections with
  | [] => (wr, None)
  | data :: rest =>
      match writeBinary (writeDescriptor wr typeCodeApplicationData) data with
      | (wr, Some err) => (wr, Some err)
      | (wr, None) => marshalData wr rest
      end
  end.

(** Modelled from the spec: [Message.Marshal] for a message that holds
    data sections only.  The sender takes the method as a parameter;
    this one runs it on examples. *)
Definition Message_Marshal (m : Message) (wr : Buffer)
  : Buffer * option error :=
  marshalData wr (Data m).

(** ** sender.go *)

(** The [Sender] struct; [transfers] holds the frames sent on the
    channel of that name, oldest first. *)
Record Sender : Type := mkSender {
  l : link;
  transfers : list frames.PerformTransfer;
  closeOnDispositionError : bool;
  buf : Buffer;
  nextDeliveryTag : Z;            (* uint64 *)
  availableCredit : Z             (* uint32 *)
}.

Definition set_l (s : Sender) (x : link) : Sender :=
  mkSender x (transfers s) (closeOnDispositionError s) (buf s)
           (nextDeliveryTag s) (availableCredit s).

Definition set_transfers (s : Sender) (x : list frames.PerformTransfer)
  : Sender :=
  mkSender (l s) x (closeOnDispositionError s) (buf s)
           (nextDeliveryTag s) (availableCredit s).

Definition set_buf (s : Sender) (x : Buffer) : Sender :=
  mkSender (l s) (transfers s) (closeOnDispositionError s) x
           (nextDeliveryTag s) (availableCredit s).

Definition set_nextDeliveryTag (s : Sender) (x : Z) : Sender :=
  mkSender (l s) (transfers s) (closeOnDispositionError s) (buf s)
           x (availableCredit s).

Definition set_availableCredit (s : Sender) (x : Z) : Sender :=
  mkSender (l s) (transfers s) (closeOnDispositionError s) (buf s)
           (nextDeliveryTag s) x.

Definition maxDeliveryTagLength : Z := 32.
Definition maxTransferFrameHeader : Z := 66.

(** Which case of the [select] inside the loop of [send] fires: the
    mux takes the frame from the [transfers] channel, the link
    terminates meanwhile (its mux stores [doneErr] and closes [done]),
    or the context is done. *)
Inductive sendSelect : Type :=
| transferTaken
| linkDone (doneErr : option error)
| ctxDone (err : error).

(** Which case of the [select] at the end of [Send] fires. *)
Inductive sendWait : Type :=
| delivered (state : DeliveryState)
| waitLinkDone (doneErr : option error)
| waitCtxDone (err : error).

Definition detachOnRejectDisp (s : Sender) : bool :=
  if closeOnDispositionError s
     && match receiverSettleMode (l s) with
        | None => true
        | Some m => ReceiverSettleMode_eqb m ReceiverSettleModeFirst
        end
  then true
  else false.

Section SenderSend.

(** [msg.Marshal(&s.buf)]. *)
Variable Marshal : Message -> Buffer -> Buffer * option error.

(** The loop [for fr.More { ... }] of [send].  [sel n] is the case
    taken by the [select] of iteration [n]; [fuel] bounds the number
    of iterations of the model, [None] is returned when it runs out.
    The result is the pair Go returns: the completion channel of the
    last frame (whether there is one) and the error. *)
Fixpoint sendLoop (fuel : nat) (sel : nat -> sendSelect) (n : nat)
         (maxPayloadSize : Z) (senderSettled : bool)
         (s : Sender) (fr : frames.PerformTransfer)
  : Sender * option (bool * option error) :=
  if negb (frames.More fr) then (s, Some (frames.Done fr, None))
  else
    match fuel with
    | O => (s, None)
    | S fuel' =>
        match buffer.Next (buf s) maxPayloadSize with
        | None => (s, Some (false, Some (Panic "slice bounds out of range")))
        | Some (p, _, rest) =>
            let s := set_buf s rest in
            let more := buffer.Len (buf s) >? 0 in
            let fr :=
              frames.mkTransfer
                (frames.Handle fr) (frames.DeliveryID fr)
                (frames.DeliveryTag fr) (frames.MessageFormat fr)
                (if more then frames.Settled fr else senderSettled)
                more
                (frames.transfer_ReceiverSettleMode fr) (frames.State fr)
                (frames.Resume fr) (frames.Aborted fr) (frames.Batchable fr)
                p
                (if more then frames.Done fr else true) in
            match sel n with
            | transferTaken =>
                let s := set_transfers s (transfers s ++ [fr]) in
                let fr :=
                  frames.mkTransfer
                    (frames.Handle fr) None [] None
                    (frames.Settled fr) (frames.More fr)
                    (frames.transfer_ReceiverSettleMode fr) (frames.State fr)
                    (frames.Resume fr) (frames.Aborted fr)
                    (frames.Batchable fr)
                    (frames.Payload fr) (frames.Done fr) in
                sendLoop fuel' sel (S n) maxPayloadSize senderSettled s fr
            | linkDone e =>
                let s := set_l s (set_done (l s) e) in
                (s, Some (false, doneErr (l s)))
            | ctxDone err => (s, Some (false, Some err))
            end
        end
    end.

Definition errDeliveryTag (n : Z) : error :=
  Errorf "delivery tag is over the allowed %v bytes, len: %v"
         [maxDeliveryTagLength; n].

Definition errMessageSize (max : Z) : error :=
  Errorf "encoded message size exceeds max of %d" [max].

(** [Sender.send]; the mutex that serialises the callers is not
    modelled, one call runs at a time. *)
Definition send (fuel : nat) (sel : nat -> sendSelect)
           (s : Sender) (msg : Message)
  : Sender * option (bool * option error) :=
  if len (DeliveryTag msg) >? maxDeliveryTagLength then
    (s, Some (false, Some (errDeliveryTag (len (DeliveryTag msg)))))
  else
    match Marshal msg (buffer.Reset (buf s)) with
    | (b, Some err) => (set_buf s b, Some (false, Some err))
    | (b, None) =>
        let s := set_buf s b in
        if negb (maxMessageSize (l s) =? 0)
           && (buffer.Len (buf s) >? maxMessageSize (l s))
        then (s, Some (false, Some (errMessageSize (maxMessageSize (l s)))))
        else
          let maxPayloadSize :=
            peerMaxFrameSize (session_conn (session (l s)))
            - maxTransferFrameHeader in
          let sndSettleMode := senderSettleMode (l s) in
          let senderSettled :=
            match sndSettleMode with
            | None => false
            | Some m =>
                SenderSettleMode_eqb m SenderSettleModeSettled
                || (SenderSettleMode_eqb m SenderSettleModeMixed
                    && SendSettled msg)
            end in
          let '(deliveryTag, s) :=
            if len (DeliveryTag msg) =? 0 then
              (binary.PutUint64 (nextDeliveryTag s),
               set_nextDeliveryTag s (to_uint64 (nextDeliveryTag s + 1)))
            else (DeliveryTag msg, s) in
          let fr :=
            frames.mkTransfer
              (handle (l s)) (Some needsDeliveryID) deliveryTag
              (Some (Format msg)) false (buffer.Len (buf s) >? 0)
              None None false false false [] false in
          sendLoop fuel sel 0 maxPayloadSize senderSettled s fr
    end.

(** [Sender.Send].  [wait] is the case taken by the final [select];
    a message whose completion channel is nil is never [delivered]. *)
Definition Send (fuel : nat) (sel : nat -> sendSelect) (wait : sendWait)
           (s : Sender) (msg : Message)
  : Sender * option (option error) :=
  if done (l s) then (s, Some (doneErr (l s)))
  else
    match send fuel sel s msg with
    | (s, None) => (s, None)
    | (s, Some (_, Some err)) => (s, Some (Some err))
    | (s, Some (ch, None)) =>
        match wait with
        | delivered state =>
            if negb ch then (s, None)
            else
              match state with
              | StateRejected e =>
                  if detachOnRejectDisp s
                  then (s, Some (Some (LinkError (Some e) None)))
                  else (s, Some (Some (AMQPError e)))
              | _ => (s, Some None)
              end
        | waitLinkDone e =>
            let s := set_l s (set_done (l s) e) in
            (s, Some (doneErr (l s)))
        | waitCtxDone err => (s, Some (Some err))
        end
    end.

End SenderSend.

Section SenderMux.

Variable receiverSettleModeValue :
  option ReceiverSettleMode -> ReceiverSettleMode.
Variable senderSettleModeValue :
  option SenderSettleMode -> SenderSettleMode.
Variable muxClose : link -> link.

(** [Sender.muxHandleFrame].  Reading [*fr.LinkCredit] from a flow
    frame without link-credit is a nil dereference. *)
Definition muxHandleFrame (s : Sender) (fr : frames.FrameBody)
  : Sender * (option frames.PerformDisposition * option error) :=
  match fr with
  | frames.FrameFlow fr =>
      match frames.flow_LinkCredit fr with
      | None => (s, (None, Some (Panic "nil pointer dereference")))
      | Some credit =>
          let linkCredit := to_uint32 (credit - deliveryCount (l s)) in
          let linkCredit :=
            match frames.flow_DeliveryCount fr with
            | Some count => to_uint32 (linkCredit + count)
            | None => linkCredit
            end in
          let s := set_availableCredit s linkCredit in
          if negb (frames.flow_Echo fr) then (s, (None, None))
          else
            let deliveryCount := deliveryCount (l s) in
            let resp :=
              frames.mkFlow (Some (handle (l s))) (Some deliveryCount)
                            (Some linkCredit) false in
            let s :=
              set_l s (set_session (l s)
                         (txFrame (session (l s)) (frames.FrameFlow resp))) in
            (s, (None, None))
      end
  | frames.FrameDisposition fr =>
      let rejected :=
        match frames.disp_State fr with
        | Some (StateRejected e) => Some e
        | _ => None
        end in
      match rejected, detachOnRejectDisp s with
      | Some e, true => (s, (None, Some (LinkError (Some e) None)))
      | _, _ =>
          if frames.disp_Settled fr then (s, (None, None))
          else
            (s, (Some (frames.mkDisposition RoleSender
                         (frames.disp_First fr) (frames.disp_Last fr)
                         true None),
                 None))
      end
  | _ =>
      let '(l', err) := link_muxHandleFrame (l s) fr in
      (set_l s l', (None, err))
  end.

(** [Sender.attach] with its two closures.  The mux goroutine started
    at the end runs concurrently. *)
Definition sender_beforeAttach (s : Sender) (pa : frames.PerformAttach)
  : frames.PerformAttach :=
  let t :=
    match frames.attach_Target pa with
    | None => frames.mkTarget "" false
    | Some t => t
    end in
  frames.mkAttach
    (frames.attach_Name pa) (frames.attach_Handle pa) RoleSender
    (frames.attach_SenderSettleMode pa) (frames.attach_ReceiverSettleMode pa)
    (frames.attach_Source pa)
    (Some (frames.mkTarget (frames.Address t) (dynamicAddr (l s))))
    (frames.attach_MaxMessageSize pa).

Definition sender_afterAttach (pa : frames.PerformAttach) (x : link) : link :=
  let x :=
    match target x with
    | None => set_target x (Some (frames.mkTarget "" false))
    | Some _ => x
    end in
  match target x, frames.attach_Target pa with
  | Some t, Some pt =>
      if dynamicAddr x
      then set_target x (Some (frames.mkTarget (frames.Address pt)
                                               (frames.Dynamic t)))
      else x
  | _, _ => x
  end.

Definition Sender_attach (env : attachEnv) (s : Sender)
  : Sender * option error :=
  match link_attach receiverSettleModeValue senderSettleModeValue muxClose
                    env (l s) (sender_beforeAttach s) sender_afterAttach with
  | (x, Some err) => (set_l s x, Some err)
  | (x, None) => (set_transfers (set_l s x) [], None)
  end.

End SenderMux.

(** ** Notions used to state the properties *)

(** A buffer is well formed when its read cursor lies within its
    storage; every operation of the buffer keeps it so. *)
Definition wf (wr : Buffer) : Prop :=
  (buffer.i wr <= length (buffer.b wr))%nat.

(** The marshaled encoding of a value: the bytes [marshal] writes for
    it into an empty buffer; the value marshals when no error comes
    back. *)
Definition encoding (v : value) : list byte :=
  buffer.b (fst (marshal (buffer.New []) v)).

Definition marshals (v : value) : Prop :=
  snd (marshal (buffer.New []) v) = None.

(** What a composite holds at the position of a field: the null format
    code for an omitted field, the field's encoding otherwise. *)
Definition fieldEncoding (f : marshalField) : list byte :=
  if omit f then [typeCodeNull] else encoding (field_value f).

(** [L] is the index of the last field that is not omitted. *)
Definition lastNonOmitted (fields : list marshalField) (L : nat) : Prop :=
  (exists f, nth_error fields L = Some f /\ omit f = false) /\
  (forall j f, (L < j)%nat -> nth_error fields j = Some f -> omit f = true).

(** The values that are written through [marshalComposite]. *)
Definition isComposite (v : value) : bool :=
  match v with
  | Composite _ _ | TransferBody _ _ => true
  | _ => false
  end.

(** A function on buffers only appends: on any well-formed buffer it
    adds the bytes it writes into an empty buffer and returns the same
    error. *)
Definition appendOnly (f : Buffer -> Buffer * option error) : Prop :=
  forall wr, wf wr ->
    f wr = (buffer.Write wr (buffer.b (fst (f (buffer.New [])))),
            snd (f (buffer.New []))).

(** The value of a possibly nil mode with [d] for nil: the shape of
    [receiverSettleModeValue] and [senderSettleModeValue], used to run
    the link on examples (AMQP's defaults are first and mixed). *)
Definition modeOr {A : Type} (d : A) (m : option A) : A :=
  match m with Some v => v | None => d end.

(** The specification's rule for the maximum message size of a link:
    the minimum of the local and the peer's value, [0] meaning
    unlimited. *)
Definition spec_maxMessageSize (local peer : Z) : Z :=
  if local =? 0 then peer
  else if peer =? 0 then local
  else Z.min local peer.

(** Whether a successful [attach] went without the peer's answer: a
    wait, the first or the one for the Detach after an Attach that
    names neither source nor target, ended on an error of the session
    for which [isContextErr] holds, while the caller's context was
    live. *)
Definition unanswered (env : attachEnv) : Prop :=
  ctxErr env = None
  /\ exists e,
       isContextErr e = true
       /\ (firstWait env = SessionErr e
           \/ exists resp,
                firstWait env = Received (frames.FrameAttach resp)
                /\ frames.attach_Source resp = None
                /\ frames.attach_Target resp = None
                /\ secondWait env = SessionErr e).

(** The specification's cut of a payload: successive pieces of [n]
    bytes, the last one holding what remains. *)
Fixpoint chunksFrom (fuel n : nat) (p : list byte) : list (list byte) :=
  match fuel, p with
  | S fuel', _ :: _ => firstn n p :: chunksFrom fuel' n (skipn n p)
  | _, _ => []
  end.

Definition chunks (n : nat) (p : list byte) : list (list byte) :=
  chunksFrom (length p) n p.

(** The environment in which every frame offered is taken by the mux. *)
Definition allTaken : nat -> sendSelect := fun _ => transferTaken.

(** The [k]-th of the [total] frames of a delivery that starts from the
    frame [fr]: it announces more frames unless it is the last; the
    first carries the delivery-id, delivery-tag and message-format of
    [fr], the others none; the last carries the settled flag and the
    completion channel. *)
Definition frameOf (fr : frames.PerformTransfer) (settled : bool)
           (k total : nat) (f : frames.PerformTransfer) : Prop :=
  frames.More f = (S k <? total)%nat
  /\ frames.Handle f = frames.Handle fr
  /\ (k = 0%nat ->
      frames.DeliveryID f = frames.DeliveryID fr
      /\ frames.DeliveryTag f = frames.DeliveryTag fr
      /\ frames.MessageFormat f = frames.MessageFormat fr)
  /\ (k <> 0%nat ->
      frames.DeliveryID f = None
      /\ frames.DeliveryTag f = []
      /\ frames.MessageFormat f = None)
  /\ frames.Settled f = (if frames.More f then frames.Settled fr else settled)
  /\ frames.Done f = (if frames.More f then frames.Done fr else true).

(** The tag of the delivery: the caller's, or the counter's value as
    eight big-endian bytes when the caller gave none. *)
Definition deliveryTagOf (s : Sender) (msg : Message) : list byte :=
  if len (DeliveryTag msg) =? 0
  then binary.PutUint64 (nextDeliveryTag s)
  else DeliveryTag msg.

(** Whether the last transfer of a message goes out settled. *)
Definition settledFor (s : Sender) (msg : Message) : bool :=
  match senderSettleMode (l s) with
  | Some m =>
      SenderSettleMode_eqb m SenderSettleModeSettled
      || SenderSettleMode_eqb m SenderSettleModeMixed && SendSettled msg
  | None => false
  end.

(** The sender and the frame with which [send] enters its loop, [b]
    being the buffer that holds the marshaled message. *)
Definition senderAtLoop (s : Sender) (msg : Message) (b : Buffer) : Sender :=
  if len (DeliveryTag msg) =? 0
  then set_nextDeliveryTag (set_buf s b) (to_uint64 (nextDeliveryTag s + 1))
  else set_buf s b.

Definition firstTransfer (s : Sender) (msg : Message) (b : Buffer)
  : frames.PerformTransfer :=
  frames.mkTransfer (handle (l s)) (Some needsDeliveryID)
                    (deliveryTagOf s msg) (Some (Format msg)) false
                    (buffer.Len b >? 0) None None false false false
                    [] false.

(** ** Examples *)

(** A sender on a fresh link whose peer allows frames of
    [peerMax] bytes and messages of [maxSize] bytes. *)
Definition exampleSender (peerMax maxSize : Z) : Sender :=
  mkSender
    (mkLink "test" 0 false false None (mkSession (mkConn peerMax) [])
            None (Some (frames.mkTarget "test" false)) 0
            (Some SenderSettleModeUnsettled) (Some ReceiverSettleModeFirst)
            maxSize false)
    [] true (buffer.New []) 0 0.

(** The payload of the multi-transfer test: 512 bytes, byte [i] being
    [i mod 256]. *)
Definition testPayload : list byte :=
  map (fun i => Z.of_nat i mod 256) (seq 0 512).

Definition hello : list byte := [104; 101; 108; 108; 111].

(** * The rest of the encoder, of the link and of the sender *)

(** ** encode.go: timestamps, array headers and maps *)

(** Go's [int] is 64 bits wide and its arithmetic wraps around. *)
Definition to_int (x : Z) : Z := (x + 2 ^ 63) mod 2 ^ 64 - 2 ^ 63.

(** Modelled from the spec: four more format codes of the constant
    table, with their AMQP 1.0 values (timestamp, map32, array8,
    array32). *)
Definition typeCodeTimestamp : amqpType := 131.  (* 0x83 *)
Definition typeCodeMap32 : amqpType := 209.      (* 0xd1 *)
Definition typeCodeArray8 : amqpType := 224.     (* 0xe0 *)
Definition typeCodeArray32 : amqpType := 240.    (* 0xf0 *)

(** [writeTimestamp]; the time is given by what [t.UnixNano()]
    returns.  Go's integer division truncates toward zero. *)
Definition writeTimestamp (wr : Buffer) (unixNano : Z) : Buffer :=
  let wr := buffer.WriteByte wr typeCodeTimestamp in
  let ms := Z.quot unixNano 1000000 in
  buffer.WriteUint64 wr (to_uint64 ms).

Definition array8TLSize : Z := 2.
Definition array32TLSize : Z := 5.

Definition writeArrayHeader (wr : Buffer) (length typeSize : Z)
           (type_ : amqpType) : Buffer :=
  let size := to_int (length * typeSize) in
  if to_int (size + array8TLSize) <=? MaxUint8 then
    buffer.Write wr [typeCodeArray8; to_byte (size + array8TLSize);
                     to_byte length; to_byte type_]
  else
    let wr := buffer.WriteByte wr typeCodeArray32 in
    let wr := buffer.WriteUint32 wr (to_uint32 (size + array32TLSize)) in
    let wr := buffer.WriteUint32 wr (to_uint32 length) in
    buffer.WriteByte wr (to_byte type_).

Definition writeVariableArrayHeader (wr : Buffer)
           (length elementsSizeTotal : Z) (type_ : amqpType) : Buffer :=
  let elementTypeSize := if Z.land type_ 240 =? 176 then 4 else 1 in
  let size := to_int (elementsSizeTotal + to_int (length * elementTypeSize)) in
  if to_int (size + array8TLSize) <=? MaxUint8 then
    buffer.Write wr [typeCodeArray8; to_byte (size + array8TLSize);
                     to_byte length; to_byte type_]
  else
    let wr := buffer.WriteByte wr typeCodeArray32 in
    let wr := buffer.WriteUint32 wr (to_uint32 (size + array32TLSize)) in
    let wr := buffer.WriteUint32 wr (to_uint32 length) in
    buffer.WriteByte wr (to_byte type_).

(** What writes into a buffer and may fail. *)
Definition writer : Type := Buffer -> Buffer * option error.

(** The body shared by the loops of [writeMap]: for each entry the key
    is written, then the value; the first error ends the function. *)
Fixpoint writePairs (entries : list (writer * writer)) (wr : Buffer)
  : Buffer * option error :=
  match entries with
  | [] => (wr, None)
  | (key, val) :: rest =>
      match key wr with
      | (wr, Some err) => (wr, Some err)
      | (wr, None) =>
          match val wr with
          | (wr, Some err) => (wr, Some err)
          | (wr, None) => writePairs rest wr
          end
      end
  end.

(** The key types accepted in [Annotations]. *)
Inductive annotationKey : Type :=
| KeyString (key : list byte)
| KeySymbol (key : list byte)
| KeyInt64 (key : Z)
| KeyInt (key : Z)
| KeyOther.

Definition errAnnotationsKey : error :=
  Errorf "unsupported Annotations key type %T" [].
Definition errMapType : error := Errorf "unsupported map type %T" [].
Definition errMapTooLarge : error :=
  errorsNew "map contains too many elements".

Section WriteMap.

(** [symbol.marshal] and the [marshal] method of [*describedType] (the
    values of a [filter]) are declared with the types of the package,
    outside the sources at hand; they are taken as they are. *)
Variable describedType : Type.
Variable symbol_marshal : list byte -> writer.
Variable describedType_marshal : describedType -> writer.

(** The dynamic types that [writeMap] switches on.  A Go map is ranged
    over in an order the run time chooses: a map is given by its
    entries in the order in which [range] visits them.  The values are
    those [marshal] is modelled for. *)
Inductive mapValue : Type :=
| MapInterface (m : list (value * value))
| MapString (m : list (list byte * value))
| MapSymbol (m : list (list byte * value))
| MapUnsettled (m : list (list byte * value))
| MapFilter (m : list (list byte * describedType))
| MapAnnotations (m : list (annotationKey * value))
| MapOther.

Definition annotationKey_write (key : annotationKey) : writer :=
  match key with
  | KeyString key => symbol_marshal key
  | KeySymbol key => symbol_marshal key
  | KeyInt64 key => fun wr => (writeInt64 wr key, None)
  | KeyInt key => fun wr => (writeInt64 wr key, None)
  | KeyOther => fun wr => (wr, Some errAnnotationsKey)
  end.

(** The entries of a map as the pairs of writers that the case of its
    type runs; [None] is the [default] case. *)
Definition mapEntries (m : mapValue) : option (list (writer * writer)) :=
  let val (v : value) : writer := fun wr => marshal wr v in
  match m with
  | MapInterface m =>
      Some (map (fun e => ((fun wr => marshal wr (fst e)), val (snd e))) m)
  | MapString m =>
      Some (map (fun e => ((fun wr => writeString wr (fst e)), val (snd e))) m)
  | MapSymbol m =>
      Some (map (fun e => (symbol_marshal (fst e), val (snd e))) m)
  | MapUnsettled m =>
      Some (map (fun e => ((fun wr => writeString wr (fst e)), val (snd e))) m)
  | MapFilter m =>
      Some (map (fun e => (symbol_marshal (fst e),
                           describedType_marshal (snd e))) m)
  | MapAnnotations m =>
      Some (map (fun e => (annotationKey_write (fst e), val (snd e))) m)
  | MapOther => None
  end.

(** [writeMap].  The eight bytes patched at the end are those written
    as placeholders at the start; the slice expression that selects
    them is in range whenever the read cursor lies within the
    storage. *)
Definition writeMap (wr : Buffer) (m : mapValue) : Buffer * option error :=
  let startIdx := buffer.Len wr in
  let wr := buffer.Write wr [typeCodeMap32; 0; 0; 0; 0; 0; 0; 0; 0] in
  match mapEntries m with
  | None => (wr, Some errMapType)
  | Some entries =>
      let pairs := len entries * 2 in
      match writePairs entries wr with
      | (wr, Some err) => (wr, Some err)
      | (wr, None) =>
          if pairs >? MaxUint32 - 4 then (wr, Some errMapTooLarge)
          else
            let length := buffer.Len wr - startIdx - 1 - 4 in
            match buffer.PutUint32At wr (startIdx + 1) (to_uint32 length) with
            | None => (wr, Some (Panic "slice bounds out of range"))
            | Some wr =>
                match buffer.PutUint32At wr (startIdx + 1 + 4)
                                         (to_uint32 pairs) with
                | None => (wr, Some (Panic "slice bounds out of range"))
                | Some wr => (wr, None)
                end
            end
      end
  end.

End WriteMap.

(** What a writer appends to an empty buffer, and whether it does so
    without error; the bytes of a map entry are those of its key
    followed by those of its value. *)
Definition written (w : writer) : list byte :=
  buffer.b (fst (w (buffer.New []))).

Definition succeeds (w : writer) : Prop := snd (w (buffer.New [])) = None.

Definition entryBytes (e : writer * writer) : list byte :=
  written (fst e) ++ written (snd e).

(** Stand-ins for the two methods that [writeMap] takes as they are,
    to run it on examples: a symbol written in its eight-bit form
    (format code 0xa3, length, bytes) and a described type that writes
    a null. *)
Definition exampleSymbol (s : list byte) : writer :=
  fun wr => (buffer.Write wr ([163; to_byte (len s)] ++ s), None).

Definition exampleDescribed (d : unit) : writer :=
  fun wr => (buffer.WriteByte wr typeCodeNull, None).

(** ** frames.go: the transfer performative on the wire *)

Section TransferMarshal.

(** The number held by the package-level sentinel [needsDeliveryID],
    which [send] points every first transfer at; it is declared
    outside the sources at hand.  The session points the frame at the
    delivery-id it assigns before the frame is written. *)
Variable needsDeliveryID_value : Z.

Definition deliveryIDValue (r : DeliveryIDRef) : Z :=
  match r with
  | needsDeliveryID => needsDeliveryID_value
  | deliveryID id => id
  end.

(** The [marshal] methods of [*ReceiverSettleMode] and of the
    delivery states are declared outside the sources at hand.  Both
    write through [marshal], the mode as a number and a state as a
    composite: the value each hands to it is taken as it is. *)
Variable receiverSettleMode_marshal : ReceiverSettleMode -> value.
Variable deliveryState_marshal : DeliveryState -> value.

(** [performTransfer.marshal]: the eleven fields, each omitted when it
    is nil, empty or false, then the payload. *)
Definition performTransfer_marshal (t : frames.PerformTransfer) : value :=
  TransferBody
    [(Uint32 (frames.Handle t), false);
     (match frames.DeliveryID t with
      | Some r => Uint32 (deliveryIDValue r)
      | None => Nil
      end, negb (isSome (frames.DeliveryID t)));
     (Binary (frames.DeliveryTag t), len (frames.DeliveryTag t) =? 0);
     (match frames.MessageFormat t with
      | Some format => Uint32 format
      | None => Nil
      end, negb (isSome (frames.MessageFormat t)));
     (Bool (frames.Settled t), negb (frames.Settled t));
     (Bool (frames.More t), negb (frames.More t));
     (match frames.transfer_ReceiverSettleMode t with
      | Some m => receiverSettleMode_marshal m
      | None => Nil
      end, negb (isSome (frames.transfer_ReceiverSettleMode t)));
     (match frames.State t with
      | Some st => deliveryState_marshal st
      | None => Nil
      end, negb (isSome (frames.State t)));
     (Bool (frames.Resume t), negb (frames.Resume t));
     (Bool (frames.Aborted t), negb (frames.Aborted t));
     (Bool (frames.Batchable t), negb (frames.Batchable t))]
    (frames.Payload t).

End TransferMarshal.

(** ** Notions used to state the properties of send *)

(** A transfer as [send] builds it: the struct literal sets neither
    the receiver-settle-mode nor the state nor one of the flags
    resume, aborted and batchable, and the loop leaves them so. *)
Definition asSent (t : frames.PerformTransfer) : Prop :=
  frames.transfer_ReceiverSettleMode t = None
  /\ frames.State t = None
  /\ frames.Resume t = false
  /\ frames.Aborted t = false
  /\ frames.Batchable t = false.

(** The error with which [send] returns when the [select] of its loop
    takes the case [c] instead of handing the frame over. *)
Definition selectError (c : sendSelect) : option error :=
  match c with
  | transferTaken => None
  | linkDone e => e
  | ctxDone err => Some err
  end.

(** ** link.go: closing a link *)

Definition set_doneErr (l : link) (e : option error) : link :=
  mkLink (key_name l) (handle l) (dynamicAddr l) (done l) e (session l)
         (source l) (target l) (deliveryCount l) (senderSettleMode l)
         (receiverSettleMode l) (maxMessageSize l) (detachReceived l).

Definition set_deliveryCount (l : link) (n : Z) : link :=
  mkLink (key_name l) (handle l) (dynamicAddr l) (done l) (doneErr l)
         (session l) (source l) (target l) n (senderSettleMode l)
         (receiverSettleMode l) (maxMessageSize l) (detachReceived l).






Section MuxClose.

(** [Session.deallocateHandle] is declared outside the sources at
    hand; it acts on the session. *)
Variable deallocateHandle : Session -> link -> Session.



End MuxClose.

(** ** sender.go: the accessors and the mux *)

Definition LinkName (s : Sender) : string := key_name (l s).

Definition MaxMessageSize (s : Sender) : Z := maxMessageSize (l s).

Definition Address (s : Sender) : string :=
  match target (l s) with
  | None => ""%string
  | Some t => frames.Address t
  end.


(** The Attach frame that a sender sends for its link once the handle
    [h] is allocated: the link's name, modes, source and maximum
    message size, the role of a sender, and the link's target (a fresh
    one if it has none) with the dynamic flag of the link. *)
Definition attachFrame (s : Sender) (h : Z) : frames.PerformAttach :=
  frames.mkAttach
    (key_name (l s)) h RoleSender
    (senderSettleMode (l s)) (receiverSettleMode (l s)) (source (l s))
    (Some (frames.mkTarget (Address s) (dynamicAddr (l s))))
    (maxMessageSize (l s)).

(** The state of [Sender.mux]: the sender, the channel [outgoingDisp]
    of capacity one, the slice [outgoingDisps], and the transfers sent
    on the session's [txTransfer] channel, oldest first. *)
Record muxState : Type := mkMux {
  mux_s : Sender;
  outgoingDisp : option frames.PerformDisposition;
  outgoingDisps : list frames.PerformDisposition;
  txTransfer : list frames.PerformTransfer
}.

(** The case taken by one of the two inner [select]s: the session
    takes the frame offered, a frame arrives on [rx], the [close]
    channel is closed, or the session is done. *)
Inductive innerSelect : Type :=
| sessionTakes
| innerFrame (fr : frames.FrameBody)
| innerClose
| innerSessionDone.

(** The case taken by the [select] of one iteration of the loop of
    [mux], with the cases that the inner loop takes after it: a
    disposition is ready on [outgoingDisp], a frame arrives on [rx], a
    transfer is received from [Send], the [close] channel is closed,
    or the session is done with the error given. *)
Inductive muxSelect : Type :=
| dispReady (inner : list innerSelect)
| rxFrame (fr : frames.FrameBody)
| transferReceived (tr : frames.PerformTransfer) (inner : list innerSelect)
| closeRequested
| sessionDone (sessionDoneErr : option error).

(** How an iteration ends: [continue Loop], [return], or a [select]
    none of whose cases given can fire. *)
Inductive muxOutcome : Type :=
| muxContinue (st : muxState)
| muxReturn (st : muxState)
| muxBlocked.

(** The closure [handleFrame] of [mux]. *)
Definition handleFrame (st : muxState) (fr : frames.FrameBody)
  : muxState * option error :=
  let '(s, (disp, err)) := muxHandleFrame (mux_s st) fr in
  let s := set_l s (set_doneErr (l s) err) in
  match err, disp with
  | Some e, _ =>
      (mkMux s (outgoingDisp st) (outgoingDisps st) (txTransfer st), Some e)
  | None, Some d =>
      (mkMux s (outgoingDisp st) (outgoingDisps st ++ [d]) (txTransfer st),
       None)
  | None, None =>
      (mkMux s (outgoingDisp st) (outgoingDisps st) (txTransfer st), None)
  end.

(** The inner loop entered with the disposition [dr]. *)
Fixpoint dispLoop (inner : list innerSelect) (dr : frames.PerformDisposition)
         (st : muxState) : muxOutcome :=
  match inner with
  | [] => muxBlocked
  | sessionTakes :: _ =>
      let s := mux_s st in
      let s :=
        set_l s (set_session (l s)
                   (txFrame (session (l s)) (frames.FrameDisposition dr))) in
      muxContinue (mkMux s (outgoingDisp st) (outgoingDisps st)
                         (txTransfer st))
  | innerFrame fr :: rest =>
      match handleFrame st fr with
      | (st, Some _) => muxReturn st
      | (st, None) => dispLoop rest dr st
      end
  | innerClose :: _ => muxContinue st
  | innerSessionDone :: _ => muxContinue st
  end.

(** The inner loop entered with the transfer [tr]. *)
Fixpoint transferLoop (inner : list innerSelect) (tr : frames.PerformTransfer)
         (st : muxState) : muxOutcome :=
  match inner with
  | [] => muxBlocked
  | sessionTakes :: _ =>
      let s := mux_s st in
      let s :=
        if negb (frames.More tr) then
          set_availableCredit
            (set_l s (set_deliveryCount (l s)
                        (to_uint32 (deliveryCount (l s) + 1))))
            (to_uint32 (availableCredit s - 1))
        else s in
      muxContinue (mkMux s (outgoingDisp st) (outgoingDisps st)
                         (txTransfer st ++ [tr]))
  | innerFrame fr :: rest =>
      match handleFrame st fr with
      | (st, Some _) => muxReturn st
      | (st, None) => transferLoop rest tr st
      end
  | innerClose :: _ => muxContinue st
  | innerSessionDone :: _ => muxContinue st
  end.

(** One iteration of the loop of [mux].  The transfers channel is
    read only when there is credit at the top of the iteration; the
    next disposition is queued on [outgoingDisp] when that is empty. *)
Definition muxIter (sel : muxSelect) (st : muxState) : muxOutcome :=
  let credit := availableCredit (mux_s st) >? 0 in
  let st :=
    match outgoingDisps st, outgoingDisp st with
    | d :: rest, None => mkMux (mux_s st) (Some d) rest (txTransfer st)
    | _, _ => st
    end in
  match sel with
  | dispReady inner =>
      match outgoingDisp st with
      | Some dr =>
          dispLoop inner dr
                   (mkMux (mux_s st) None (outgoingDisps st) (txTransfer st))
      | None => muxBlocked
      end
  | rxFrame fr =>
      match handleFrame st fr with
      | (st, Some _) => muxReturn st
      | (st, None) => muxContinue st
      end
  | transferReceived tr inner =>
      if credit then transferLoop inner tr st else muxBlocked
  | closeRequested =>
      let s := mux_s st in
      muxReturn (mkMux (set_l s (set_doneErr (l s)
                                   (Some (LinkError None None))))
                       (outgoingDisp st) (outgoingDisps st) (txTransfer st))
  | sessionDone e =>
      let s := mux_s st in
      muxReturn (mkMux (set_l s (set_doneErr (l s) e))
                       (outgoingDisp st) (outgoingDisps st) (txTransfer st))
  end.


Section Mux.

Variable deallocateHandle : Session -> link -> Session.



End Mux.

(** ** Notions used to state the properties of the mux *)

(** A run of iterations none of which returns: the state after them,
    [None] if one of them returns or cannot fire. *)
Fixpoint muxSteps (sels : list muxSelect) (st : muxState) : option muxState :=
  match sels with
  | [] => Some st
  | sel :: rest =>
      match muxIter sel st with
      | muxContinue st => muxSteps rest st
      | _ => None
      end
  end.

(** The iteration in which the mux receives the transfer [tr] and the
    session takes it at once. *)
Definition transferSent (tr : frames.PerformTransfer) : muxSelect :=
  transferReceived tr [sessionTakes].

(** The transfers that end a message. *)
Definition completed (trs : list frames.PerformTransfer) : Z :=
  len (filter (fun tr => negb (frames.More tr)) trs).

(** The disposition with which the sender confirms the unsettled
    disposition [fr]. *)
Definition confirmation (fr : frames.PerformDisposition)
  : frames.PerformDisposition :=
  frames.mkDisposition RoleSender (frames.disp_First fr)
                       (frames.disp_Last fr) true None.

(** Whether the disposition [fr] makes the mux of [s] terminate the
    link: it carries a rejection and the sender closes its link on
    one. *)
Definition terminates (s : Sender) (fr : frames.PerformDisposition) : bool :=
  match frames.disp_State fr with
  | Some (StateRejected _) => detachOnRejectDisp s
  | _ => false
  end.

(** The dispositions waiting to be handed to the session, the one on
    the channel first. *)
Definition pending (st : muxState) : list frames.PerformDisposition :=
  match outgoingDisp st with
  | Some d => d :: outgoingDisps st
  | None => outgoingDisps st
  end.

(** The frames handed to the session of the sender. *)
Definition sent (st : muxState) : list frames.FrameBody :=
  session_tx (session (l (mux_s st))).

(** ** More examples *)

(** Stand-ins for the two methods that [performTransfer.marshal] takes
    as they are, to run it on examples: the mode written as an
    unsigned byte and a state as an empty composite. *)
Definition exampleMode (m : ReceiverSettleMode) : value :=
  Uint8 (ReceiverSettleMode_code m).

Definition exampleState (st : DeliveryState) : value := Composite 36 [].

(** A transfer as [send] builds one, with the fields of its header in
    their longest form and a delivery-tag of the greatest length
    allowed. *)
Definition longestTransfer : frames.PerformTransfer :=
  frames.mkTransfer 300 (Some (deliveryID 300)) (repeat 7 32) (Some 300)
                    false true None None false false false [1; 2; 3] false.

(** The empty message: no section at all. *)
Definition emptyMessage : Message := mkMessage [] 0 false [].

(** The case of the [select] of [send] in which the context is done at
    iteration [k]. *)
Definition deadlineAt (k : nat) : nat -> sendSelect :=
  fun n => if Nat.eqb n k then ctxDone (ContextError "deadline exceeded")
           else transferTaken.

(** The peer's answer to the Attach of [exampleSender], naming the
    target [tgt], and the outside world of an attach that gets the
    handle 3 and the two frames given. *)
Definition exampleResponse (tgt : option frames.Target)
  : frames.PerformAttach :=
  frames.mkAttach "test" 0 RoleReceiver (Some SenderSettleModeUnsettled)
                  (Some ReceiverSettleModeFirst) None tgt 0.

Definition exampleAttachEnv (first second : frames.FrameBody) : attachEnv :=
  mkAttachEnv (inr 3) (Received first) (Received second) None.

(** [Sender.attach] with AMQP's defaults for the modes and a teardown
    that leaves the link as it is. *)
Definition exampleAttach : attachEnv -> Sender -> Sender * option error :=
  Sender_attach (modeOr ReceiverSettleModeFirst)
                (modeOr SenderSettleModeMixed) (fun x => x).

(** A mux that starts on [exampleSender] with the credit given. *)
Definition exampleMux (credit : Z) : muxState :=
  mkMux (set_availableCredit (exampleSender 512 0) credit) None [] [].

Definition exampleTransfer (more : bool) : frames.PerformTransfer :=
  frames.mkTransfer 0 None [] None false more None None false false false
                    [1; 2; 3] (negb more).

(** A Flow by which the peer withdraws the credit of a link on which
    nothing has been delivered yet. *)
Definition stopFlow : frames.PerformFlow :=
  frames.mkFlow (Some 0) (Some 0) (Some 0) false.

Definition exampleDisposition (first : Z) (settled : bool)
  : frames.PerformDisposition :=
  frames.mkDisposition RoleReceiver first None settled (Some StateAccepted).


(** * Properties *)

(** ** Big-endian integers *)

Lemma lor_disjoint_add (k a c : Z) :
  0 <= k -> a mod 2 ^ k = 0 -> 0 <= c < 2 ^ k -> Z.lor a c = a + c.
Proof.
  intros Hk Ha Hc.
  assert (Hland : Z.land a c = 0).
  { apply Z.bits_inj'. intros n Hn.
    rewrite Z.land_spec, Z.bits_0.
    destruct (Z.lt_ge_cases n k) as [Hlt | Hge].
    - rewrite <- (Z.mod_pow2_bits_low a k n) by lia.
      rewrite Ha, Z.bits_0. reflexivity.
    - rewrite <- (Z.mod_small c (2 ^ k)) by lia.
      rewrite Z.mod_pow2_bits_high by lia.
      apply andb_false_r. }
  rewrite <- Z.lxor_lor by exact Hland.
  symmetry. apply Z.add_nocarry_lxor. exact Hland.
Qed.

Lemma to_byte_range (x : Z) : 0 <= to_byte x < 256.
Proof. unfold to_byte. apply Z.mod_pos_bound. lia. Qed.

Ltac lor_to_add k :=
  match goal with
  | |- context [Z.lor ?a ?c] =>
      lazymatch a with
      | context [Z.lor] => fail
      | _ => rewrite (lor_disjoint_add k a c);
             [ | lia | Z.div_mod_to_equations; lia | lia ]
      end
  end.

Lemma Uint32_PutUint32 (v : Z) :
  0 <= v < 2 ^ 32 -> binary.Uint32 (binary.PutUint32 v) = Some v.
Proof.
  intros Hv. unfold binary.PutUint32, binary.Uint32. f_equal.
  pose proof (to_byte_range (Z.shiftr v 24)) as H0.
  pose proof (to_byte_range (Z.shiftr v 16)) as H1.
  pose proof (to_byte_range (Z.shiftr v 8)) as H2.
  pose proof (to_byte_range v) as H3.
  assert (E : to_byte (Z.shiftr v 24) * 2 ^ 24
              + to_byte (Z.shiftr v 16) * 2 ^ 16
              + to_byte (Z.shiftr v 8) * 2 ^ 8
              + to_byte v = v).
  { unfold to_byte. rewrite !Z.shiftr_div_pow2 by lia.
    Z.div_mod_to_equations. lia. }
  remember (to_byte (Z.shiftr v 24)) as b0 eqn:E0. clear E0.
  remember (to_byte (Z.shiftr v 16)) as b1 eqn:E1. clear E1.
  remember (to_byte (Z.shiftr v 8)) as b2 eqn:E2. clear E2.
  remember (to_byte v) as b3 eqn:E3. clear E3.
  rewrite !Z.shiftl_mul_pow2 by lia.
  lor_to_add 24. lor_to_add 16. lor_to_add 8.
  exact E.
Qed.

(** ** The byte buffer *)

Lemma wf_New (p : list byte) : wf (buffer.New p).
Proof. unfold wf; simpl; lia. Qed.

Lemma wf_Write (wr : Buffer) (p : list byte) : wf wr -> wf (buffer.Write wr p).
Proof. unfold wf; simpl; rewrite length_app; lia. Qed.

Lemma Write_Write (wr : Buffer) (p q : list byte) :
  buffer.Write (buffer.Write wr p) q = buffer.Write wr (p ++ q).
Proof. unfold buffer.Write; simpl. now rewrite app_assoc. Qed.

Lemma Write_nil (wr : Buffer) : buffer.Write wr [] = wr.
Proof. destruct wr; unfold buffer.Write; simpl. now rewrite app_nil_r. Qed.

Lemma Len_Write (wr : Buffer) (p : list byte) :
  buffer.Len (buffer.Write wr p) = buffer.Len wr + len p.
Proof.
  unfold buffer.Len, len; simpl. rewrite length_app. lia.
Qed.

Lemma len_app {A : Type} (p q : list A) : len (p ++ q) = len p + len q.
Proof. unfold len. rewrite length_app. lia. Qed.

Lemma len_nonneg {A : Type} (p : list A) : 0 <= len p.
Proof. unfold len. lia. Qed.

Lemma length_PutUint32 (v : Z) : length (binary.PutUint32 v) = 4%nat.
Proof. reflexivity. Qed.

(** Patching four bytes that lie right after a prefix [pre] of the
    storage. *)
Lemma PutUint32At_patch (wr : Buffer) (pre old post : list byte) (v : Z) :
  buffer.b wr = pre ++ old ++ post ->
  length old = 4%nat ->
  (buffer.i wr <= length pre)%nat ->
  buffer.PutUint32At wr (len pre - Z.of_nat (buffer.i wr)) v
  = Some (buffer.mk (pre ++ binary.PutUint32 v ++ post) (buffer.i wr)).
Proof.
  intros Hb Hold Hi. unfold buffer.PutUint32At, buffer.Len.
  rewrite Hb. unfold len. rewrite !length_app, Hold.
  replace ((0 <=? Z.of_nat (length pre) - Z.of_nat (buffer.i wr))
           && (Z.of_nat (length pre) - Z.of_nat (buffer.i wr) + 4
               <=? Z.of_nat (length pre + (4 + length post))
                   - Z.of_nat (buffer.i wr)))
    with true
    by (symmetry; apply andb_true_intro; split; apply Z.leb_le; lia).
  replace (buffer.i wr
           + Z.to_nat (Z.of_nat (length pre) - Z.of_nat (buffer.i wr)))%nat
    with (length pre) by lia.
  f_equal. f_equal.
  rewrite firstn_app, firstn_all, Nat.sub_diag. simpl firstn.
  rewrite app_nil_r. f_equal. f_equal.
  rewrite app_assoc.
  replace (length pre + 4)%nat with (length (pre ++ old))
    by (rewrite length_app; lia).
  rewrite skipn_app, skipn_all, Nat.sub_diag. reflexivity.
Qed.

(** ** Induction on values, through the fields of composites *)

Section ValueInduction.

Variable P : value -> Prop.

Hypothesis Hleaf : forall v, isComposite v = false -> P v.
Hypothesis HComposite : forall code fields,
  Forall (fun f => P (field_value f)) fields -> P (Composite code fields).
Hypothesis HTransfer : forall fields payload,
  Forall (fun f => P (field_value f)) fields ->
  P (TransferBody fields payload).

Lemma value_ind_fields : forall v : value, P v.
Proof.
  fix IH 1. intros v.
  assert (Hall : forall fields : list marshalField,
             Forall (fun f => P (field_value f)) fields).
  { clear v. fix IHfields 1. intros [ | [x o] rest ].
    - constructor.
    - constructor; [ exact (IH x) | exact (IHfields rest) ]. }
  destruct v; try (apply Hleaf; reflexivity).
  - apply HComposite, Hall.
  - apply HTransfer, Hall.
Qed.

End ValueInduction.

(** ** Every writer of encode.go only appends *)

Lemma appendOnly_write (p : list byte) :
  appendOnly (fun wr => (buffer.Write wr p, None)).
Proof. intros wr _. reflexivity. Qed.

Lemma appendOnly_ret (e : option error) : appendOnly (fun wr => (wr, e)).
Proof. intros wr _. simpl. now rewrite Write_nil. Qed.

Lemma appendOnly_fail (e : error) : appendOnly (fun wr => (wr, Some e)).
Proof. apply appendOnly_ret. Qed.

Ltac unfold_writes :=
  unfold buffer.WriteUint64, buffer.WriteUint32, buffer.WriteUint16,
    buffer.WriteString, buffer.WriteByte, writeDescriptor in *.

Ltac solve_append :=
  intros wr _; unfold_writes; simpl;
  rewrite ?Write_Write; unfold buffer.Write; simpl;
  rewrite ?app_nil_r; reflexivity.

Lemma appendOnly_writeString (str : list byte) :
  appendOnly (fun wr => writeString wr str).
Proof.
  unfold writeString.
  destruct (utf8.ValidString str); simpl; [ | apply appendOnly_fail ].
  destruct (len str <? 256); [ solve_append | ].
  destruct (len str <? MaxUint32); [ solve_append | apply appendOnly_fail ].
Qed.

Lemma appendOnly_writeBinary (bin : list byte) :
  appendOnly (fun wr => writeBinary wr bin).
Proof.
  unfold writeBinary.
  destruct (len bin <? 256); [ solve_append | ].
  destruct (len bin <? MaxUint32); [ solve_append | apply appendOnly_fail ].
Qed.

Lemma appendOnly_leaf (v : value) :
  isComposite v = false -> appendOnly (fun wr => marshal wr v).
Proof.
  destruct v; simpl; intros Hc; try discriminate.
  - solve_append.
  - destruct t; solve_append.
  - unfold writeUint64. destruct (t =? 0); [ solve_append | ].
    destruct (t <? 256); solve_append.
  - unfold writeUint32. destruct (t =? 0); [ solve_append | ].
    destruct (t <? 256); solve_append.
  - solve_append.
  - solve_append.
  - solve_append.
  - solve_append.
  - unfold writeInt32. destruct ((t <? 128) && (t >=? -128)); solve_append.
  - unfold writeInt64. destruct ((t <? 128) && (t >=? -128)); solve_append.
  - apply appendOnly_writeString.
  - apply appendOnly_writeBinary.
  - apply appendOnly_fail.
Qed.

(** Running one writer after another. *)
Lemma appendOnly_seq (f g : Buffer -> Buffer * option error) :
  appendOnly f -> appendOnly g ->
  appendOnly (fun wr =>
                match f wr with
                | (wr', Some err) => (wr', Some err)
                | (wr', None) => g wr'
                end).
Proof.
  intros Hf Hg wr Hwr. cbv beta.
  rewrite (Hf wr Hwr). rewrite (Hf (buffer.New []) (wf_New [])).
  destruct (snd (f (buffer.New []))) as [e | ]; cbv beta iota.
  - unfold buffer.Write; simpl. reflexivity.
  - rewrite (Hg (buffer.Write (buffer.New [])
                              (buffer.b (fst (f (buffer.New [])))))
                (wf_Write _ _ (wf_New []))).
    rewrite (Hg _ (wf_Write _ _ Hwr)).
    unfold buffer.Write; simpl. rewrite <- app_assoc. reflexivity.
Qed.

Section AppendOnlyComposite.

Variable marshal' : Buffer -> value -> Buffer * option error.

Lemma appendOnly_marshalFields (fields : list marshalField) :
  Forall (fun f => appendOnly (fun wr => marshal' wr (field_value f))) fields ->
  forall n, appendOnly (marshalFields marshal' fields n).
Proof.
  induction 1 as [ | f rest Hf Hrest IH ]; intros n.
  - destruct n; apply (appendOnly_ret None).
  - destruct n as [ | n ]; [ apply (appendOnly_ret None) | ].
    destruct (omit f) eqn:Ho; intros wr Hwr.
    + assert (E : forall w,
                 marshalFields marshal' (f :: rest) (S n) w
                 = marshalFields marshal' rest n
                     (buffer.Write w [typeCodeNull]))
        by (intros w; simpl; rewrite Ho; reflexivity).
      rewrite !E.
      rewrite (IH n (buffer.Write (buffer.New []) [typeCodeNull])
                  (wf_Write _ _ (wf_New []))).
      rewrite (IH n _ (wf_Write _ _ Hwr)).
      unfold buffer.Write; simpl.
      rewrite <- app_assoc. reflexivity.
    + assert (E : forall w,
                 marshalFields marshal' (f :: rest) (S n) w
                 = match marshal' w (field_value f) with
                   | (w', Some err) => (w', Some err)
                   | (w', None) => marshalFields marshal' rest n w'
                   end)
        by (intros w; simpl; rewrite Ho; reflexivity).
      rewrite !E.
      apply (appendOnly_seq (fun w => marshal' w (field_value f))
                            (marshalFields marshal' rest n)); auto.
Qed.

End AppendOnlyComposite.

Section CompositeLayout.

Variable marshal' : Buffer -> value -> Buffer * option error.

(** What [marshalComposite] leaves in the buffer, the back-patched
    size written out. *)
Lemma marshalComposite_explicit (wr : Buffer) (code : amqpType)
      (fields : list marshalField) :
  wf wr ->
  Forall (fun f => appendOnly (fun w => marshal' w (field_value f))) fields ->
  marshalComposite_ marshal' wr code fields =
  let L := lastSetIdxFrom 0 (-1) fields in
  if L =? -1 then
    (buffer.Write wr [0; typeCodeSmallUlong; to_byte code; typeCodeList0],
     None)
  else
    let r := marshalFields marshal' fields (Z.to_nat (L + 1)) (buffer.New []) in
    match snd r with
    | Some err =>
        (buffer.Write wr
           ([0; typeCodeSmallUlong; to_byte code; typeCodeList32]
              ++ [0; 0; 0; 0]
              ++ binary.PutUint32 (to_uint32 (L + 1))
              ++ buffer.b (fst r)),
         Some err)
    | None =>
        (buffer.Write wr
           ([0; typeCodeSmallUlong; to_byte code; typeCodeList32]
              ++ binary.PutUint32 (to_uint32 (4 + len (buffer.b (fst r))))
              ++ binary.PutUint32 (to_uint32 (L + 1))
              ++ buffer.b (fst r)),
         None)
    end.
Proof.
  intros Hwr Hfields. unfold marshalComposite_. cbv zeta.
  destruct (lastSetIdxFrom 0 (-1) fields =? -1); [ reflexivity | ].
  set (L := lastSetIdxFrom 0 (-1) fields).
  unfold writeDescriptor, buffer.WriteByte, buffer.WriteUint32.
  match goal with
  | |- context [buffer.PutUint32At _ (buffer.Len ?w) _] => set (wr1 := w)
  end.
  match goal with
  | |- context [marshalFields _ _ _ ?w] => set (wr3 := w)
  end.
  assert (Hwr3 : wf wr3) by (repeat apply wf_Write; exact Hwr).
  rewrite (appendOnly_marshalFields marshal' fields Hfields
             (Z.to_nat (L + 1)) wr3 Hwr3).
  set (r := marshalFields marshal' fields (Z.to_nat (L + 1)) (buffer.New [])).
  destruct (snd r) as [err | ].
  - f_equal. unfold wr3, wr1, buffer.Write. simpl.
    rewrite <- !app_assoc. reflexivity.
  - replace (buffer.Len (buffer.Write wr3 (buffer.b (fst r)))
             - buffer.Len (buffer.Write wr1 [0; 0; 0; 0]))
      with (4 + len (buffer.b (fst r)))
      by (unfold wr3; rewrite !Len_Write; unfold len; simpl length; lia).
    replace (buffer.Len wr1)
      with (len (buffer.b wr1)
            - Z.of_nat (buffer.i (buffer.Write wr3 (buffer.b (fst r)))))
      by reflexivity.
    rewrite (PutUint32At_patch _ (buffer.b wr1) [0; 0; 0; 0]
               (binary.PutUint32 (to_uint32 (L + 1)) ++ buffer.b (fst r))).
    + f_equal. unfold wr1, buffer.Write. simpl.
      rewrite <- !app_assoc. reflexivity.
    + unfold wr3, buffer.Write. simpl. rewrite <- !app_assoc. reflexivity.
    + reflexivity.
    + unfold wr1, buffer.Write. simpl. rewrite !length_app.
      unfold wf in Hwr. lia.
Qed.

Lemma appendOnly_marshalComposite (code : amqpType)
      (fields : list marshalField) :
  Forall (fun f => appendOnly (fun w => marshal' w (field_value f))) fields ->
  appendOnly (fun wr => marshalComposite_ marshal' wr code fields).
Proof.
  intros Hfields wr Hwr.
  rewrite (marshalComposite_explicit wr code fields Hwr Hfields).
  rewrite (marshalComposite_explicit (buffer.New []) code fields
             (wf_New []) Hfields).
  cbv zeta.
  destruct (lastSetIdxFrom 0 (-1) fields =? -1); [ reflexivity | ].
  destruct (snd (marshalFields marshal' fields _ (buffer.New [])));
    reflexivity.
Qed.

End CompositeLayout.

(** [marshal] only appends, whatever the value. *)
Theorem marshal_appendOnly (v : value) : appendOnly (fun wr => marshal wr v).
Proof.
  induction v using value_ind_fields.
  - now apply appendOnly_leaf.
  - simpl. now apply appendOnly_marshalComposite.
  - simpl.
    apply (appendOnly_seq
             (fun wr => marshalComposite_ marshal wr typeCodeTransfer fields)
             (fun wr => (buffer.Write wr payload, None))).
    + now apply appendOnly_marshalComposite.
    + apply appendOnly_write.
Qed.

Corollary marshal_append (v : value) (wr : Buffer) :
  wf wr ->
  marshal wr v = (buffer.Write wr (encoding v),
                  snd (marshal (buffer.New []) v)).
Proof. intros Hwr. apply (marshal_appendOnly v wr Hwr). Qed.

(** ** writeString *)

Lemma to_byte_small (x : Z) : 0 <= x < 256 -> to_byte x = x.
Proof. intros H. unfold to_byte. now apply Z.mod_small. Qed.

Lemma to_uint32_small (x : Z) : 0 <= x < 2 ^ 32 -> to_uint32 x = x.
Proof. intros H. unfold to_uint32. now apply Z.mod_small. Qed.

(** C8: [writeString] rejects a string that is not valid UTF-8 and
    then leaves the buffer as it was; a valid string shorter than 256
    bytes is written as the str8 format code, its length in one byte
    and its bytes; a longer valid string of fewer than 2^32 - 1 bytes
    as the str32 format code, its length in four bytes (big endian)
    and its bytes. *)
Theorem writeString_spec (wr : Buffer) (str : list byte) :
  (utf8.ValidString str = false ->
   writeString wr str = (wr, Some errNotUTF8)) /\
  (utf8.ValidString str = true -> len str < 256 ->
   writeString wr str
   = (buffer.Write wr ([typeCodeStr8; len str] ++ str), None)) /\
  (utf8.ValidString str = true -> 256 <= len str < 2 ^ 32 - 1 ->
   writeString wr str
   = (buffer.Write wr ([typeCodeStr32] ++ binary.PutUint32 (len str) ++ str),
      None)
   /\ binary.Uint32 (binary.PutUint32 (len str)) = Some (len str)).
Proof.
  unfold writeString. split; [ | split ].
  - intros Hv. rewrite Hv. reflexivity.
  - intros Hv Hl. rewrite Hv. simpl negb. cbv iota.
    pose proof (len_nonneg str) as Hn.
    replace (len str <? 256) with true by (symmetry; apply Z.ltb_lt; lia).
    rewrite to_byte_small by lia.
    unfold buffer.WriteString. rewrite Write_Write. reflexivity.
  - intros Hv Hl. rewrite Hv. simpl negb. cbv iota.
    replace (len str <? 256) with false by (symmetry; apply Z.ltb_ge; lia).
    replace (len str <? MaxUint32) with true
      by (symmetry; apply Z.ltb_lt; unfold MaxUint32; lia).
    rewrite to_uint32_small by lia.
    unfold buffer.WriteString, buffer.WriteUint32, buffer.WriteByte.
    rewrite !Write_Write. split; [ reflexivity | ].
    apply Uint32_PutUint32. lia.
Qed.

Lemma writeString_spec_witness :
  writeString (buffer.New [7]) [255] = (buffer.New [7], Some errNotUTF8)
  /\ writeString (buffer.New [7]) [104; 105]
     = (buffer.New [7; 161; 2; 104; 105], None)
  /\ fst (writeString (buffer.New []) (repeat 97 300))
     = buffer.New ([177; 0; 0; 1; 44] ++ repeat 97 300).
Proof.
  split; [ | split ].
  - apply (proj1 (writeString_spec (buffer.New [7]) [255])). reflexivity.
  - apply (proj1 (proj2 (writeString_spec (buffer.New [7]) [104; 105])));
      [ reflexivity | unfold len; simpl; lia ].
  - assert (Hv : utf8.ValidString (repeat 97 300) = true)
      by (vm_compute; reflexivity).
    assert (Hl : 256 <= len (repeat 97 300) < 2 ^ 32 - 1)
      by (unfold len; rewrite repeat_length; lia).
    rewrite (proj1 (proj2 (proj2 (writeString_spec (buffer.New [])
                                    (repeat 97 300))) Hv Hl)).
    vm_compute. reflexivity.
Defined.

(** ** marshalComposite *)

Lemma lastSetIdxFrom_all_omitted (fields : list marshalField) (i last : Z) :
  Forall (fun f => omit f = true) fields ->
  lastSetIdxFrom i last fields = last.
Proof.
  intros H. revert i last.
  induction H as [ | f rest Hf _ IH ]; intros i last; simpl.
  - reflexivity.
  - rewrite Hf. apply IH.
Qed.

Lemma lastNonOmitted_tail (f : marshalField) (rest : list marshalField)
      (L : nat) :
  lastNonOmitted (f :: rest) (S L) -> lastNonOmitted rest L.
Proof.
  intros [[g [Hg Ho]] Hafter]. split.
  - exists g. auto.
  - intros j h Hj Hh. apply (Hafter (S j) h); [ lia | exact Hh ].
Qed.

Lemma lastNonOmitted_head (f : marshalField) (rest : list marshalField) :
  lastNonOmitted (f :: rest) 0 ->
  omit f = false /\ Forall (fun g => omit g = true) rest.
Proof.
  intros [[g [Hg Ho]] Hafter]. simpl in Hg. injection Hg as ->.
  split; [ exact Ho | ].
  apply Forall_forall. intros h Hin.
  destruct (In_nth_error _ _ Hin) as [j Hj].
  apply (Hafter (S j) h); [ lia | exact Hj ].
Qed.

Lemma lastSetIdxFrom_last (fields : list marshalField) (L : nat) (i last : Z) :
  lastNonOmitted fields L ->
  lastSetIdxFrom i last fields = i + Z.of_nat L.
Proof.
  revert L i last.
  induction fields as [ | f rest IH ]; intros L i last HL.
  - destruct HL as [[g [Hg _]] _]. destruct L; discriminate.
  - destruct L as [ | L ].
    + destruct (lastNonOmitted_head _ _ HL) as [Hf Hrest].
      simpl. rewrite Hf.
      rewrite (lastSetIdxFrom_all_omitted rest _ _ Hrest). lia.
    + simpl. rewrite (IH L _ _ (lastNonOmitted_tail _ _ _ HL)). lia.
Qed.

(** Either every field is omitted or there is a last field that is not. *)
Lemma omitted_or_last (fields : list marshalField) :
  Forall (fun f => omit f = true) fields \/ exists L, lastNonOmitted fields L.
Proof.
  induction fields as [ | f rest IH ].
  - left. constructor.
  - destruct IH as [Hall | [L HL]].
    + destruct (omit f) eqn:Hf.
      * left. constructor; assumption.
      * right. exists 0%nat. split.
        -- exists f. auto.
        -- intros j g Hj Hg. destruct j as [ | j ]; [ lia | ].
           simpl in Hg. rewrite Forall_forall in Hall.
           apply Hall. eapply nth_error_In; eassumption.
    + right. exists (S L). destruct HL as [[g [Hg Ho]] Hafter]. split.
      * exists g. auto.
      * intros j h Hj Hh. destruct j as [ | j ]; [ lia | ].
        apply (Hafter j h); [ lia | exact Hh ].
Qed.

(** The second loop of [marshalComposite] when the fields it visits
    marshal: one entry per field, in order. *)
Lemma marshalFields_ok (fields : list marshalField) (n : nat) (wr : Buffer) :
  wf wr ->
  (forall f, In f (firstn n fields) -> omit f = false ->
             marshals (field_value f)) ->
  marshalFields marshal fields n wr
  = (buffer.Write wr (concat (map fieldEncoding (firstn n fields))), None).
Proof.
  revert n wr.
  induction fields as [ | f rest IH ]; intros n wr Hwr Hok.
  - destruct n; simpl; now rewrite Write_nil.
  - destruct n as [ | n ]; simpl; [ now rewrite Write_nil | ].
    unfold fieldEncoding at 1. destruct (omit f) eqn:Hf.
    + unfold buffer.WriteByte. rewrite IH.
      * rewrite Write_Write. reflexivity.
      * now apply wf_Write.
      * intros g Hg. apply Hok. simpl. now right.
    + rewrite (marshal_append _ _ Hwr).
      rewrite (Hok f (or_introl eq_refl) Hf).
      rewrite IH.
      * rewrite Write_Write. reflexivity.
      * now apply wf_Write.
      * intros g Hg. apply Hok. simpl. now right.
Qed.

(** C1: [marshalComposite] writes, when every field is omitted, the
    four bytes 0x00, smallulong, the composite code and list0.
    Otherwise, [L] being the index of the last field that is not
    omitted and the non-omitted fields up to [L] marshaling without
    error, it writes the descriptor (0x00, smallulong, code) and a
    list32: the format code, the four-byte size of all that follows
    the size field, the four-byte count [L + 1], then for each field
    of index at most [L], in order, the null format code when it is
    omitted and its marshaled encoding when it is not; nothing is
    written for the fields after [L].  Size and count are the
    big-endian unsigned 32-bit numbers of the buffer, and read back
    as the numbers themselves when these fit 32 bits. *)
Theorem marshalComposite_layout (wr : Buffer) (code : amqpType)
        (fields : list marshalField) :
  wf wr ->
  (Forall (fun f => omit f = true) fields ->
   marshalComposite wr code fields
   = (buffer.Write wr
        [0; typeCodeSmallUlong; to_byte code; typeCodeList0], None))
  /\
  (forall L, lastNonOmitted fields L ->
     let written := firstn (S L) fields in
     (forall f, In f written -> omit f = false -> marshals (field_value f)) ->
     let body := concat (map fieldEncoding written) in
     let count := binary.PutUint32 (to_uint32 (Z.of_nat L + 1)) in
     let size := binary.PutUint32 (to_uint32 (len (count ++ body))) in
     marshalComposite wr code fields
     = (buffer.Write wr
          ([0; typeCodeSmallUlong; to_byte code; typeCodeList32]
             ++ size ++ count ++ body), None)
     /\ (len (count ++ body) < 2 ^ 32 ->
         binary.Uint32 size = Some (len (count ++ body)))
     /\ (Z.of_nat L + 1 < 2 ^ 32 ->
         binary.Uint32 count = Some (Z.of_nat L + 1))).
Proof.
  intros Hwr.
  assert (Happ : Forall (fun f => appendOnly
                                    (fun w => marshal w (field_value f)))
                        fields)
    by (apply Forall_forall; intros f _; apply marshal_appendOnly).
  unfold marshalComposite.
  rewrite (marshalComposite_explicit marshal wr code fields Hwr Happ).
  cbv zeta. split.
  - intros Hall.
    rewrite (lastSetIdxFrom_all_omitted fields 0 (-1) Hall). reflexivity.
  - intros L HL Hok.
    rewrite (lastSetIdxFrom_last fields L 0 (-1) HL).
    replace (0 + Z.of_nat L =? -1) with false
      by (symmetry; apply Z.eqb_neq; lia).
    replace (Z.to_nat (0 + Z.of_nat L + 1)) with (S L) by lia.
    rewrite (marshalFields_ok fields (S L) (buffer.New []) (wf_New []) Hok).
    cbn [fst snd buffer.b buffer.Write buffer.New app].
    replace (0 + Z.of_nat L + 1) with (Z.of_nat L + 1) by lia.
    rewrite len_app.
    replace (len (binary.PutUint32 (to_uint32 (Z.of_nat L + 1)))) with 4
      by reflexivity.
    split; [ reflexivity | split ].
    + intros Hsize. rewrite to_uint32_small.
      * apply Uint32_PutUint32.
        pose proof (len_nonneg (concat (map fieldEncoding
                                             (firstn (S L) fields)))).
        lia.
      * pose proof (len_nonneg (concat (map fieldEncoding
                                             (firstn (S L) fields)))).
        lia.
    + intros Hcount. rewrite to_uint32_small by lia.
      apply Uint32_PutUint32. lia.
Qed.

Lemma marshalComposite_layout_witness :
  marshalComposite (buffer.mk [1; 2; 3] 2) typeCodeClose [(Nil, true)]
  = (buffer.mk [1; 2; 3; 0; 83; 24; 69] 2, None)
  /\ marshalComposite (buffer.mk [1; 2; 3] 2) typeCodeDetach
       [(Nil, true); (String_ [104; 105], false); (Uint32 300, false);
        (Nil, true)]
     = (buffer.mk [1; 2; 3; 0; 83; 22; 208; 0; 0; 0; 14; 0; 0; 0; 3;
                   64; 161; 2; 104; 105; 112; 0; 0; 1; 44] 2, None).
Proof.
  assert (Hwr : wf (buffer.mk [1; 2; 3] 2)) by (unfold wf; simpl; lia).
  split.
  - apply (proj1 (marshalComposite_layout _ typeCodeClose [(Nil, true)] Hwr)).
    repeat constructor.
  - assert (HL : lastNonOmitted
                   [(Nil, true); (String_ [104; 105], false);
                    (Uint32 300, false); (Nil, true)] 2).
    { split.
      - exists (Uint32 300, false). split; reflexivity.
      - intros j f Hj Hf.
        destruct j as [ | [ | [ | [ | j ] ] ] ]; try lia.
        + simpl in Hf. injection Hf as <-. reflexivity.
        + simpl in Hf. destruct j; discriminate. }
    refine (proj1 (proj2 (marshalComposite_layout _ typeCodeDetach _ Hwr)
                         2%nat HL _)).
    intros f [<- | [<- | [<- | []]]] Ho; try discriminate; reflexivity.
Defined.

(** ** writeFrame *)

Lemma to_uint32_len (n : Z) : 0 <= n <= MaxUint32 -> to_uint32 n = n.
Proof. unfold MaxUint32. intros H. apply to_uint32_small. lia. Qed.

(** C7: for a frame whose body marshals, [writeFrame] on a buffer
    with nothing unread leaves an eight-byte header (the four-byte
    size, doff = 2, the frame type, the two-byte channel) followed by
    the marshaled body; the size field holds the length of the whole
    encoded frame, which is at least 8.  A frame whose encoding is
    longer than 2^32 - 1 bytes is refused with an error. *)
Theorem writeFrame_layout (buf : Buffer) (fr : frame) :
  wf buf -> buffer.Len buf = 0 -> marshals (body fr) ->
  let total := 8 + len (encoding (body fr)) in
  let encoded :=
    binary.PutUint32 total ++ [2; type_ fr]
      ++ binary.PutUint16 (channel fr) ++ encoding (body fr) in
  (total <= MaxUint32 ->
   writeFrame buf fr
   = (buffer.mk (buffer.b buf ++ encoded) (buffer.i buf), None)
   /\ buffer.Bytes (fst (writeFrame buf fr)) = encoded
   /\ binary.Uint32 encoded = Some (len encoded)
   /\ len encoded = total
   /\ 8 <= total)
  /\
  (total > MaxUint32 -> snd (writeFrame buf fr) = Some errFrameTooLarge).
Proof.
  intros Hwf Hlen Hbody total encoded.
  pose proof (len_nonneg (encoding (body fr))) as Hn.
  assert (Hlenenc : len encoded = total).
  { unfold encoded, total, len. rewrite !length_app.
    cbn [length binary.PutUint16 binary.PutUint32]. lia. }
  assert (Hi : buffer.i buf = length (buffer.b buf)).
  { unfold buffer.Len, len, wf in *. lia. }
  unfold writeFrame, buffer.WriteUint16. rewrite Write_Write.
  rewrite marshal_append by (now apply wf_Write).
  rewrite Hbody, Write_Write.
  set (raw := ([0; 0; 0; 0; 2; type_ fr] ++ binary.PutUint16 (channel fr))
                ++ encoding (body fr)).
  assert (Hraw : len raw = total).
  { unfold raw, total, len. rewrite !length_app.
    cbn [length binary.PutUint16]. lia. }
  assert (HLen : buffer.Len (buffer.Write buf raw) = total)
    by (rewrite Len_Write; lia).
  assert (HBytes : buffer.Bytes (buffer.Write buf raw) = raw).
  { unfold buffer.Bytes, buffer.Write. simpl. rewrite Hi.
    rewrite skipn_app, skipn_all, Nat.sub_diag. reflexivity. }
  rewrite HLen, HBytes, Hraw. split.
  - intros Hfit.
    destruct (Z.gtb_spec total MaxUint32) as [Hgt | _]; [ lia | ].
    rewrite to_uint32_len by lia.
    assert (Hpatch :
              buffer.PutUint32At (buffer.Write buf raw) 0 total
              = Some (buffer.mk (buffer.b buf ++ encoded) (buffer.i buf))).
    { replace 0 with (len (buffer.b buf)
                      - Z.of_nat (buffer.i (buffer.Write buf raw)))
        by (unfold len; simpl; lia).
      rewrite (PutUint32At_patch _ (buffer.b buf) [0; 0; 0; 0]
                 ([2; type_ fr] ++ binary.PutUint16 (channel fr)
                    ++ encoding (body fr))).
      - reflexivity.
      - unfold raw, buffer.Write. simpl. reflexivity.
      - reflexivity.
      - simpl. lia. }
    rewrite Hpatch. cbn [fst].
    split; [ reflexivity | split; [ | split; [ | split ] ] ].
    + unfold buffer.Bytes. simpl. rewrite Hi.
      rewrite skipn_app, skipn_all, Nat.sub_diag. reflexivity.
    + rewrite Hlenenc. unfold encoded, binary.PutUint32.
      cbn [app]. 
      change (binary.Uint32 (binary.PutUint32 total) = Some total).
      apply Uint32_PutUint32. unfold MaxUint32 in Hfit. lia.
    + exact Hlenenc.
    + unfold total. lia.
  - intros Hbig.
    destruct (Z.gtb_spec total MaxUint32) as [_ | Hle]; [ | lia ].
    reflexivity.
Qed.

Lemma writeFrame_layout_witness :
  writeFrame (buffer.mk [9; 9] 2)
             (mkFrame 0 0 (performDetach_marshal (mkDetach 0 true None)))
  = (buffer.mk [9; 9; 0; 0; 0; 22; 2; 0; 0; 0;
                0; 83; 22; 208; 0; 0; 0; 6; 0; 0; 0; 2; 67; 65] 2, None).
Proof.
  refine (proj1 (proj1 (writeFrame_layout (buffer.mk [9; 9] 2)
                          (mkFrame 0 0 (performDetach_marshal
                                          (mkDetach 0 true None)))
                          _ _ _) _)).
  - unfold wf; simpl; lia.
  - reflexivity.
  - reflexivity.
  - vm_compute. discriminate.
Defined.

(** ** The sender's credit *)

(** C4: when the sender's mux handles a flow frame that carries
    link-credit [L] and delivery-count [D'], the sender's available
    credit becomes [L + D' - D] modulo 2^32, [D] being the link's own
    delivery-count; no error is returned and no disposition is due. *)
Theorem muxHandleFrame_flow_credit (s : Sender) (fr : frames.PerformFlow)
        (L D' : Z) :
  frames.flow_LinkCredit fr = Some L ->
  frames.flow_DeliveryCount fr = Some D' ->
  availableCredit (fst (muxHandleFrame s (frames.FrameFlow fr)))
  = (L + D' - deliveryCount (l s)) mod 2 ^ 32
  /\ snd (muxHandleFrame s (frames.FrameFlow fr)) = (None, None).
Proof.
  intros HL HD. unfold muxHandleFrame. rewrite HL, HD.
  assert (E : to_uint32 (to_uint32 (L - deliveryCount (l s)) + D')
              = (L + D' - deliveryCount (l s)) mod 2 ^ 32).
  { unfold to_uint32. rewrite Z.add_mod_idemp_l by lia. f_equal. lia. }
  destruct (frames.flow_Echo fr); simpl; rewrite E; split; reflexivity.
Qed.

Lemma muxHandleFrame_flow_credit_witness :
  availableCredit
    (fst (muxHandleFrame
            (mkSender
               (mkLink "l" 0 false false None (mkSession (mkConn 512) [])
                       None None 4294967295 None None 0 false)
               [] true (buffer.New []) 0 0)
            (frames.FrameFlow (frames.mkFlow (Some 0) (Some 2) (Some 10)
                                             true))))
  = 13.
Proof.
  refine (proj1 (muxHandleFrame_flow_credit _ _ 10 2 _ _)); reflexivity.
Defined.

(** ** Settlement modes *)

Lemma ReceiverSettleMode_eqb_eq (a c : ReceiverSettleMode) :
  ReceiverSettleMode_eqb a c = true <-> a = c.
Proof. destruct a, c; simpl; split; congruence. Qed.

Lemma SenderSettleMode_eqb_eq (a c : SenderSettleMode) :
  SenderSettleMode_eqb a c = true <-> a = c.
Proof. destruct a, c; simpl; split; congruence. Qed.

Section SettleModes.

Variable receiverSettleModeValue :
  option ReceiverSettleMode -> ReceiverSettleMode.
Variable senderSettleModeValue :
  option SenderSettleMode -> SenderSettleMode.

(** C6: [setSettleModes] returns an error exactly when a settlement
    mode, the receiver's or the sender's, was set locally and the
    value of the peer's response for that mode differs from the local
    one; when it returns no error both modes of the link are set to
    the values of the peer's response. *)
Theorem setSettleModes_spec (x : link) (resp : frames.PerformAttach) :
  let result :=
    setSettleModes receiverSettleModeValue senderSettleModeValue x resp in
  let recvDiffers :=
    receiverSettleMode x <> None /\
    receiverSettleModeValue (receiverSettleMode x)
    <> receiverSettleModeValue (frames.attach_ReceiverSettleMode resp) in
  let sendDiffers :=
    senderSettleMode x <> None /\
    senderSettleModeValue (senderSettleMode x)
    <> senderSettleModeValue (frames.attach_SenderSettleMode resp) in
  (snd result <> None <-> recvDiffers \/ sendDiffers)
  /\
  (snd result = None ->
   receiverSettleMode (fst result)
   = Some (receiverSettleModeValue (frames.attach_ReceiverSettleMode resp))
   /\ senderSettleMode (fst result)
      = Some (senderSettleModeValue (frames.attach_SenderSettleMode resp))).
Proof.
  cbv zeta. unfold setSettleModes.
  destruct (ReceiverSettleMode_eqb
              (receiverSettleModeValue (receiverSettleMode x))
              (receiverSettleModeValue
                 (frames.attach_ReceiverSettleMode resp))) eqn:Er;
    destruct (SenderSettleMode_eqb
                (senderSettleModeValue (senderSettleMode x))
                (senderSettleModeValue
                   (frames.attach_SenderSettleMode resp))) eqn:Es;
    destruct (receiverSettleMode x) as [r | ] eqn:Hr;
    destruct (senderSettleMode x) as [m | ] eqn:Hm;
    cbn [isSome negb andb fst snd senderSettleMode receiverSettleMode
         set_receiverSettleMode set_senderSettleMode];
    rewrite ?Hm, ?Es; cbn [isSome negb andb fst snd senderSettleMode
                            receiverSettleMode set_senderSettleMode];
    try apply ReceiverSettleMode_eqb_eq in Er;
    try apply SenderSettleMode_eqb_eq in Es;
    (split;
     [ split;
       [ intros H; try (exfalso; apply H; reflexivity);
         first [ left; split; [ discriminate | intros E;
                   apply ReceiverSettleMode_eqb_eq in E; congruence ]
               | right; split; [ discriminate | intros E;
                   apply SenderSettleMode_eqb_eq in E; congruence ] ]
       | intros [[H1 H2] | [H1 H2]]; try discriminate; congruence ]
     | intros H; try discriminate; split; reflexivity ]).
Qed.

End SettleModes.

Lemma setSettleModes_spec_witness :
  snd (setSettleModes (modeOr ReceiverSettleModeFirst)
                      (modeOr SenderSettleModeMixed)
         (mkLink "l" 0 false false None (mkSession (mkConn 512) [])
                 None None 0 None (Some ReceiverSettleModeSecond) 0 false)
         (frames.mkAttach "l" 0 RoleReceiver None None None None 0))
  <> None
  /\ receiverSettleMode
       (fst (setSettleModes (modeOr ReceiverSettleModeFirst)
                            (modeOr SenderSettleModeMixed)
               (mkLink "l" 0 false false None (mkSession (mkConn 512) [])
                       None None 0 (Some SenderSettleModeSettled) None 0
                       false)
               (frames.mkAttach "l" 0 RoleReceiver
                                (Some SenderSettleModeSettled)
                                (Some ReceiverSettleModeSecond) None None 0)))
     = Some ReceiverSettleModeSecond.
Proof.
  split.
  - apply (proj2 (proj1 (setSettleModes_spec _ _ _ _))).
    left. split; discriminate.
  - refine (proj1 (proj2 (setSettleModes_spec
                            (modeOr ReceiverSettleModeFirst)
                            (modeOr SenderSettleModeMixed) _ _) _)).
    reflexivity.
Defined.

(** ** The maximum message size *)

Section MaxMessageSize.

Variable receiverSettleModeValue :
  option ReceiverSettleMode -> ReceiverSettleMode.
Variable senderSettleModeValue :
  option SenderSettleMode -> SenderSettleMode.
Variable muxClose : link -> link.

Lemma maxMessageSize_afterAttach (pa : frames.PerformAttach) (x : link) :
  maxMessageSize (sender_afterAttach pa x) = maxMessageSize x.
Proof.
  unfold sender_afterAttach. destruct x as [? ? dyn ? ? ? ? tgt ? ? ? ? ?].
  destruct tgt, (frames.attach_Target pa), dyn; reflexivity.
Qed.

Lemma maxMessageSize_setSettleModes (x : link) (resp : frames.PerformAttach) :
  maxMessageSize
    (fst (setSettleModes receiverSettleModeValue senderSettleModeValue
                         x resp))
  = maxMessageSize x.
Proof.
  unfold setSettleModes.
  destruct (isSome (receiverSettleMode x) && _); [ reflexivity | ].
  cbv zeta.
  destruct (isSome _ && _); reflexivity.
Qed.

(** What a successful [attach] leaves as the link's maximum message
    size, for closures that do not touch it: the value resolved
    against the peer's answer or, when the attach went unanswered, the
    local value. *)
Lemma link_attach_maxMessageSize (env : attachEnv) (x x' : link)
      (before : frames.PerformAttach -> frames.PerformAttach)
      (after : frames.PerformAttach -> link -> link) :
  (forall pa y, maxMessageSize (after pa y) = maxMessageSize y) ->
  link_attach receiverSettleModeValue senderSettleModeValue muxClose
              env x before after = (x', None) ->
  (exists resp,
     firstWait env = Received (frames.FrameAttach resp)
     /\ isSome (frames.attach_Source resp)
        || isSome (frames.attach_Target resp) = true
     /\ maxMessageSize x'
        = if maxMessageSize x =? 0
          then frames.attach_MaxMessageSize resp
          else Z.min (maxMessageSize x) (frames.attach_MaxMessageSize resp))
  \/ (unanswered env /\ maxMessageSize x' = maxMessageSize x).
Proof.
  intros Hafter. unfold link_attach.
  destruct (allocateHandle env) as [err | h]; [ discriminate | ].
  cbv zeta.
  match goal with
  | |- context [set_session ?y _] =>
      set (y0 := y);
      assert (Hy : maxMessageSize y0 = maxMessageSize x)
        by (unfold y0; simpl; destruct (target x); reflexivity)
  end.
  clearbody y0.
  destruct (firstWait env) as [fr | e | e] eqn:Hfirst; try discriminate.
  2: { destruct (isContextErr e) eqn:He; [ | discriminate ].
       intros H. injection H as <- Hctx. right.
       split; [ | exact Hy ].
       split; [ exact Hctx | ]. exists e. split; [ exact He | now left ]. }
  destruct fr as [resp | | | | | ]; try discriminate.
  destruct (negb (isSome (frames.attach_Source resp))
            && negb (isSome (frames.attach_Target resp))) eqn:Hst.
  { apply andb_prop in Hst. destruct Hst as [Hsrc Htgt].
    destruct (frames.attach_Source resp) eqn:Es; [ discriminate | ].
    destruct (frames.attach_Target resp) eqn:Et; [ discriminate | ].
    destruct (secondWait env) as [fr | e | e] eqn:Hsecond;
      try discriminate.
    - destruct fr as [ | | | d | | ]; try discriminate.
      destruct (frames.pd_Error d); discriminate.
    - destruct (isContextErr e) eqn:He; [ | discriminate ].
      intros H. injection H as <- Hctx. right.
      split; [ | exact Hy ].
      split; [ exact Hctx | ]. exists e. split; [ exact He | ].
      right. exists resp. repeat split; assumption. }
  assert (Hterm : isSome (frames.attach_Source resp)
                  || isSome (frames.attach_Target resp) = true)
    by (destruct (frames.attach_Source resp),
                 (frames.attach_Target resp); auto; discriminate).
  match goal with
  | |- context [setSettleModes _ _ ?y resp] =>
      pose proof (maxMessageSize_setSettleModes y resp) as Hs;
      destruct (setSettleModes receiverSettleModeValue senderSettleModeValue
                               y resp) as [z [err | ]]
  end; [ discriminate | ].
  intros H. injection H as <-. left. exists resp.
  split; [ reflexivity | split; [ exact Hterm | ] ].
  cbn [fst] in Hs. rewrite Hs, Hafter.
  cbn [session set_session maxMessageSize].
  destruct ((maxMessageSize y0 =? 0)
            || (frames.attach_MaxMessageSize resp <? maxMessageSize y0))
    eqn:Hc; rewrite Hy in Hc.
  - cbn [maxMessageSize set_maxMessageSize].
    destruct (maxMessageSize x =? 0) eqn:H0; [ reflexivity | ].
    simpl in Hc. apply Z.ltb_lt in Hc. lia.
  - cbn [maxMessageSize set_session]. rewrite Hy.
    apply orb_false_elim in Hc. destruct Hc as [H0 H1].
    rewrite H0. apply Z.ltb_ge in H1. lia.
Qed.

Lemma Sender_attach_maxMessageSize (env : attachEnv) (s s' : Sender) :
  Sender_attach receiverSettleModeValue senderSettleModeValue muxClose env s
  = (s', None) ->
  (exists resp,
     firstWait env = Received (frames.FrameAttach resp)
     /\ isSome (frames.attach_Source resp)
        || isSome (frames.attach_Target resp) = true
     /\ maxMessageSize (l s')
        = if maxMessageSize (l s) =? 0
          then frames.attach_MaxMessageSize resp
          else Z.min (maxMessageSize (l s))
                     (frames.attach_MaxMessageSize resp))
  \/ (unanswered env /\ maxMessageSize (l s') = maxMessageSize (l s)).
Proof.
  unfold Sender_attach.
  destruct (link_attach _ _ _ env (l s) _ _) as [x [err | ]] eqn:Hx;
    [ discriminate | ].
  intros H. injection H as <-.
  apply (link_attach_maxMessageSize env (l s) x _ _
           maxMessageSize_afterAttach Hx).
Qed.

End MaxMessageSize.

(** ** The loop of send *)

Lemma Bytes_nil (wr : Buffer) : buffer.Len wr <= 0 -> buffer.Bytes wr = [].
Proof.
  unfold buffer.Len, buffer.Bytes, len. intros H.
  apply skipn_all2. lia.
Qed.

Lemma Len_Bytes (wr : Buffer) :
  buffer.Len wr > 0 -> buffer.Len wr = len (buffer.Bytes wr).
Proof.
  unfold buffer.Len, buffer.Bytes, len. intros H.
  rewrite length_skipn. lia.
Qed.

Lemma Next_neg (wr : Buffer) (n : Z) :
  buffer.Len wr > 0 -> n < 0 -> buffer.Next wr n = None.
Proof.
  unfold buffer.Len, buffer.Next, len. intros HL Hn.
  destruct (Z.gtb_spec (Z.of_nat (buffer.i wr) + n)
                       (Z.of_nat (length (buffer.b wr)))); [ lia | ].
  destruct (Z.ltb_spec n 0); [ reflexivity | lia ].
Qed.

Lemma Next_zero (wr : Buffer) :
  buffer.Len wr > 0 -> buffer.Next wr 0 = Some ([], true, wr).
Proof.
  unfold buffer.Len, buffer.Next, len. intros HL.
  destruct (Z.gtb_spec (Z.of_nat (buffer.i wr) + 0)
                       (Z.of_nat (length (buffer.b wr)))); [ lia | ].
  simpl. rewrite Nat.add_0_r. destruct wr; reflexivity.
Qed.

Lemma Next_pos (wr : Buffer) (n : Z) :
  buffer.Len wr > 0 -> 0 < n ->
  exists ok rest,
    buffer.Next wr n
    = Some (firstn (Z.to_nat n) (buffer.Bytes wr), ok, rest)
    /\ buffer.Bytes rest = skipn (Z.to_nat n) (buffer.Bytes wr)
    /\ buffer.Len rest = len (buffer.Bytes rest).
Proof.
  unfold buffer.Len, buffer.Next, buffer.Bytes, len. intros HL Hn.
  destruct (Z.gtb_spec (Z.of_nat (buffer.i wr) + n)
                       (Z.of_nat (length (buffer.b wr)))) as [Hgt | Hle].
  - exists false, (buffer.mk (buffer.b wr) (length (buffer.b wr))).
    simpl. rewrite skipn_all. repeat split.
    + rewrite firstn_all2; [ reflexivity | ].
      rewrite length_skipn. lia.
    + symmetry. apply skipn_all2. rewrite length_skipn. lia.
    + simpl. lia.
  - destruct (Z.ltb_spec n 0); [ lia | ].
    exists true, (buffer.mk (buffer.b wr) (buffer.i wr + Z.to_nat n)).
    simpl. repeat split.
    + rewrite skipn_skipn. f_equal. lia.
    + rewrite length_skipn. lia.
Qed.

Lemma chunksFrom_nil (fuel n : nat) : chunksFrom fuel n [] = [].
Proof. destruct fuel; reflexivity. Qed.

(** The cut does not depend on the fuel once there is enough of it. *)
Lemma chunksFrom_enough (n : nat) :
  (0 < n)%nat ->
  forall fuel p, (length p <= fuel)%nat -> chunksFrom fuel n p = chunks n p.
Proof.
  intros Hn. unfold chunks.
  assert (H : forall fuel p fuel', (length p <= fuel)%nat ->
                                   (length p <= fuel')%nat ->
                                   chunksFrom fuel n p = chunksFrom fuel' n p).
  { induction fuel as [ | fuel IH ]; intros p fuel' H1 H2.
    - destruct p; [ | simpl in H1; lia ]. now rewrite !chunksFrom_nil.
    - destruct p as [ | c p ]; [ now rewrite !chunksFrom_nil | ].
      destruct fuel' as [ | fuel' ]; [ simpl in H2; lia | ].
      cbn [chunksFrom]. f_equal.
      apply IH; rewrite length_skipn; cbn [length] in *; lia. }
  intros fuel p Hp. apply H; lia.
Qed.

Lemma chunks_cons (n : nat) (p : list byte) :
  (0 < n)%nat -> p <> [] ->
  chunks n p = firstn n p :: chunks n (skipn n p).
Proof.
  intros Hn Hp. destruct p as [ | c p ]; [ congruence | ].
  unfold chunks at 1. cbn [length chunksFrom]. f_equal.
  apply chunksFrom_enough; [ exact Hn | ].
  rewrite length_skipn. cbn [length]. lia.
Qed.

Lemma chunks_nil (n : nat) : chunks n [] = [].
Proof. reflexivity. Qed.

(** The pieces put together give the payload back, and none is
    longer than [n]. *)
Lemma chunks_concat (n : nat) (p : list byte) :
  (0 < n)%nat -> concat (chunks n p) = p.
Proof.
  intros Hn.
  assert (H : forall k p, (length p <= k)%nat -> concat (chunks n p) = p).
  { induction k as [ | k IH ]; intros q Hq.
    - destruct q; [ reflexivity | simpl in Hq; lia ].
    - destruct q as [ | c q ]; [ reflexivity | ].
      rewrite chunks_cons by (auto; discriminate).
      cbn [concat]. rewrite IH.
      + apply firstn_skipn.
      + rewrite length_skipn. cbn [length] in *. lia. }
  apply (H (length p)). lia.
Qed.

Lemma chunks_bound (n : nat) (p : list byte) :
  Forall (fun c => (length c <= n)%nat) (chunks n p).
Proof.
  unfold chunks. generalize (length p) as fuel. intros fuel. revert p.
  induction fuel as [ | fuel IH ]; intros p; simpl.
  - constructor.
  - destruct p as [ | c p ]; [ constructor | ].
    constructor; [ | apply IH ].
    apply firstn_le_length.
Qed.

Lemma chunks_length (n : nat) (p : list byte) :
  (0 < n)%nat ->
  Z.of_nat (length (chunks n p))
  = (Z.of_nat (length p) + Z.of_nat n - 1) / Z.of_nat n.
Proof.
  intros Hn.
  assert (H : forall k p, (length p <= k)%nat ->
                          Z.of_nat (length (chunks n p))
                          = (Z.of_nat (length p) + Z.of_nat n - 1)
                              / Z.of_nat n).
  { induction k as [ | k IH ]; intros q Hq.
    - destruct q; [ | simpl in Hq; lia ]. simpl.
      symmetry. apply Z.div_small. lia.
    - destruct q as [ | c q ].
      + simpl. symmetry. apply Z.div_small. lia.
      + assert (Hne : c :: q <> []) by discriminate.
        assert (Hpos : (0 < length (c :: q))%nat) by (simpl; lia).
        remember (c :: q) as cq eqn:Hcq. clear Hcq c q.
        rewrite chunks_cons by auto.
        change (length (firstn n cq :: chunks n (skipn n cq)))
          with (S (length (chunks n (skipn n cq)))).
        rewrite Nat2Z.inj_succ, IH by (rewrite length_skipn; lia).
        rewrite length_skipn.
        destruct (Nat.le_gt_cases (length cq) n) as [Hle | Hgt].
        * replace (length cq - n)%nat with 0%nat by lia.
          replace ((Z.of_nat 0 + Z.of_nat n - 1) / Z.of_nat n) with 0
            by (symmetry; apply Z.div_small; lia).
          apply Z.div_unique with (r := Z.of_nat (length cq) - 1); lia.
        * rewrite Nat2Z.inj_sub by lia.
          replace (Z.of_nat (length cq) + Z.of_nat n - 1)
            with (Z.of_nat (length cq) - Z.of_nat n + Z.of_nat n - 1
                  + 1 * Z.of_nat n) by lia.
          rewrite Z.div_add by lia. lia. }
  apply (H (length p)). lia.
Qed.

Lemma sendLoop_last (fuel : nat) (sel : nat -> sendSelect) (n : nat)
      (max : Z) (settled : bool) (s : Sender) (fr : frames.PerformTransfer) :
  frames.More fr = false ->
  sendLoop fuel sel n max settled s fr = (s, Some (frames.Done fr, None)).
Proof. intros H. destruct fuel; simpl; rewrite H; reflexivity. Qed.

(** With nothing to cut off ([maxPayloadSize] is zero) the loop never
    comes to an end: no amount of fuel makes it return success. *)
Lemma sendLoop_zero_never (sel : nat -> sendSelect) (settled : bool) :
  forall fuel n s fr s',
    frames.More fr = true -> buffer.Len (buf s) > 0 ->
    sendLoop fuel sel n 0 settled s fr <> (s', Some (true, None)).
Proof.
  induction fuel as [ | fuel IH ]; intros n s fr s' Hmore Hlen;
    simpl; rewrite Hmore; simpl negb; cbv iota.
  - discriminate.
  - rewrite (Next_zero _ Hlen).
    cbn [buf set_buf].
    destruct (Z.gtb_spec (buffer.Len (buf s)) 0) as [_ | Hle]; [ | lia ].
    destruct (sel n); try discriminate.
    apply IH; [ reflexivity | exact Hlen ].
Qed.

Lemma sendLoop_accepted (sel : nat -> sendSelect) (max : Z) (settled : bool) :
  0 < max ->
  forall fuel n s fr s',
    frames.More fr = (buffer.Len (buf s) >? 0) ->
    sendLoop fuel sel n max settled s fr = (s', Some (true, None)) ->
    exists frs,
      transfers s' = transfers s ++ frs
      /\ l s' = l s
      /\ nextDeliveryTag s' = nextDeliveryTag s
      /\ map frames.Payload frs
         = chunks (Z.to_nat max) (buffer.Bytes (buf s))
      /\ (forall k f, nth_error frs k = Some f ->
                      frameOf fr settled k (length frs) f)
      /\ (forall k, sel (n + k)%nat <> transferTaken ->
                    (length frs <= k)%nat).
Proof.
  intros Hmax.
  induction fuel as [ | fuel IH ]; intros n s fr s' Hmore Hrun.
  - simpl in Hrun. destruct (frames.More fr) eqn:Hm; [ discriminate | ].
    injection Hrun as <- _. exists [].
    rewrite app_nil_r, Bytes_nil
      by (symmetry in Hmore; destruct (Z.gtb_spec (buffer.Len (buf s)) 0);
          [ discriminate | lia ]).
    split; [ reflexivity | ]. split; [ reflexivity | ].
    split; [ reflexivity | ]. split; [ reflexivity | ]. split.
    + intros k f Hf. destruct k; discriminate.
    + intros k _. simpl. lia.
  - destruct (frames.More fr) eqn:Hm.
    2:{ rewrite sendLoop_last in Hrun by exact Hm.
        injection Hrun as <- _. exists [].
        rewrite app_nil_r, Bytes_nil
          by (symmetry in Hmore; destruct (Z.gtb_spec (buffer.Len (buf s)) 0);
              [ discriminate | lia ]).
        split; [ reflexivity | ]. split; [ reflexivity | ].
        split; [ reflexivity | ]. split; [ reflexivity | ]. split.
        - intros k f Hf. destruct k; discriminate.
        - intros k _. simpl. lia. }
    assert (Hlen : buffer.Len (buf s) > 0)
      by (symmetry in Hmore; destruct (Z.gtb_spec (buffer.Len (buf s)) 0);
          [ lia | discriminate ]).
    destruct (Next_pos (buf s) max Hlen Hmax)
      as [ok [rest [Hnext [Hrest Hrlen]]]].
    simpl in Hrun. rewrite Hm, Hnext in Hrun. simpl negb in Hrun.
    cbv iota in Hrun. cbn [buf set_buf] in Hrun.
    destruct (sel n) eqn:Hsel; try discriminate.
    match type of Hrun with
    | sendLoop _ _ _ _ _ ?s2 ?fr2 = _ =>
        destruct (IH (S n) s2 fr2 s') as
          [frs [Htr [Hl [Htag [Hpay [Hfr Hsel']]]]]];
        [ reflexivity | exact Hrun | ]
    end.
    cbn [transfers set_transfers set_buf buf l nextDeliveryTag] in *.
    set (more := buffer.Len rest >? 0) in *.
    set (fr1 := frames.mkTransfer
                  (frames.Handle fr) (frames.DeliveryID fr)
                  (frames.DeliveryTag fr) (frames.MessageFormat fr)
                  (if more then frames.Settled fr else settled) more
                  (frames.transfer_ReceiverSettleMode fr) (frames.State fr)
                  (frames.Resume fr) (frames.Aborted fr)
                  (frames.Batchable fr)
                  (firstn (Z.to_nat max) (buffer.Bytes (buf s)))
                  (if more then frames.Done fr else true)) in *.
    assert (Hne : buffer.Bytes (buf s) <> []).
    { intros E. rewrite (Len_Bytes _ Hlen), E in Hlen.
      unfold len in Hlen. simpl in Hlen. lia. }
    assert (Hcount : more = (0 <? length frs)%nat).
    { rewrite <- (length_map frames.Payload frs), Hpay.
      unfold more. destruct (Z.gtb_spec (buffer.Len rest) 0) as [Hp | Hz].
      - rewrite chunks_cons; [ reflexivity | lia | ].
        intros E. rewrite Hrlen, E in Hp. unfold len in Hp. simpl in Hp. lia.
      - rewrite Bytes_nil by lia. reflexivity. }
    exists (fr1 :: frs). split; [ | split; [ | split; [ | split; [ | split ]]]].
    + rewrite Htr, <- app_assoc. reflexivity.
    + exact Hl.
    + exact Htag.
    + cbn [map]. rewrite Hpay, Hrest.
      rewrite (chunks_cons (Z.to_nat max) (buffer.Bytes (buf s)))
        by (auto; lia).
      reflexivity.
    + intros k f Hf. destruct k as [ | k ].
      * injection Hf as <-. unfold frameOf, fr1.
        cbn [frames.More frames.Handle frames.DeliveryID frames.DeliveryTag
             frames.MessageFormat frames.Settled frames.Done length].
        repeat split; try reflexivity; try congruence.
        exact Hcount.
      * simpl in Hf. destruct (Hfr k f Hf)
          as [H1 [H2 [H3 [H4 [H5 H6]]]]].
        cbn [frames.More frames.Handle frames.DeliveryID frames.DeliveryTag
             frames.MessageFormat frames.Settled frames.Done] in *.
        assert (Hmt : more = true).
        { rewrite Hcount. apply Nat.ltb_lt.
          assert (k < length frs)%nat
            by (apply nth_error_Some; rewrite Hf; discriminate).
          lia. }
        rewrite Hmt in *.
        unfold frameOf. cbn [length].
        split; [ exact H1 | ]. split; [ exact H2 | ].
        split; [ intros E; discriminate | ].
        split.
        { intros _. destruct k as [ | k ].
          - apply H3. reflexivity.
          - apply H4. discriminate. }
        split; assumption.
    + intros k Hk. destruct k as [ | k ].
      * rewrite Nat.add_0_r in Hk. congruence.
      * cbn [length]. apply le_n_S. apply Hsel'.
        replace (S n + k)%nat with (n + S k)%nat by lia. exact Hk.
Qed.

Lemma Uint64_PutUint64 (v : Z) :
  0 <= v < 2 ^ 64 -> binary.Uint64 (binary.PutUint64 v) = Some v.
Proof.
  intros Hv. unfold binary.PutUint64, binary.Uint64. f_equal.
  pose proof (to_byte_range (Z.shiftr v 56)) as H0.
  pose proof (to_byte_range (Z.shiftr v 48)) as H1.
  pose proof (to_byte_range (Z.shiftr v 40)) as H2.
  pose proof (to_byte_range (Z.shiftr v 32)) as H3.
  pose proof (to_byte_range (Z.shiftr v 24)) as H4.
  pose proof (to_byte_range (Z.shiftr v 16)) as H5.
  pose proof (to_byte_range (Z.shiftr v 8)) as H6.
  pose proof (to_byte_range v) as H7.
  assert (E : to_byte (Z.shiftr v 56) * 2 ^ 56
              + to_byte (Z.shiftr v 48) * 2 ^ 48
              + to_byte (Z.shiftr v 40) * 2 ^ 40
              + to_byte (Z.shiftr v 32) * 2 ^ 32
              + to_byte (Z.shiftr v 24) * 2 ^ 24
              + to_byte (Z.shiftr v 16) * 2 ^ 16
              + to_byte (Z.shiftr v 8) * 2 ^ 8
              + to_byte v = v).
  { unfold to_byte. rewrite !Z.shiftr_div_pow2 by lia.
    Z.div_mod_to_equations. lia. }
  remember (to_byte (Z.shiftr v 56)) as b0 eqn:E0. clear E0.
  remember (to_byte (Z.shiftr v 48)) as b1 eqn:E1. clear E1.
  remember (to_byte (Z.shiftr v 40)) as b2 eqn:E2. clear E2.
  remember (to_byte (Z.shiftr v 32)) as b3 eqn:E3. clear E3.
  remember (to_byte (Z.shiftr v 24)) as b4 eqn:E4. clear E4.
  remember (to_byte (Z.shiftr v 16)) as b5 eqn:E5. clear E5.
  remember (to_byte (Z.shiftr v 8)) as b6 eqn:E6. clear E6.
  remember (to_byte v) as b7 eqn:E7. clear E7.
  rewrite !Z.shiftl_mul_pow2 by lia.
  lor_to_add 56. lor_to_add 48. lor_to_add 40. lor_to_add 32.
  lor_to_add 24. lor_to_add 16. lor_to_add 8.
  exact E.
Qed.

(** Whatever way the loop ends, it leaves the tag counter alone and
    the first frame it hands over, if any, carries the delivery-tag of
    the frame it started from. *)
Lemma sendLoop_general (sel : nat -> sendSelect) (max : Z) (settled : bool) :
  forall fuel n s fr s' r,
    sendLoop fuel sel n max settled s fr = (s', r) ->
    nextDeliveryTag s' = nextDeliveryTag s
    /\ exists frs,
         transfers s' = transfers s ++ frs
         /\ forall f rest, frs = f :: rest ->
                           frames.DeliveryTag f = frames.DeliveryTag fr.
Proof.
  induction fuel as [ | fuel IH ]; intros n s fr s' r Hrun; simpl in Hrun.
  - destruct (negb (frames.More fr)); injection Hrun as <- <-;
      (split; [ reflexivity | exists []; split;
                              [ now rewrite app_nil_r | discriminate ] ]).
  - destruct (negb (frames.More fr)).
    { injection Hrun as <- <-.
      split; [ reflexivity | exists []; split;
                             [ now rewrite app_nil_r | discriminate ] ]. }
    destruct (buffer.Next (buf s) max) as [[[p ok] rest] | ].
    2:{ injection Hrun as <- <-.
        split; [ reflexivity | exists []; split;
                               [ now rewrite app_nil_r | discriminate ] ]. }
    destruct (sel n).
    + apply IH in Hrun. destruct Hrun as [Htag [frs [Htr Hfirst]]].
      cbn [nextDeliveryTag transfers set_transfers set_buf] in *.
      split; [ exact Htag | ].
      eexists (_ :: frs). split.
      * rewrite Htr, <- app_assoc. reflexivity.
      * intros f rest' E. injection E as <- _. reflexivity.
    + injection Hrun as <- <-.
      split; [ reflexivity | exists []; split;
                             [ now rewrite app_nil_r | discriminate ] ].
    + injection Hrun as <- <-.
      split; [ reflexivity | exists []; split;
                             [ now rewrite app_nil_r | discriminate ] ].
Qed.

(** An error out of the loop is a panic of [Next] or an error the
    environment handed in. *)
Lemma sendLoop_error (sel : nat -> sendSelect) (max : Z) (settled : bool) :
  forall fuel n s fr s' ch e,
    sendLoop fuel sel n max settled s fr = (s', Some (ch, Some e)) ->
    e = Panic "slice bounds out of range"
    \/ exists k, sel k = linkDone (Some e) \/ sel k = ctxDone e.
Proof.
  induction fuel as [ | fuel IH ]; intros n s fr s' ch e Hrun; simpl in Hrun.
  - destruct (negb (frames.More fr)); discriminate.
  - destruct (negb (frames.More fr)); [ discriminate | ].
    destruct (buffer.Next (buf s) max) as [[[p ok] rest] | ].
    2:{ injection Hrun as _ _ <-. now left. }
    destruct (sel n) as [ | d | err ] eqn:Hsel.
    + apply IH in Hrun. exact Hrun.
    + injection Hrun as _ _ Hd. cbn in Hd. subst d.
      right. exists n. now left.
    + injection Hrun as _ _ <-. right. exists n. now right.
Qed.

(** Enough fuel: when every frame is taken and the frames can carry
    at least one byte each, the loop returns, with the completion
    channel of its last frame. *)
Lemma sendLoop_returns (max : Z) (settled : bool) :
  0 < max ->
  forall fuel n s fr,
    frames.More fr = (buffer.Len (buf s) >? 0) ->
    buffer.Len (buf s) <= Z.of_nat fuel * max ->
    exists s',
      sendLoop fuel allTaken n max settled s fr
      = (s', Some (frames.More fr || frames.Done fr, None)).
Proof.
  intros Hmax.
  induction fuel as [ | fuel IH ]; intros n s fr Hmore Hfuel.
  - assert (Hm : frames.More fr = false).
    { rewrite Hmore. destruct (Z.gtb_spec (buffer.Len (buf s)) 0);
        [ lia | reflexivity ]. }
    exists s. rewrite sendLoop_last by exact Hm. rewrite Hm. reflexivity.
  - destruct (frames.More fr) eqn:Hm.
    2:{ exists s. rewrite sendLoop_last by exact Hm. reflexivity. }
    assert (Hlen : buffer.Len (buf s) > 0)
      by (symmetry in Hmore; destruct (Z.gtb_spec (buffer.Len (buf s)) 0);
          [ lia | discriminate ]).
    destruct (Next_pos (buf s) max Hlen Hmax)
      as [ok [rest [Hnext [Hrest Hrlen]]]].
    simpl. rewrite Hm, Hnext. simpl negb. cbv iota.
    cbn [buf set_buf].
    match goal with
    | |- exists s', sendLoop _ _ _ _ _ ?s2 ?fr2 = _ =>
        destruct (IH (S n) s2 fr2) as [s' Hs']
    end.
    + reflexivity.
    + cbn [buf set_buf set_transfers]. rewrite Hrlen, Hrest.
      unfold len. rewrite length_skipn.
      rewrite (Len_Bytes _ Hlen) in Hfuel. unfold len in Hfuel. lia.
    + exists s'. rewrite Hs'.
      cbn [frames.More frames.Done].
      destruct (buffer.Len rest >? 0); reflexivity.
Qed.

(** With frames that can carry no byte the loop never hands a whole
    message over. *)
Lemma sendLoop_nonpos_never (sel : nat -> sendSelect) (max : Z)
      (settled : bool) :
  max <= 0 ->
  forall fuel n s fr s',
    frames.More fr = (buffer.Len (buf s) >? 0) ->
    frames.Done fr = false ->
    sendLoop fuel sel n max settled s fr <> (s', Some (true, None)).
Proof.
  intros Hmax fuel n s fr s' Hmore Hdone.
  destruct (frames.More fr) eqn:Hm.
  - assert (Hlen : buffer.Len (buf s) > 0)
      by (symmetry in Hmore; destruct (Z.gtb_spec (buffer.Len (buf s)) 0);
          [ lia | discriminate ]).
    destruct (Z.eq_dec max 0) as [-> | Hneg].
    + now apply sendLoop_zero_never.
    + destruct fuel as [ | fuel ]; simpl; rewrite Hm; simpl negb; cbv iota.
      * discriminate.
      * rewrite Next_neg by lia. discriminate.
  - rewrite sendLoop_last by exact Hm. rewrite Hdone. discriminate.
Qed.

Section Send.

Variable Marshal : Message -> Buffer -> Buffer * option error.

(** The transfers of an accepted message. *)
Lemma send_accepted (fuel : nat) (sel : nat -> sendSelect)
      (s s' : Sender) (msg : Message) :
  send Marshal fuel sel s msg = (s', Some (true, None)) ->
  let marshaled := buffer.Bytes (fst (Marshal msg (buffer.Reset (buf s)))) in
  let maxPayloadSize :=
    peerMaxFrameSize (session_conn (session (l s))) - 66 in
  exists frs,
    transfers s' = transfers s ++ frs
    /\ concat (map frames.Payload frs) = marshaled
    /\ map frames.Payload frs = chunks (Z.to_nat maxPayloadSize) marshaled
    /\ Forall (fun f => len (frames.Payload f) <= maxPayloadSize) frs
    /\ forall k f, nth_error frs k = Some f ->
         (frames.More f = true <-> (S k < length frs)%nat)
         /\ (k = 0%nat ->
             frames.DeliveryID f = Some needsDeliveryID
             /\ frames.DeliveryTag f = deliveryTagOf s msg
             /\ frames.MessageFormat f = Some (Format msg))
         /\ (k <> 0%nat ->
             frames.DeliveryID f = None
             /\ frames.DeliveryTag f = []
             /\ frames.MessageFormat f = None).
Proof.
  intros Hsend. cbv zeta. unfold send in Hsend.
  destruct (len (DeliveryTag msg) >? maxDeliveryTagLength);
    [ discriminate | ].
  destruct (Marshal msg (buffer.Reset (buf s))) as [b [err | ]] eqn:HM;
    [ discriminate | ].
  cbn [buf set_buf l fst] in *.
  destruct (negb (maxMessageSize (l s) =? 0)
            && (buffer.Len b >? maxMessageSize (l s)));
    [ discriminate | ].
  change maxTransferFrameHeader with 66 in Hsend.
  set (max := peerMaxFrameSize (session_conn (session (l s))) - 66) in *.
  assert (Hrun : exists s0 fr0,
             sendLoop fuel sel 0 max
               match senderSettleMode (l s) with
               | Some m =>
                   SenderSettleMode_eqb m SenderSettleModeSettled
                   || SenderSettleMode_eqb m SenderSettleModeMixed
                      && SendSettled msg
               | None => false
               end s0 fr0 = (s', Some (true, None))
             /\ buf s0 = b /\ transfers s0 = transfers s
             /\ frames.More fr0 = (buffer.Len (buf s0) >? 0)
             /\ frames.Done fr0 = false
             /\ frames.DeliveryID fr0 = Some needsDeliveryID
             /\ frames.DeliveryTag fr0 = deliveryTagOf s msg
             /\ frames.MessageFormat fr0 = Some (Format msg)).
  { unfold deliveryTagOf. destruct (len (DeliveryTag msg) =? 0);
      cbn [l set_buf set_nextDeliveryTag buf] in Hsend;
      eexists; eexists; (split; [ exact Hsend | ]);
      repeat split. }
  clear Hsend.
  destruct Hrun as [s0 [fr0 [Hrun [Hb [Htr [Hm [Hd [H1 [H2 H3]]]]]]]]].
  destruct (Z.lt_ge_cases 0 max) as [Hpos | Hnonpos].
  2:{ exfalso. revert Hrun. apply sendLoop_nonpos_never; auto; lia. }
  destruct (sendLoop_accepted sel max _ Hpos fuel 0%nat s0 fr0 s' Hm Hrun)
    as [frs [Htrs [_ [_ [Hpay [Hfr _]]]]]].
  rewrite Hb in Hpay. exists frs.
  split; [ now rewrite Htrs, Htr | ].
  split; [ rewrite Hpay; apply chunks_concat; lia | ].
  split; [ exact Hpay | ].
  split.
  - pose proof (chunks_bound (Z.to_nat max) (buffer.Bytes b)) as Hbound.
    rewrite <- Hpay in Hbound. rewrite Forall_map in Hbound.
    eapply Forall_impl; [ | exact Hbound ].
    intros f Hf. unfold len. cbv beta in Hf. lia.
  - intros k f Hf. destruct (Hfr k f Hf) as [Hmore [_ [Hfirst [Hnext _]]]].
    split; [ | split ].
    + rewrite Hmore. apply Nat.ltb_lt.
    + intros Hk. rewrite <- H1, <- H2, <- H3. now apply Hfirst.
    + exact Hnext.
Qed.

(** C2: when [send] accepts a message (it returns the completion
    channel and no error), the bytes of the marshaled message have
    been cut into successive chunks of at most peerMaxFrameSize - 66
    bytes, one transfer has been put on the channel per chunk, in
    order, with More set on every transfer but the last, and
    DeliveryID, DeliveryTag and MessageFormat set on the first
    transfer and nil on every other one. *)
Theorem send_transfers (fuel : nat) (sel : nat -> sendSelect)
        (s s' : Sender) (msg : Message) :
  send Marshal fuel sel s msg = (s', Some (true, None)) ->
  let marshaled := buffer.Bytes (fst (Marshal msg (buffer.Reset (buf s)))) in
  let maxPayloadSize :=
    peerMaxFrameSize (session_conn (session (l s))) - 66 in
  exists frs,
    transfers s' = transfers s ++ frs
    /\ concat (map frames.Payload frs) = marshaled
    /\ map frames.Payload frs = chunks (Z.to_nat maxPayloadSize) marshaled
    /\ Forall (fun f => len (frames.Payload f) <= maxPayloadSize) frs
    /\ forall k f, nth_error frs k = Some f ->
         (frames.More f = true <-> (S k < length frs)%nat)
         /\ (k = 0%nat ->
             frames.DeliveryID f = Some needsDeliveryID
             /\ frames.DeliveryTag f = deliveryTagOf s msg
             /\ frames.MessageFormat f = Some (Format msg))
         /\ (k <> 0%nat ->
             frames.DeliveryID f = None
             /\ frames.DeliveryTag f = []
             /\ frames.MessageFormat f = None).
Proof. exact (send_accepted fuel sel s s' msg). Qed.

End Send.

Lemma send_transfers_witness :
  exists frs,
    transfers (fst (send Message_Marshal 3 allTaken (exampleSender 70 0)
                         (NewMessage hello)))
    = frs
    /\ map frames.Payload frs
       = [[0; 83; 117; 160]; [5; 104; 101; 108]; [108; 111]]
    /\ map frames.More frs = [true; true; false].
Proof.
  destruct (send_transfers Message_Marshal 3 allTaken (exampleSender 70 0)
              (fst (send Message_Marshal 3 allTaken (exampleSender 70 0)
                         (NewMessage hello)))
              (NewMessage hello) ltac:(vm_compute; reflexivity))
    as [frs [Htr _]].
  exists frs. split; [ exact Htr | ].
  vm_compute in Htr. subst frs. split; reflexivity.
Defined.

Section SendSteps.

Variable Marshal : Message -> Buffer -> Buffer * option error.

(** Past its three checks [send] is its loop. *)
Lemma send_reaches_loop (fuel : nat) (sel : nat -> sendSelect)
      (s : Sender) (msg : Message) (b : Buffer) :
  len (DeliveryTag msg) <= 32 ->
  Marshal msg (buffer.Reset (buf s)) = (b, None) ->
  maxMessageSize (l s) = 0 \/ buffer.Len b <= maxMessageSize (l s) ->
  send Marshal fuel sel s msg
  = sendLoop fuel sel 0
             (peerMaxFrameSize (session_conn (session (l s))) - 66)
             (settledFor s msg) (senderAtLoop s msg b)
             (firstTransfer s msg b).
Proof.
  intros Htag HM Hsize. unfold send. rewrite HM.
  destruct (Z.gtb_spec (len (DeliveryTag msg)) maxDeliveryTagLength)
    as [Hgt | _]; [ unfold maxDeliveryTagLength in Hgt; lia | ].
  cbn [buf set_buf l].
  replace (negb (maxMessageSize (l s) =? 0)
           && (buffer.Len b >? maxMessageSize (l s))) with false.
  2:{ symmetry. destruct Hsize as [-> | Hle]; [ reflexivity | ].
      destruct (Z.gtb_spec (buffer.Len b) (maxMessageSize (l s)));
        [ lia | apply andb_false_r ]. }
  unfold senderAtLoop, firstTransfer, settledFor, deliveryTagOf.
  destruct (len (DeliveryTag msg) =? 0); reflexivity.
Qed.

(** The size check of [send]. *)
Lemma send_too_large (fuel : nat) (sel : nat -> sendSelect)
      (s : Sender) (msg : Message) (b : Buffer) :
  len (DeliveryTag msg) <= 32 ->
  Marshal msg (buffer.Reset (buf s)) = (b, None) ->
  maxMessageSize (l s) <> 0 -> buffer.Len b > maxMessageSize (l s) ->
  send Marshal fuel sel s msg
  = (set_buf s b, Some (false, Some (errMessageSize (maxMessageSize (l s))))).
Proof.
  intros Htag HM Hnz Hgt. unfold send. rewrite HM.
  destruct (Z.gtb_spec (len (DeliveryTag msg)) maxDeliveryTagLength)
    as [Hgt' | _]; [ unfold maxDeliveryTagLength in Hgt'; lia | ].
  cbn [buf set_buf l].
  destruct (Z.eqb_spec (maxMessageSize (l s)) 0) as [E | _]; [ lia | ].
  destruct (Z.gtb_spec (buffer.Len b) (maxMessageSize (l s)));
    [ reflexivity | lia ].
Qed.

(** C9: a delivery-tag longer than 32 bytes makes [send] return an
    error at once: the sender is left as it was, nothing has been
    marshaled and no transfer handed over.  When the caller gives no
    delivery-tag and the message passes the checks, the first transfer
    carries the eight big-endian bytes of the sender's counter and the
    counter has advanced by exactly one (modulo 2^64), so that
    successive tags increase. *)
Theorem send_deliveryTag (fuel : nat) (sel : nat -> sendSelect)
        (s : Sender) (msg : Message) :
  (len (DeliveryTag msg) > 32 ->
   send Marshal fuel sel s msg
   = (s, Some (false, Some (errDeliveryTag (len (DeliveryTag msg))))))
  /\
  (DeliveryTag msg = [] ->
   forall b s' r,
     Marshal msg (buffer.Reset (buf s)) = (b, None) ->
     maxMessageSize (l s) = 0 \/ buffer.Len b <= maxMessageSize (l s) ->
     send Marshal fuel sel s msg = (s', r) ->
     nextDeliveryTag s' = (nextDeliveryTag s + 1) mod 2 ^ 64
     /\ (exists frs,
           transfers s' = transfers s ++ frs
           /\ forall f rest, frs = f :: rest ->
                frames.DeliveryTag f = binary.PutUint64 (nextDeliveryTag s)
                /\ length (frames.DeliveryTag f) = 8%nat)
     /\ (0 <= nextDeliveryTag s < 2 ^ 64 ->
         binary.Uint64 (binary.PutUint64 (nextDeliveryTag s))
         = Some (nextDeliveryTag s))
     /\ (0 <= nextDeliveryTag s < 2 ^ 64 - 1 ->
         nextDeliveryTag s' = nextDeliveryTag s + 1)).
Proof.
  split.
  - intros Hlong. unfold send.
    destruct (Z.gtb_spec (len (DeliveryTag msg)) maxDeliveryTagLength)
      as [_ | Hle]; [ reflexivity | unfold maxDeliveryTagLength in Hle; lia ].
  - intros Hnil b s' r HM Hsize Hsend.
    rewrite (send_reaches_loop fuel sel s msg b) in Hsend;
      [ | rewrite Hnil; unfold len; simpl; lia | exact HM | exact Hsize ].
    destruct (sendLoop_general _ _ _ _ _ _ _ _ _ Hsend)
      as [Hcount [frs [Htr Hfirst]]].
    unfold senderAtLoop, firstTransfer, deliveryTagOf in *.
    rewrite Hnil in *. change (len (@nil Z) =? 0) with true in *.
    cbv iota in *.
    cbn [nextDeliveryTag set_nextDeliveryTag set_buf transfers
         frames.DeliveryTag] in *.
    split; [ exact Hcount | ].
    split; [ | split ].
    + exists frs. split; [ exact Htr | ].
      intros f rest E. rewrite (Hfirst f rest E). split; reflexivity.
    + apply Uint64_PutUint64.
    + intros Hr. rewrite Hcount. unfold to_uint64.
      apply Z.mod_small. lia.
Qed.

End SendSteps.

Lemma send_deliveryTag_witness :
  send Message_Marshal 3 allTaken (exampleSender 512 0)
       (mkMessage (repeat 1 33) 0 false [hello])
  = (exampleSender 512 0, Some (false, Some (errDeliveryTag 33)))
  /\ nextDeliveryTag
       (fst (send Message_Marshal 3 allTaken (exampleSender 512 0)
                  (NewMessage hello)))
     = 1.
Proof.
  split.
  - apply (proj1 (send_deliveryTag Message_Marshal 3 allTaken
                    (exampleSender 512 0)
                    (mkMessage (repeat 1 33) 0 false [hello]))).
    vm_compute. reflexivity.
  - refine (proj1 (proj2 (send_deliveryTag Message_Marshal 3 allTaken
                            (exampleSender 512 0) (NewMessage hello))
                         eq_refl _ _ _ eq_refl _ _)).
    + left. reflexivity.
    + reflexivity.
Defined.

(** ** The multi-transfer scenario *)

(** A message made of one data section of 512 bytes marshals to 520
    bytes: the descriptor, the vbin32 format code, the length and the
    data. *)
Lemma Message_Marshal_512 (data : list byte) (wr : Buffer) :
  length data = 512%nat ->
  Message_Marshal (NewMessage data) wr
  = (buffer.Write wr ([0; typeCodeSmallUlong; typeCodeApplicationData;
                       typeCodeVbin32; 0; 0; 2; 0] ++ data), None).
Proof.
  intros Hlen. unfold Message_Marshal, NewMessage. cbn [Data marshalData].
  unfold writeBinary, len. rewrite Hlen.
  change (Z.of_nat 512 <? 256) with false.
  change (Z.of_nat 512 <? MaxUint32) with true. cbv iota.
  unfold writeDescriptor, buffer.WriteUint32, buffer.WriteByte.
  rewrite !Write_Write. reflexivity.
Qed.

(** C3, as the code has it: when the peer advertises max-frame-size
    128 and a message whose payload is 512 bytes is sent, the sender
    emits exactly 9 transfers, with delivery-id present only on the
    first, more=true on the first eight and more=false on the last. *)
Theorem send_512_bytes (s : Sender) (data : list byte) (fuel : nat) :
  peerMaxFrameSize (session_conn (session (l s))) = 128 ->
  length data = 512%nat ->
  maxMessageSize (l s) = 0 ->
  (9 <= fuel)%nat ->
  exists s' frs,
    send Message_Marshal fuel allTaken s (NewMessage data)
    = (s', Some (true, None))
    /\ transfers s' = transfers s ++ frs
    /\ length frs = 9%nat
    /\ forall k f, nth_error frs k = Some f ->
         (frames.DeliveryID f <> None <-> k = 0%nat)
         /\ (frames.More f = true <-> (k < 8)%nat)
         /\ (k = 8%nat -> frames.More f = false).
Proof.
  intros Hpeer Hdata Hmax Hfuel.
  pose proof (Message_Marshal_512 data (buffer.Reset (buf s)) Hdata) as HM.
  set (b := buffer.Write (buffer.Reset (buf s))
              ([0; typeCodeSmallUlong; typeCodeApplicationData;
                typeCodeVbin32; 0; 0; 2; 0] ++ data)) in *.
  assert (Hb : buffer.Len b = 520).
  { unfold b, buffer.Len, len. simpl. rewrite Hdata. reflexivity. }
  assert (Hbytes : length (buffer.Bytes b) = 520%nat).
  { unfold b, buffer.Bytes. simpl. rewrite Hdata. reflexivity. }
  assert (Hloop : send Message_Marshal fuel allTaken s (NewMessage data)
                  = sendLoop fuel allTaken 0 62
                             (settledFor s (NewMessage data))
                             (senderAtLoop s (NewMessage data) b)
                             (firstTransfer s (NewMessage data) b)).
  { rewrite (send_reaches_loop Message_Marshal fuel allTaken s
               (NewMessage data) b);
      [ rewrite Hpeer; reflexivity | simpl; unfold len; simpl; lia
      | exact HM | left; exact Hmax ]. }
  destruct (sendLoop_returns 62 (settledFor s (NewMessage data))
              ltac:(lia) fuel 0%nat
              (senderAtLoop s (NewMessage data) b)
              (firstTransfer s (NewMessage data) b)) as [s' Hs'].
  { unfold senderAtLoop, NewMessage. simpl. reflexivity. }
  { unfold senderAtLoop, NewMessage. simpl buf. rewrite Hb. lia. }
  assert (Hfirst : frames.More (firstTransfer s (NewMessage data) b)
                   || frames.Done (firstTransfer s (NewMessage data) b)
                   = true).
  { unfold firstTransfer. cbn [frames.More]. rewrite Hb. reflexivity. }
  rewrite Hfirst in Hs'. rewrite <- Hloop in Hs'.
  destruct (send_accepted Message_Marshal fuel allTaken s s'
              (NewMessage data) Hs')
    as [frs [Htr [_ [Hpay [_ Hfr]]]]].
  rewrite HM, Hpeer in Hpay. cbn [fst] in Hpay.
  assert (Hn : length frs = 9%nat).
  { rewrite <- (length_map frames.Payload frs), Hpay.
    apply Nat2Z.inj. rewrite chunks_length by (simpl; lia).
    rewrite Hbytes. reflexivity. }
  exists s', frs. split; [ exact Hs' | ]. split; [ exact Htr | ].
  split; [ exact Hn | ].
  intros k f Hf. destruct (Hfr k f Hf) as [Hmore [H0 Hk]].
  rewrite Hn in Hmore. split; [ | split ].
  - split.
    + intros Hid. destruct k as [ | k ]; [ reflexivity | ].
      exfalso. apply Hid. apply Hk. discriminate.
    + intros ->. destruct (H0 eq_refl) as [-> _]. discriminate.
  - rewrite Hmore. lia.
  - intros ->. destruct (frames.More f); [ | reflexivity ].
    exfalso. assert (9 < 9)%nat by (apply Hmore; reflexivity). lia.
Qed.

Lemma send_512_bytes_witness :
  length (transfers (fst (send Message_Marshal 9 allTaken
                               (exampleSender 128 0)
                               (NewMessage testPayload))))
  = 9%nat.
Proof.
  destruct (send_512_bytes (exampleSender 128 0) testPayload 9
              eq_refl eq_refl eq_refl (le_n 9))
    as [s' [frs [Hsend [Htr Hn]]]].
  rewrite Hsend. cbn [fst]. rewrite Htr. exact (proj1 Hn).
Defined.

(** The claim as the specification words it (exactly 8 transfers)
    fails on the input of the repository's own test: the 512 bytes
    [i mod 256] sent to a peer whose max-frame-size is 128 leave in 9
    transfers, the eighth of which still announces more.  The same
    holds if it is the marshaled message that is 512 bytes long. *)
Lemma send_512_bytes_not_8 :
  let sent :=
    transfers (fst (send Message_Marshal 100 allTaken (exampleSender 128 0)
                         (NewMessage testPayload))) in
  let sentRaw :=
    transfers (fst (send (fun _ wr => (buffer.Write wr testPayload, None))
                         100 allTaken (exampleSender 128 0)
                         (NewMessage []))) in
  ~ (length sent = 8%nat
     /\ forall k f, nth_error sent k = Some f ->
                    (frames.More f = true <-> (k < 7)%nat))
  /\ length sent = 9%nat
  /\ ~ (length sentRaw = 8%nat)
  /\ length sentRaw = 9%nat.
Proof.
  cbv zeta.
  assert (H9 : length (transfers
                         (fst (send Message_Marshal 100 allTaken
                                    (exampleSender 128 0)
                                    (NewMessage testPayload)))) = 9%nat)
    by (vm_compute; reflexivity).
  assert (R9 : length (transfers
                         (fst (send (fun _ wr =>
                                       (buffer.Write wr testPayload, None))
                                    100 allTaken (exampleSender 128 0)
                                    (NewMessage [])))) = 9%nat)
    by (vm_compute; reflexivity).
  split; [ | split; [ exact H9 | split; [ | exact R9 ] ] ].
  - intros [H8 _]. rewrite H9 in H8. discriminate.
  - rewrite R9. discriminate.
Qed.

(** ** Maximum message size and terminated links *)

(** C5 (corrected): after a successful attach handshake, in which the
    peer answered with an Attach that names a source or a target, the
    link's maximum message size is the peer's value when the local one
    is 0 (no limit), and the numerically smaller of the local and the
    peer's value otherwise: the minimum in which 0 means unlimited as
    long as the peer's value is not 0.  An attach that returns without
    error though it went unanswered leaves the local value.  And
    [send], once the message is marshaled, fails with the message-size
    error exactly when that maximum is not 0 and the length of the
    marshaled message exceeds it: it does so then, and a message-size
    error in any other case is one the environment itself handed
    in. *)
Theorem maxMessageSize_resolved_and_enforced :
  (forall receiverSettleModeValue senderSettleModeValue muxClose
          (env : attachEnv) (s s' : Sender),
      Sender_attach receiverSettleModeValue senderSettleModeValue muxClose
                    env s = (s', None) ->
      (exists resp,
         firstWait env = Received (frames.FrameAttach resp)
         /\ isSome (frames.attach_Source resp)
            || isSome (frames.attach_Target resp) = true
         /\ maxMessageSize (l s')
            = (if maxMessageSize (l s) =? 0
               then frames.attach_MaxMessageSize resp
               else Z.min (maxMessageSize (l s))
                          (frames.attach_MaxMessageSize resp))
         /\ (frames.attach_MaxMessageSize resp <> 0 ->
             maxMessageSize (l s')
             = spec_maxMessageSize (maxMessageSize (l s))
                                   (frames.attach_MaxMessageSize resp)))
      \/ (unanswered env /\ maxMessageSize (l s') = maxMessageSize (l s)))
  /\
  (forall Marshal (fuel : nat) (sel : nat -> sendSelect)
          (s : Sender) (msg : Message) (b : Buffer),
      len (DeliveryTag msg) <= 32 ->
      Marshal msg (buffer.Reset (buf s)) = (b, None) ->
      let max := maxMessageSize (l s) in
      (max <> 0 /\ buffer.Len b > max ->
       send Marshal fuel sel s msg
       = (set_buf s b, Some (false, Some (errMessageSize max))))
      /\
      (forall s' ch,
          send Marshal fuel sel s msg
          = (s', Some (ch, Some (errMessageSize max))) ->
          (max <> 0 /\ buffer.Len b > max)
          \/ exists k, sel k = linkDone (Some (errMessageSize max))
                       \/ sel k = ctxDone (errMessageSize max))).
Proof.
  split.
  - intros rv sv mc env s s' H.
    destruct (Sender_attach_maxMessageSize rv sv mc env s s' H)
      as [[resp [Hw [Hterm Hmax]]] | Hun]; [ left | right; exact Hun ].
    exists resp. repeat (split; [ assumption | ]).
    intros Hpeer. rewrite Hmax. unfold spec_maxMessageSize.
    destruct (maxMessageSize (l s) =? 0); [ reflexivity | ].
    destruct (Z.eqb_spec (frames.attach_MaxMessageSize resp) 0);
      [ contradiction | reflexivity ].
  - intros Marshal fuel sel s msg b Htag HM max. split.
    + intros [Hnz Hgt]. now apply send_too_large.
    + intros s' ch Hsend.
      destruct (Z.eq_dec max 0) as [H0 | Hnz].
      * right.
        rewrite (send_reaches_loop Marshal fuel sel s msg b Htag HM
                   (or_introl H0)) in Hsend.
        destruct (sendLoop_error _ _ _ _ _ _ _ _ _ _ Hsend) as [E | E];
          [ discriminate | exact E ].
      * destruct (Z.le_gt_cases (buffer.Len b) max) as [Hle | Hgt].
        -- right.
           rewrite (send_reaches_loop Marshal fuel sel s msg b Htag HM
                      (or_intror Hle)) in Hsend.
           destruct (sendLoop_error _ _ _ _ _ _ _ _ _ _ Hsend) as [E | E];
             [ discriminate | exact E ].
        -- left. split; [ exact Hnz | lia ].
Qed.

Lemma maxMessageSize_resolved_and_enforced_witness :
  maxMessageSize
    (l (fst (Sender_attach (modeOr ReceiverSettleModeFirst)
               (modeOr SenderSettleModeMixed) (fun x => x)
               (mkAttachEnv (inr 0)
                  (Received (frames.FrameAttach
                     (frames.mkAttach "test" 0 RoleReceiver
                        (Some SenderSettleModeUnsettled)
                        (Some ReceiverSettleModeFirst) None
                        (Some (frames.mkTarget "test" false)) 16)))
                  (Received frames.FrameOther) None)
               (exampleSender 512 32))))
  = 16
  /\ snd (send Message_Marshal 3 allTaken (exampleSender 512 9)
               (NewMessage hello))
     = Some (false, Some (errMessageSize 9)).
Proof.
  split.
  - destruct (proj1 maxMessageSize_resolved_and_enforced
                (modeOr ReceiverSettleModeFirst)
                (modeOr SenderSettleModeMixed) (fun x => x)
                (mkAttachEnv (inr 0)
                   (Received (frames.FrameAttach
                      (frames.mkAttach "test" 0 RoleReceiver
                         (Some SenderSettleModeUnsettled)
                         (Some ReceiverSettleModeFirst) None
                         (Some (frames.mkTarget "test" false)) 16)))
                   (Received frames.FrameOther) None)
                (exampleSender 512 32) _ eq_refl)
      as [[resp [Hresp [_ [Hmax _]]]]
         | [[_ [e [_ [Hf | [r [_ [_ [_ Hs]]]]]]]] _]].
    + injection Hresp as <-. exact Hmax.
    + discriminate Hf.
    + discriminate Hs.
  - rewrite (proj1 (proj2 maxMessageSize_resolved_and_enforced
                      Message_Marshal 3%nat allTaken (exampleSender 512 9)
                      (NewMessage hello) _ ltac:(vm_compute; discriminate)
                      eq_refl)).
    + reflexivity.
    + split; [ discriminate | reflexivity ].
Defined.

(** The claim as the specification has it fails where the peer
    announces no limit: a link with the local limit of 100 that
    attaches to a peer announcing 0 ends with the limit 0, not with
    the 100 that the minimum with 0 for unlimited gives; [send] then
    accepts a message of more than 100 bytes. *)
Lemma maxMessageSize_peer_zero_not_min :
  let attached :=
    Sender_attach (modeOr ReceiverSettleModeFirst)
      (modeOr SenderSettleModeMixed) (fun x => x)
      (mkAttachEnv (inr 0)
         (Received (frames.FrameAttach
            (frames.mkAttach "test" 0 RoleReceiver
               (Some SenderSettleModeUnsettled)
               (Some ReceiverSettleModeFirst) None
               (Some (frames.mkTarget "test" false)) 0)))
         (Received frames.FrameOther) None)
      (exampleSender 512 100) in
  snd attached = None
  /\ spec_maxMessageSize 100 0 = 100
  /\ maxMessageSize (l (fst attached)) = 0
  /\ maxMessageSize (l (fst attached)) <> spec_maxMessageSize 100 0
  /\ snd (send Message_Marshal 3 allTaken (fst attached)
               (NewMessage testPayload))
     = Some (true, None).
Proof.
  cbv zeta.
  split; [ reflexivity | ]. split; [ reflexivity | ].
  split; [ reflexivity | ].
  split; [ intros H; vm_compute in H; discriminate H | ].
  vm_compute. reflexivity.
Qed.

(** C10: when the link has already terminated at the time [Send] is
    called, [Send] returns the link's stored [doneErr] at once; the
    sender is left as it was, so that nothing has been marshaled and
    no transfer handed over. *)
Theorem Send_on_terminated_link :
  forall Marshal (fuel : nat) (sel : nat -> sendSelect) (wait : sendWait)
         (s : Sender) (msg : Message),
    done (l s) = true ->
    Send Marshal fuel sel wait s msg = (s, Some (doneErr (l s))).
Proof.
  intros Marshal fuel sel wait s msg Hdone. unfold Send.
  rewrite Hdone. reflexivity.
Qed.

Lemma Send_on_terminated_link_witness :
  Send Message_Marshal 3 allTaken (delivered StateAccepted)
       (set_l (exampleSender 512 0)
              (set_done (l (exampleSender 512 0))
                        (Some (LinkError None None))))
       (NewMessage hello)
  = (set_l (exampleSender 512 0)
           (set_done (l (exampleSender 512 0)) (Some (LinkError None None))),
     Some (Some (LinkError None None))).
Proof.
  apply (Send_on_terminated_link Message_Marshal 3 allTaken
           (delivered StateAccepted)).
  reflexivity.
Defined.

(** ** Edges of the model, on examples *)

(** A field that fails to marshal ends [marshalComposite] at once: the
    error is the field's, the size field is left as it was reserved. *)
Example marshalComposite_field_error :
  marshalComposite (buffer.New []) typeCodeError
    [(Uint8 1, false); (String_ [255], false); (Nil, true)]
  = (buffer.New [0; 83; 29; 208; 0; 0; 0; 0; 0; 0; 0; 2; 80; 1],
     Some errNotUTF8).
Proof. reflexivity. Qed.

(** [writeFrame] patches the size at the start of the unread bytes: on
    a buffer that still holds unread bytes these are overwritten and
    the size counts them, which is why the connection resets its
    buffer before each frame. *)
Example writeFrame_after_unread_bytes :
  writeFrame (buffer.New [9; 9; 9; 9; 9])
             (mkFrame 0 0 (performEnd_marshal None))
  = (buffer.New [0; 0; 0; 17; 9; 0; 0; 0; 0; 2; 0; 0; 0; 0; 83; 23; 69],
     None).
Proof. reflexivity. Qed.

(** The minimum taken by [attach] is the numeric one: a peer that
    announces 0 (no limit) replaces a local limit of 100 by 0. *)
Example attach_peer_without_limit :
  maxMessageSize
    (l (fst (Sender_attach (modeOr ReceiverSettleModeFirst)
               (modeOr SenderSettleModeMixed) (fun x => x)
               (mkAttachEnv (inr 0)
                  (Received (frames.FrameAttach
                     (frames.mkAttach "test" 0 RoleReceiver
                        (Some SenderSettleModeUnsettled)
                        (Some ReceiverSettleModeFirst) None
                        (Some (frames.mkTarget "test" false)) 0)))
                  (Received frames.FrameOther) None)
               (exampleSender 512 100))))
  = 0.
Proof. reflexivity. Qed.

(** The specification's first scenario: "hello" leaves in one
    transfer, with the counter's first tag. *)
Example send_hello :
  transfers (fst (send Message_Marshal 1 allTaken (exampleSender 4096 0)
                       (NewMessage hello)))
  = [frames.mkTransfer 0 (Some needsDeliveryID) [0; 0; 0; 0; 0; 0; 0; 0]
       (Some 0) false false None None false false false
       [0; 83; 117; 160; 5; 104; 101; 108; 108; 111] true].
Proof. reflexivity. Qed.

(** A message that marshals to no byte is accepted without a
    transfer and without a completion channel. *)
Example send_empty_message :
  send Message_Marshal 0 allTaken (exampleSender 512 0)
       (mkMessage [] 0 false [])
  = (set_nextDeliveryTag (exampleSender 512 0) 1, Some (false, None)).
Proof. reflexivity. Qed.

(** A peer whose frames are smaller than the transfer header makes
    [Next] panic. *)
Example send_small_frames_panic :
  snd (send Message_Marshal 5 allTaken (exampleSender 60 0)
            (NewMessage hello))
  = Some (false, Some (Panic "slice bounds out of range")).
Proof. reflexivity. Qed.

(** A peer whose frames are exactly as large as the transfer header
    makes the loop send empty transfers without end. *)
Lemma sendLoop_zero_diverges (settled : bool) :
  forall fuel n s fr,
    frames.More fr = true -> buffer.Len (buf s) > 0 ->
    snd (sendLoop fuel allTaken n 0 settled s fr) = None.
Proof.
  induction fuel as [ | fuel IH ]; intros n s fr Hmore Hlen;
    simpl; rewrite Hmore; simpl negb; cbv iota.
  - reflexivity.
  - rewrite (Next_zero _ Hlen). cbn [buf set_buf].
    destruct (Z.gtb_spec (buffer.Len (buf s)) 0) as [_ | Hle]; [ | lia ].
    apply IH; [ reflexivity | exact Hlen ].
Qed.

Lemma send_header_sized_frames_diverges (fuel : nat) :
  snd (send Message_Marshal fuel allTaken (exampleSender 66 0)
            (NewMessage hello))
  = None.
Proof.
  rewrite (send_reaches_loop Message_Marshal fuel allTaken
             (exampleSender 66 0) (NewMessage hello)
             (buffer.New [0; 83; 117; 160; 5; 104; 101; 108; 108; 111])).
  - apply sendLoop_zero_diverges; [ reflexivity | ].
    unfold senderAtLoop. cbn. unfold buffer.Len, len. simpl. lia.
  - unfold len. simpl. lia.
  - reflexivity.
  - left. reflexivity.
Qed.

(** * Further properties of the encoder, of the link and of the sender *)

(** ** The encoder beyond the composites *)

(** X1: [marshal] only ever appends.  Whatever the value and whether
    or not an error comes back, the bytes already in the buffer and
    its read cursor are left as they were, and what is appended (and
    the error) is what [marshal] produces on an empty buffer: the
    encoding of a value does not depend on what precedes it. *)
Theorem marshal_extends_buffer (wr wr' : Buffer) (v : value)
        (e : option error) :
  wf wr ->
  marshal wr v = (wr', e) ->
  buffer.b wr' = buffer.b wr ++ encoding v
  /\ buffer.i wr' = buffer.i wr
  /\ e = snd (marshal (buffer.New []) v)
  /\ wf wr'.
Proof.
  intros Hwr Hm. rewrite (marshal_append v wr Hwr) in Hm.
  injection Hm as <- <-.
  split; [ reflexivity | split; [ reflexivity | split; [ reflexivity | ] ] ].
  now apply wf_Write.
Qed.

Lemma marshal_extends_buffer_witness :
  buffer.b (buffer.mk [9; 9; 0; 83; 24; 208; 0; 0; 0; 0; 0; 0; 0; 1] 1)
  = [9; 9] ++ encoding (Composite typeCodeClose [(Unsupported, false)])
  /\ buffer.i (buffer.mk [9; 9; 0; 83; 24; 208; 0; 0; 0; 0; 0; 0; 0; 1] 1)
     = buffer.i (buffer.mk [9; 9] 1)
  /\ Some errNotImplemented
     = snd (marshal (buffer.New [])
                    (Composite typeCodeClose [(Unsupported, false)]))
  /\ wf (buffer.mk [9; 9; 0; 83; 24; 208; 0; 0; 0; 0; 0; 0; 0; 1] 1).
Proof.
  apply (marshal_extends_buffer (buffer.mk [9; 9] 1)).
  - unfold wf. simpl. lia.
  - reflexivity.
Defined.

(** X2: [writeBinary] writes a binary value of fewer than 256 bytes as
    the vbin8 format code, its length in one byte and its bytes; one
    of at least 256 and fewer than 2^32 - 1 bytes as the vbin32 format
    code, its length in four big-endian bytes (which read back as the
    length) and its bytes; a longer one is refused with "too long" and
    nothing is written. *)
Theorem writeBinary_layout (wr : Buffer) (bin : list byte) :
  (len bin < 256 ->
   writeBinary wr bin
   = (buffer.Write wr ([typeCodeVbin8; len bin] ++ bin), None))
  /\ (256 <= len bin < 2 ^ 32 - 1 ->
      writeBinary wr bin
      = (buffer.Write wr
           ([typeCodeVbin32] ++ binary.PutUint32 (len bin) ++ bin), None)
      /\ binary.Uint32 (binary.PutUint32 (len bin)) = Some (len bin))
  /\ (2 ^ 32 - 1 <= len bin -> writeBinary wr bin = (wr, Some errTooLong)).
Proof.
  pose proof (len_nonneg bin) as Hn.
  unfold writeBinary. cbv zeta. split; [ | split ]; intros Hl.
  - replace (len bin <? 256) with true by (symmetry; apply Z.ltb_lt; lia).
    rewrite to_byte_small by lia. rewrite Write_Write. reflexivity.
  - replace (len bin <? 256) with false by (symmetry; apply Z.ltb_ge; lia).
    replace (len bin <? MaxUint32) with true
      by (symmetry; apply Z.ltb_lt; unfold MaxUint32; lia).
    rewrite to_uint32_small by lia.
    unfold buffer.WriteUint32, buffer.WriteByte.
    rewrite !Write_Write. split; [ reflexivity | ].
    apply Uint32_PutUint32. lia.
  - replace (len bin <? 256) with false by (symmetry; apply Z.ltb_ge; lia).
    replace (len bin <? MaxUint32) with false
      by (symmetry; apply Z.ltb_ge; unfold MaxUint32; lia).
    reflexivity.
Qed.

Lemma writeBinary_layout_witness :
  writeBinary (buffer.New [7]) hello
  = (buffer.New [7; 160; 5; 104; 101; 108; 108; 111], None)
  /\ fst (writeBinary (buffer.New []) (repeat 1 300))
     = buffer.New ([176; 0; 0; 1; 44] ++ repeat 1 300).
Proof.
  split.
  - apply (proj1 (writeBinary_layout (buffer.New [7]) hello)).
    unfold len; simpl; lia.
  - assert (Hl : 256 <= len (repeat 1 300) < 2 ^ 32 - 1)
      by (unfold len; rewrite repeat_length; lia).
    rewrite (proj1 (proj1 (proj2 (writeBinary_layout (buffer.New [])
                                    (repeat 1 300))) Hl)).
    vm_compute. reflexivity.
Defined.

Lemma Write_inj (wr : Buffer) (p q : list byte) :
  buffer.Write wr p = buffer.Write wr q -> p = q.
Proof.
  unfold buffer.Write. intros H. injection H as H.
  now apply app_inv_head in H.
Qed.

Lemma PutUint32_inj (n m : Z) :
  0 <= n < 2 ^ 32 -> 0 <= m < 2 ^ 32 ->
  binary.PutUint32 n = binary.PutUint32 m -> n = m.
Proof.
  intros Hn Hm H.
  pose proof (Uint32_PutUint32 n Hn) as En.
  pose proof (Uint32_PutUint32 m Hm) as Em.
  rewrite H in En. congruence.
Qed.

Lemma PutUint64_inj (n m : Z) :
  0 <= n < 2 ^ 64 -> 0 <= m < 2 ^ 64 ->
  binary.PutUint64 n = binary.PutUint64 m -> n = m.
Proof.
  intros Hn Hm H.
  pose proof (Uint64_PutUint64 n Hn) as En.
  pose proof (Uint64_PutUint64 m Hm) as Em.
  rewrite H in En. congruence.
Qed.

(** X3: the unsigned integers are written in the shortest of their
    three forms (one byte for zero, two below 256, the full width
    otherwise) and no two numbers of the type share an encoding. *)
Theorem writeUint_shortest_injective (wr : Buffer) (n m : Z) :
  (0 <= n < 2 ^ 32 -> 0 <= m < 2 ^ 32 ->
   buffer.Len (writeUint32 wr n) - buffer.Len wr
   = (if n =? 0 then 1 else if n <? 256 then 2 else 5)
   /\ (n <> m -> writeUint32 wr n <> writeUint32 wr m))
  /\
  (0 <= n < 2 ^ 64 -> 0 <= m < 2 ^ 64 ->
   buffer.Len (writeUint64 wr n) - buffer.Len wr
   = (if n =? 0 then 1 else if n <? 256 then 2 else 9)
   /\ (n <> m -> writeUint64 wr n <> writeUint64 wr m)).
Proof.
  split; intros Hn Hm.
  - split.
    + unfold writeUint32, buffer.WriteUint32, buffer.WriteByte.
      destruct (n =? 0); [ | destruct (n <? 256) ];
        rewrite ?Write_Write, Len_Write; unfold len; simpl; lia.
    + intros Hne H. apply Hne. revert H.
      unfold writeUint32, buffer.WriteUint32, buffer.WriteByte.
      destruct (Z.eqb_spec n 0) as [En | Hn0];
        destruct (Z.eqb_spec m 0) as [Em | Hm0]; try lia;
        destruct (Z.ltb_spec n 256) as [Hn1 | Hn1];
        destruct (Z.ltb_spec m 256) as [Hm1 | Hm1];
        rewrite ?Write_Write; intros H; apply Write_inj in H;
        try discriminate.
      * injection H as H. rewrite !to_byte_small in H by lia. exact H.
      * injection H as H. apply (PutUint32_inj n m Hn Hm).
        unfold binary.PutUint32. congruence.
  - split.
    + unfold writeUint64, buffer.WriteUint64, buffer.WriteByte.
      destruct (n =? 0); [ | destruct (n <? 256) ];
        rewrite ?Write_Write, Len_Write; unfold len; simpl; lia.
    + intros Hne H. apply Hne. revert H.
      unfold writeUint64, buffer.WriteUint64, buffer.WriteByte.
      destruct (Z.eqb_spec n 0) as [En | Hn0];
        destruct (Z.eqb_spec m 0) as [Em | Hm0]; try lia;
        destruct (Z.ltb_spec n 256) as [Hn1 | Hn1];
        destruct (Z.ltb_spec m 256) as [Hm1 | Hm1];
        rewrite ?Write_Write; intros H; apply Write_inj in H;
        try discriminate.
      * injection H as H. rewrite !to_byte_small in H by lia. exact H.
      * injection H as H. apply (PutUint64_inj n m Hn Hm).
        unfold binary.PutUint64. congruence.
Qed.

Lemma writeUint_shortest_injective_witness :
  (buffer.Len (writeUint32 (buffer.New []) 300) - buffer.Len (buffer.New [])
   = 5
   /\ writeUint32 (buffer.New []) 300 <> writeUint32 (buffer.New []) 44)
  /\ (buffer.Len (writeUint64 (buffer.New []) 7) - buffer.Len (buffer.New [])
      = 2
      /\ writeUint64 (buffer.New []) 7 <> writeUint64 (buffer.New []) 0).
Proof.
  split.
  - destruct (proj1 (writeUint_shortest_injective (buffer.New []) 300 44))
      as [Hlen Hne]; [ lia | lia | ].
    split; [ exact Hlen | apply Hne; lia ].
  - destruct (proj2 (writeUint_shortest_injective (buffer.New []) 7 0))
      as [Hlen Hne]; [ lia | lia | ].
    split; [ exact Hlen | apply Hne; lia ].
Defined.

Lemma to_uint32_range (x : Z) : 0 <= to_uint32 x < 2 ^ 32.
Proof. unfold to_uint32. apply Z.mod_pos_bound. lia. Qed.

Lemma to_uint64_range (x : Z) : 0 <= to_uint64 x < 2 ^ 64.
Proof. unfold to_uint64. apply Z.mod_pos_bound. lia. Qed.

Lemma writeInt_full_inj32 (n m : Z) :
  - 2 ^ 31 <= n < 2 ^ 31 -> - 2 ^ 31 <= m < 2 ^ 31 ->
  binary.PutUint32 (to_uint32 n) = binary.PutUint32 (to_uint32 m) -> n = m.
Proof.
  intros Hn Hm H.
  apply PutUint32_inj in H; try apply to_uint32_range.
  unfold to_uint32 in H. Z.div_mod_to_equations. lia.
Qed.

Lemma writeInt_full_inj64 (n m : Z) :
  - 2 ^ 63 <= n < 2 ^ 63 -> - 2 ^ 63 <= m < 2 ^ 63 ->
  binary.PutUint64 (to_uint64 n) = binary.PutUint64 (to_uint64 m) -> n = m.
Proof.
  intros Hn Hm H.
  apply PutUint64_inj in H; try apply to_uint64_range.
  unfold to_uint64 in H. Z.div_mod_to_equations. lia.
Qed.

(** X4: the signed integers are written in two bytes when they lie in
    [-128, 128) and in full width otherwise, in two's complement, and
    no two numbers of the type share an encoding. *)
Theorem writeInt_shortest_injective (wr : Buffer) (n m : Z) :
  (- 2 ^ 31 <= n < 2 ^ 31 -> - 2 ^ 31 <= m < 2 ^ 31 ->
   buffer.Len (writeInt32 wr n) - buffer.Len wr
   = (if (-128 <=? n) && (n <? 128) then 2 else 5)
   /\ (n <> m -> writeInt32 wr n <> writeInt32 wr m))
  /\
  (- 2 ^ 63 <= n < 2 ^ 63 -> - 2 ^ 63 <= m < 2 ^ 63 ->
   buffer.Len (writeInt64 wr n) - buffer.Len wr
   = (if (-128 <=? n) && (n <? 128) then 2 else 9)
   /\ (n <> m -> writeInt64 wr n <> writeInt64 wr m)).
Proof.
  assert (Hsmall : forall x, (x <? 128) && (x >=? -128)
                             = (-128 <=? x) && (x <? 128)).
  { intros x. rewrite Z.geb_leb. apply andb_comm. }
  split; intros Hn Hm.
  - split.
    + unfold writeInt32, buffer.WriteUint32, buffer.WriteByte.
      rewrite Hsmall. destruct ((-128 <=? n) && (n <? 128));
        rewrite ?Write_Write, Len_Write; unfold len; simpl; lia.
    + intros Hne H. apply Hne. revert H.
      unfold writeInt32, buffer.WriteUint32, buffer.WriteByte.
      rewrite !Hsmall.
      destruct (Z.leb_spec (-128) n) as [Hn0 | Hn0];
        destruct (Z.ltb_spec n 128) as [Hn1 | Hn1];
        destruct (Z.leb_spec (-128) m) as [Hm0 | Hm0];
        destruct (Z.ltb_spec m 128) as [Hm1 | Hm1];
        cbn [andb]; rewrite ?Write_Write; intros H; apply Write_inj in H;
        try discriminate; try lia;
        try (injection H as H; apply (writeInt_full_inj32 n m Hn Hm);
             unfold binary.PutUint32; congruence).
      injection H as H. unfold to_byte in H.
      Z.div_mod_to_equations. lia.
  - split.
    + unfold writeInt64, buffer.WriteUint64, buffer.WriteByte.
      rewrite Hsmall. destruct ((-128 <=? n) && (n <? 128));
        rewrite ?Write_Write, Len_Write; unfold len; simpl; lia.
    + intros Hne H. apply Hne. revert H.
      unfold writeInt64, buffer.WriteUint64, buffer.WriteByte.
      rewrite !Hsmall.
      destruct (Z.leb_spec (-128) n) as [Hn0 | Hn0];
        destruct (Z.ltb_spec n 128) as [Hn1 | Hn1];
        destruct (Z.leb_spec (-128) m) as [Hm0 | Hm0];
        destruct (Z.ltb_spec m 128) as [Hm1 | Hm1];
        cbn [andb]; rewrite ?Write_Write; intros H; apply Write_inj in H;
        try discriminate; try lia;
        try (injection H as H; apply (writeInt_full_inj64 n m Hn Hm);
             unfold binary.PutUint64; congruence).
      injection H as H. unfold to_byte in H.
      Z.div_mod_to_equations. lia.
Qed.

Lemma writeInt_shortest_injective_witness :
  (buffer.Len (writeInt32 (buffer.New []) (-129)) - buffer.Len (buffer.New [])
   = 5
   /\ writeInt32 (buffer.New []) (-129) <> writeInt32 (buffer.New []) 127)
  /\ (buffer.Len (writeInt64 (buffer.New []) (-1)) - buffer.Len (buffer.New [])
      = 2
      /\ writeInt64 (buffer.New []) (-1) <> writeInt64 (buffer.New []) 255).
Proof.
  split.
  - destruct (proj1 (writeInt_shortest_injective (buffer.New []) (-129) 127))
      as [Hlen Hne]; [ lia | lia | ].
    split; [ exact Hlen | apply Hne; lia ].
  - destruct (proj2 (writeInt_shortest_injective (buffer.New []) (-1) 255))
      as [Hlen Hne]; [ lia | lia | ].
    split; [ exact Hlen | apply Hne; lia ].
Defined.
Lemma to_int_small (x : Z) : - 2 ^ 63 <= x < 2 ^ 63 -> to_int x = x.
Proof.
  intros H. unfold to_int. rewrite Z.mod_small by lia. lia.
Qed.

(** X5: [writeTimestamp] writes the timestamp format code and eight
    big-endian bytes holding the time in milliseconds, the nanoseconds
    being cut off toward zero: a time less than a millisecond away
    from the epoch, before or after it, is written as zero, and a time
    at or after the epoch reads back as its whole milliseconds. *)
Theorem writeTimestamp_milliseconds (wr : Buffer) (unixNano : Z) :
  - 2 ^ 63 <= unixNano < 2 ^ 63 ->
  let ms := Z.quot unixNano 1000000 in
  writeTimestamp wr unixNano
  = buffer.Write wr (typeCodeTimestamp :: binary.PutUint64 (to_uint64 ms))
  /\ Z.abs (unixNano - ms * 1000000) < 1000000
  /\ Z.abs (ms * 1000000) <= Z.abs unixNano
  /\ (0 <= unixNano ->
      binary.Uint64 (binary.PutUint64 (to_uint64 ms)) = Some ms)
  /\ (unixNano < 0 -> ms <= 0
      /\ binary.Uint64 (binary.PutUint64 (to_uint64 ms))
         = Some (if ms =? 0 then 0 else 2 ^ 64 + ms)).
Proof.
  intros Ht ms.
  assert (Hq : unixNano = 1000000 * ms + Z.rem unixNano 1000000)
    by (apply Z.quot_rem'; lia).
  assert (Hr : Z.abs (Z.rem unixNano 1000000) < 1000000)
    by (pose proof (Z.rem_bound_abs unixNano 1000000); lia).
  assert (Hs : 0 <= Z.rem unixNano 1000000 * unixNano)
    by (apply Z.rem_sign_mul; lia).
  split; [ | split; [ | split; [ | split ] ] ].
  - unfold writeTimestamp, buffer.WriteUint64, buffer.WriteByte.
    cbv zeta. rewrite Write_Write. reflexivity.
  - lia.
  - nia.
  - intros Hpos.
    assert (0 <= ms < 2 ^ 64) by nia.
    unfold to_uint64. rewrite Z.mod_small by lia.
    now apply Uint64_PutUint64.
  - intros Hneg. assert (Hms : - 2 ^ 63 <= ms <= 0) by nia.
    split; [ lia | ].
    destruct (Z.eqb_spec ms 0) as [E | E].
    + rewrite E. reflexivity.
    + replace (to_uint64 ms) with (2 ^ 64 + ms).
      * apply Uint64_PutUint64. lia.
      * unfold to_uint64.
        apply (Z.mod_unique ms (2 ^ 64) (-1) (2 ^ 64 + ms)); lia.
Qed.

Lemma writeTimestamp_milliseconds_witness :
  writeTimestamp (buffer.New []) (-999999)
  = buffer.New [131; 0; 0; 0; 0; 0; 0; 0; 0]
  /\ writeTimestamp (buffer.New []) 1500000
     = buffer.New [131; 0; 0; 0; 0; 0; 0; 0; 1].
Proof.
  split.
  - apply (proj1 (writeTimestamp_milliseconds (buffer.New []) (-999999)
                    ltac:(lia))).
  - apply (proj1 (writeTimestamp_milliseconds (buffer.New []) 1500000
                    ltac:(lia))).
Defined.

(** X6: [writeArrayHeader], for an array of [length] elements of
    [typeSize] bytes each whose sizes fit 32 bits: when the elements
    with the two bytes of length and element type take at most 255
    bytes the header is array8, that size in one byte, the length in
    one byte and the element type; otherwise it is array32, the size
    of all that follows the size field in four bytes, the length in
    four bytes and the element type.  No size or length is cut off. *)
Theorem writeArrayHeader_layout (wr : Buffer) (length typeSize : Z)
        (type_ : amqpType) :
  0 <= length -> 1 <= typeSize -> length * typeSize + 5 < 2 ^ 32 ->
  let size := length * typeSize in
  (size + 2 <= 255 ->
   writeArrayHeader wr length typeSize type_
   = buffer.Write wr [typeCodeArray8; size + 2; length; to_byte type_])
  /\ (255 < size + 2 ->
      writeArrayHeader wr length typeSize type_
      = buffer.Write wr ([typeCodeArray32] ++ binary.PutUint32 (size + 5)
                           ++ binary.PutUint32 length ++ [to_byte type_])
      /\ binary.Uint32 (binary.PutUint32 (size + 5)) = Some (size + 5)
      /\ binary.Uint32 (binary.PutUint32 length) = Some length).
Proof.
  intros Hl Ht Hs size.
  assert (Hsize : 0 <= size /\ length <= size) by (unfold size; nia).
  unfold writeArrayHeader. cbv zeta. fold size.
  unfold array8TLSize, array32TLSize, MaxUint8.
  rewrite (to_int_small size) by lia.
  rewrite (to_int_small (size + 2)) by lia.
  split; intros Hc.
  - replace (size + 2 <=? 255) with true by (symmetry; apply Z.leb_le; lia).
    rewrite !to_byte_small by lia. reflexivity.
  - replace (size + 2 <=? 255) with false by (symmetry; apply Z.leb_gt; lia).
    rewrite !to_uint32_small by lia.
    unfold buffer.WriteUint32, buffer.WriteByte. rewrite !Write_Write.
    split; [ reflexivity | split; apply Uint32_PutUint32; lia ].
Qed.

Lemma writeArrayHeader_layout_witness :
  writeArrayHeader (buffer.New []) 3 4 typeCodeUint
  = buffer.New [224; 14; 3; 112]
  /\ writeArrayHeader (buffer.New []) 100 8 typeCodeUlong
     = buffer.New [240; 0; 0; 3; 37; 0; 0; 0; 100; 128].
Proof.
  split.
  - apply (proj1 (writeArrayHeader_layout (buffer.New []) 3 4 typeCodeUint
                    ltac:(lia) ltac:(lia) ltac:(lia))). lia.
  - apply (proj1 (proj2 (writeArrayHeader_layout (buffer.New []) 100 8
                           typeCodeUlong ltac:(lia) ltac:(lia) ltac:(lia))
                        ltac:(lia))).
Defined.

(** X7: [writeVariableArrayHeader], for an array of [length] elements
    of variable width whose bytes total [elementsSizeTotal]: each
    element is counted with a length prefix of four bytes when the
    high nibble of the element type is 0xb and of one byte otherwise,
    and the header is chosen and laid out as by [writeArrayHeader]. *)
Theorem writeVariableArrayHeader_layout (wr : Buffer)
        (length elementsSizeTotal : Z) (type_ : amqpType) :
  0 <= length -> 0 <= elementsSizeTotal ->
  let prefix := if Z.land type_ 240 =? 176 then 4 else 1 in
  let size := elementsSizeTotal + length * prefix in
  size + 5 < 2 ^ 32 ->
  (size + 2 <= 255 ->
   writeVariableArrayHeader wr length elementsSizeTotal type_
   = buffer.Write wr [typeCodeArray8; size + 2; length; to_byte type_])
  /\ (255 < size + 2 ->
      writeVariableArrayHeader wr length elementsSizeTotal type_
      = buffer.Write wr ([typeCodeArray32] ++ binary.PutUint32 (size + 5)
                           ++ binary.PutUint32 length ++ [to_byte type_])
      /\ binary.Uint32 (binary.PutUint32 (size + 5)) = Some (size + 5)
      /\ binary.Uint32 (binary.PutUint32 length) = Some length).
Proof.
  intros Hl He prefix size Hs.
  assert (Hp : 1 <= prefix <= 4)
    by (unfold prefix; destruct (Z.land type_ 240 =? 176); lia).
  assert (Hsize : 0 <= size /\ length <= size) by (unfold size; nia).
  unfold writeVariableArrayHeader. cbv zeta. fold prefix.
  unfold array8TLSize, array32TLSize, MaxUint8.
  rewrite (to_int_small (length * prefix)) by nia. fold size.
  rewrite (to_int_small size) by lia.
  rewrite (to_int_small (size + 2)) by lia.
  split; intros Hc.
  - replace (size + 2 <=? 255) with true by (symmetry; apply Z.leb_le; lia).
    rewrite !to_byte_small by lia. reflexivity.
  - replace (size + 2 <=? 255) with false by (symmetry; apply Z.leb_gt; lia).
    rewrite !to_uint32_small by lia.
    unfold buffer.WriteUint32, buffer.WriteByte. rewrite !Write_Write.
    split; [ reflexivity | split; apply Uint32_PutUint32; lia ].
Qed.

Lemma writeVariableArrayHeader_layout_witness :
  writeVariableArrayHeader (buffer.New []) 2 10 typeCodeStr8
  = buffer.New [224; 14; 2; 161]
  /\ writeVariableArrayHeader (buffer.New []) 2 300 typeCodeStr32
     = buffer.New [240; 0; 0; 1; 57; 0; 0; 0; 2; 177].
Proof.
  split.
  - apply (proj1 (writeVariableArrayHeader_layout (buffer.New []) 2 10
                    typeCodeStr8 ltac:(lia) ltac:(lia) ltac:(simpl; lia))).
    simpl. lia.
  - apply (proj1 (proj2 (writeVariableArrayHeader_layout (buffer.New []) 2
                           300 typeCodeStr32 ltac:(lia) ltac:(lia)
                           ltac:(simpl; lia))
                        ltac:(simpl; lia))).
Defined.
(** ** writeMap *)

Lemma appendOnly_writePairs (entries : list (writer * writer)) :
  Forall (fun e => appendOnly (fst e) /\ appendOnly (snd e)) entries ->
  appendOnly (writePairs entries).
Proof.
  induction 1 as [ | [key val] rest [Hk Hv] _ IH ].
  - apply (appendOnly_ret None).
  - simpl in Hk, Hv.
    exact (appendOnly_seq key _ Hk (appendOnly_seq val _ Hv IH)).
Qed.

(** The loop of [writeMap] when every key and value is written without
    error: the entries follow each other in the buffer. *)
Lemma writePairs_ok (entries : list (writer * writer)) (wr : Buffer) :
  wf wr ->
  Forall (fun e => appendOnly (fst e) /\ appendOnly (snd e)) entries ->
  Forall (fun e => succeeds (fst e) /\ succeeds (snd e)) entries ->
  writePairs entries wr
  = (buffer.Write wr (concat (map entryBytes entries)), None).
Proof.
  intros Hwr Happ Hok. revert wr Hwr.
  induction entries as [ | [key val] rest IH ]; intros wr Hwr.
  - simpl. now rewrite Write_nil.
  - inversion Happ as [ | ? ? [Hk Hv] Happ' ]; subst.
    inversion Hok as [ | ? ? [Sk Sv] Hok' ]; subst.
    simpl in Hk, Hv, Sk, Sv. unfold succeeds in Sk, Sv.
    simpl. rewrite (Hk wr Hwr), Sk.
    rewrite (Hv _ (wf_Write _ _ Hwr)), Sv.
    rewrite (IH Happ' Hok') by (now repeat apply wf_Write).
    rewrite !Write_Write. unfold entryBytes, written. simpl.
    now rewrite <- app_assoc.
Qed.

Section WriteMapLayout.

Variable describedType : Type.
Variable symbol_marshal : list byte -> writer.
Variable describedType_marshal : describedType -> writer.

Hypothesis symbol_appendOnly : forall s, appendOnly (symbol_marshal s).
Hypothesis describedType_appendOnly :
  forall d, appendOnly (describedType_marshal d).

Lemma mapEntries_appendOnly (m : mapValue describedType)
      (entries : list (writer * writer)) :
  mapEntries describedType symbol_marshal describedType_marshal m
  = Some entries ->
  Forall (fun e => appendOnly (fst e) /\ appendOnly (snd e)) entries.
Proof.
  assert (Hm : forall v, appendOnly (fun wr => marshal wr v))
    by apply marshal_appendOnly.
  assert (Hs : forall s, appendOnly (fun wr => writeString wr s))
    by apply appendOnly_writeString.
  destruct m as [ m | m | m | m | m | m | ]; simpl; intros E;
    try discriminate; injection E as <-;
    apply Forall_forall; intros e Hin;
    apply in_map_iff in Hin; destruct Hin as [x [<- _]]; simpl;
    split; auto.
  destruct (fst x); simpl; auto.
  - exact (Hm (Int64 key)).
  - exact (Hm (Int64 key)).
  - apply appendOnly_fail.
Qed.

(** X8: [writeMap] on a map of a supported type whose keys and values
    are all written without error, and that has at most 2^31 - 3
    entries: the bytes appended are the map32 format code, the
    four-byte size of all that follows the size field, the four-byte
    count, which is twice the number of entries, then the entries in
    the order of the iteration, each key followed by its value.  Size
    and count read back as these numbers. *)
Theorem writeMap_layout (wr : Buffer) (m : mapValue describedType)
        (entries : list (writer * writer)) :
  wf wr ->
  mapEntries describedType symbol_marshal describedType_marshal m
  = Some entries ->
  Forall (fun e => succeeds (fst e) /\ succeeds (snd e)) entries ->
  len entries * 2 <= MaxUint32 - 4 ->
  let body := concat (map entryBytes entries) in
  let size := binary.PutUint32 (to_uint32 (4 + len body)) in
  let count := binary.PutUint32 (len entries * 2) in
  writeMap describedType symbol_marshal describedType_marshal wr m
  = (buffer.Write wr ([typeCodeMap32] ++ size ++ count ++ body), None)
  /\ (4 + len body < 2 ^ 32 -> binary.Uint32 size = Some (4 + len body))
  /\ binary.Uint32 count = Some (len entries * 2).
Proof.
  intros Hwr E Hok Hn body size count.
  pose proof (len_nonneg entries) as Hlen.
  pose proof (len_nonneg body) as Hbody.
  unfold MaxUint32 in Hn.
  split; [ | split ].
  - unfold writeMap. cbv zeta. rewrite E.
    rewrite (writePairs_ok entries _ (wf_Write _ _ Hwr)
               (mapEntries_appendOnly m entries E) Hok).
    fold body.
    replace (len entries * 2 >? MaxUint32 - 4) with false
      by (symmetry; rewrite Z.gtb_ltb; apply Z.ltb_ge; unfold MaxUint32; lia).
    rewrite !Len_Write.
    replace (buffer.Len wr
             + len [typeCodeMap32; 0; 0; 0; 0; 0; 0; 0; 0] + len body
             - buffer.Len wr - 1 - 4) with (4 + len body)
      by (unfold len; simpl length; lia).
    rewrite (to_uint32_small (len entries * 2)) by lia.
    set (wr2 := buffer.Write
                  (buffer.Write wr [typeCodeMap32; 0; 0; 0; 0; 0; 0; 0; 0])
                  body).
    assert (Hi : buffer.i wr2 = buffer.i wr) by reflexivity.
    replace (buffer.Len wr + 1)
      with (len (buffer.b wr ++ [typeCodeMap32]) - Z.of_nat (buffer.i wr2))
      by (rewrite len_app, Hi; unfold buffer.Len, len; simpl length; lia).
    rewrite (PutUint32At_patch wr2 (buffer.b wr ++ [typeCodeMap32])
               [0; 0; 0; 0] ([0; 0; 0; 0] ++ body)
               (to_uint32 (4 + len body))).
    fold size.
    + set (wr3 := buffer.mk _ _).
      replace (len (buffer.b wr ++ [typeCodeMap32])
               - Z.of_nat (buffer.i wr2) + 4)
        with (len ((buffer.b wr ++ [typeCodeMap32]) ++ size)
              - Z.of_nat (buffer.i wr3))
        by (rewrite !len_app; unfold len; simpl; lia).
      rewrite (PutUint32At_patch wr3
                 ((buffer.b wr ++ [typeCodeMap32]) ++ size)
                 [0; 0; 0; 0] body (len entries * 2)).
      * unfold buffer.Write, count. simpl.
        rewrite <- !app_assoc. reflexivity.
      * unfold wr3. simpl. rewrite <- !app_assoc. reflexivity.
      * reflexivity.
      * unfold wr3. simpl. rewrite !length_app. unfold wf in Hwr. lia.
    + unfold wr2, buffer.Write. simpl. rewrite <- !app_assoc. reflexivity.
    + reflexivity.
    + rewrite Hi, length_app. unfold wf in Hwr. lia.
  - intros Hs. unfold size. rewrite to_uint32_small by lia.
    apply Uint32_PutUint32. lia.
  - apply Uint32_PutUint32. lia.
Qed.

(** X9: the ways [writeMap] fails.  A value that is not one of the
    map types is refused after the nine placeholder bytes have been
    written; the error of the first key or value that fails is
    returned at once, and a map of more than 2^31 - 3 entries is
    refused once all of them have been written.  In each case what was
    written stays in the buffer and the size and the count are left
    zero. *)
Theorem writeMap_errors (wr : Buffer) (m : mapValue describedType) :
  wf wr ->
  let placeholder := [typeCodeMap32; 0; 0; 0; 0; 0; 0; 0; 0] in
  (mapEntries describedType symbol_marshal describedType_marshal m = None ->
   writeMap describedType symbol_marshal describedType_marshal wr m
   = (buffer.Write wr placeholder, Some errMapType))
  /\
  (forall entries,
     mapEntries describedType symbol_marshal describedType_marshal m
     = Some entries ->
     (forall err,
        snd (writePairs entries (buffer.New [])) = Some err ->
        writeMap describedType symbol_marshal describedType_marshal wr m
        = (buffer.Write wr (placeholder ++ written (writePairs entries)),
           Some err))
     /\
     (Forall (fun e => succeeds (fst e) /\ succeeds (snd e)) entries ->
      len entries * 2 > MaxUint32 - 4 ->
      writeMap describedType symbol_marshal describedType_marshal wr m
      = (buffer.Write wr (placeholder ++ concat (map entryBytes entries)),
         Some errMapTooLarge))).
Proof.
  intros Hwr placeholder. split.
  - intros E. unfold writeMap. cbv zeta. rewrite E. reflexivity.
  - intros entries E.
    pose proof (mapEntries_appendOnly m entries E) as Happ.
    split.
    + intros err Herr. unfold writeMap. cbv zeta. rewrite E.
      rewrite (appendOnly_writePairs entries Happ _ (wf_Write _ _ Hwr)).
      rewrite Herr. rewrite Write_Write. reflexivity.
    + intros Hok Hn. unfold writeMap. cbv zeta. rewrite E.
      rewrite (writePairs_ok entries _ (wf_Write _ _ Hwr) Happ Hok).
      replace (len entries * 2 >? MaxUint32 - 4) with true
        by (symmetry; rewrite Z.gtb_ltb; apply Z.ltb_lt; lia).
      rewrite Write_Write. reflexivity.
Qed.

End WriteMapLayout.

Lemma exampleSymbol_appendOnly (s : list byte) : appendOnly (exampleSymbol s).
Proof. apply appendOnly_write. Qed.

Lemma exampleDescribed_appendOnly (d : unit) :
  appendOnly (exampleDescribed d).
Proof. apply (appendOnly_write [typeCodeNull]). Qed.

Lemma writeMap_layout_witness :
  writeMap unit exampleSymbol exampleDescribed (buffer.mk [7; 7] 1)
           (MapString unit [([97], Uint32 1); ([98], Bool true)])
  = (buffer.mk [7; 7; 209; 0; 0; 0; 13; 0; 0; 0; 4;
                161; 1; 97; 82; 1; 161; 1; 98; 65] 1, None).
Proof.
  assert (Hwr : wf (buffer.mk [7; 7] 1)) by (unfold wf; simpl; lia).
  rewrite (proj1 (writeMap_layout unit exampleSymbol exampleDescribed
                    exampleSymbol_appendOnly exampleDescribed_appendOnly
                    (buffer.mk [7; 7] 1)
                    (MapString unit [([97], Uint32 1); ([98], Bool true)])
                    _ Hwr eq_refl
                    ltac:(repeat constructor) ltac:(vm_compute; discriminate))).
  reflexivity.
Defined.

Lemma writeMap_errors_witness :
  writeMap unit exampleSymbol exampleDescribed (buffer.New [7])
           (MapOther unit)
  = (buffer.New [7; 209; 0; 0; 0; 0; 0; 0; 0; 0], Some errMapType)
  /\ writeMap unit exampleSymbol exampleDescribed (buffer.New [7])
              (MapAnnotations unit [(KeyInt 1, Bool true);
                                    (KeyOther, Bool false)])
     = (buffer.New [7; 209; 0; 0; 0; 0; 0; 0; 0; 0; 85; 1; 65],
        Some errAnnotationsKey).
Proof.
  pose proof (writeMap_errors unit exampleSymbol exampleDescribed
                exampleSymbol_appendOnly exampleDescribed_appendOnly) as H.
  split.
  - apply (proj1 (H (buffer.New [7]) (MapOther unit) (wf_New [7]))).
    reflexivity.
  - rewrite (proj1 (proj2 (H (buffer.New [7])
                             (MapAnnotations unit [(KeyInt 1, Bool true);
                                                   (KeyOther, Bool false)])
                             (wf_New [7])) _ eq_refl)
                   errAnnotationsKey eq_refl).
    reflexivity.
Defined.

(** ** writeFrame outside its normal use *)

(** X10: when the body of a frame fails to marshal, [writeFrame]
    returns the body's error; the eight header bytes (with a size of
    zero) and what the body wrote before it failed stay in the
    buffer. *)
Theorem writeFrame_body_error (buf : Buffer) (fr : frame) (err : error) :
  wf buf ->
  snd (marshal (buffer.New []) (body fr)) = Some err ->
  writeFrame buf fr
  = (buffer.Write buf ([0; 0; 0; 0; 2; type_ fr]
                         ++ binary.PutUint16 (channel fr)
                         ++ encoding (body fr)),
     Some err).
Proof.
  intros Hwf Herr. unfold writeFrame, buffer.WriteUint16.
  rewrite Write_Write.
  rewrite marshal_append by (now apply wf_Write).
  rewrite Herr, Write_Write, <- app_assoc. reflexivity.
Qed.

Lemma writeFrame_body_error_witness :
  writeFrame (buffer.New [])
             (mkFrame 0 1 (performClose_marshal (Some (String_ [255]))))
  = (buffer.New [0; 0; 0; 0; 2; 0; 0; 1;
                 0; 83; 24; 208; 0; 0; 0; 0; 0; 0; 0; 1],
     Some errNotUTF8).
Proof.
  apply (writeFrame_body_error (buffer.New [])
           (mkFrame 0 1 (performClose_marshal (Some (String_ [255]))))
           errNotUTF8 (wf_New [])).
  reflexivity.
Defined.

(** X11: [writeFrame] on a buffer that still holds at least four
    unread bytes: the frame is appended with a size field of zero, and
    the size, which counts the pending bytes as well as the new frame,
    is written over the first four pending bytes.  A frame is
    well-formed only when written into a buffer with nothing unread. *)
Theorem writeFrame_pending_bytes (buf : Buffer) (fr : frame) :
  wf buf -> 4 <= buffer.Len buf -> marshals (body fr) ->
  let appended :=
    [0; 0; 0; 0; 2; type_ fr] ++ binary.PutUint16 (channel fr)
      ++ encoding (body fr) in
  let total := buffer.Len buf + len appended in
  total <= MaxUint32 ->
  snd (writeFrame buf fr) = None
  /\ buffer.Bytes (fst (writeFrame buf fr))
     = binary.PutUint32 total ++ skipn 4 (buffer.Bytes buf) ++ appended.
Proof.
  intros Hwf Hlen Hbody appended total Hfit.
  pose proof (len_nonneg appended) as Happ.
  assert (Hi : (buffer.i buf + 4 <= length (buffer.b buf))%nat)
    by (unfold buffer.Len, len in Hlen; lia).
  unfold writeFrame, buffer.WriteUint16. rewrite Write_Write.
  rewrite marshal_append by (now apply wf_Write).
  rewrite Hbody, Write_Write, <- app_assoc. fold appended.
  assert (HLen : buffer.Len (buffer.Write buf appended) = total)
    by (rewrite Len_Write; reflexivity).
  assert (HB : len (buffer.Bytes (buffer.Write buf appended)) = total).
  { unfold buffer.Bytes, buffer.Write, total, buffer.Len, len.
    cbn [buffer.b buffer.i]. rewrite length_skipn, !length_app. lia. }
  rewrite HLen, HB.
  destruct (Z.gtb_spec total MaxUint32) as [Hgt | _]; [ lia | ].
  rewrite to_uint32_len by (unfold total; lia).
  set (pre := firstn (buffer.i buf) (buffer.b buf)).
  set (old := firstn 4 (skipn (buffer.i buf) (buffer.b buf))).
  set (post := skipn 4 (skipn (buffer.i buf) (buffer.b buf)) ++ appended).
  assert (Hpre : length pre = buffer.i buf)
    by (unfold pre; rewrite length_firstn; lia).
  replace 0 with (len pre - Z.of_nat (buffer.i (buffer.Write buf appended)))
    by (unfold len; simpl; lia).
  rewrite (PutUint32At_patch _ pre old post).
  - cbn [fst snd]. split; [ reflexivity | ].
    unfold buffer.Bytes. cbn [buffer.b buffer.i buffer.Write].
    rewrite <- Hpre at 1.
    rewrite skipn_app, skipn_all, Nat.sub_diag. reflexivity.
  - unfold buffer.Write, pre, old, post. cbn [buffer.b].
    rewrite (app_assoc (firstn 4 _)), firstn_skipn.
    rewrite app_assoc, firstn_skipn. reflexivity.
  - unfold old. rewrite length_firstn, length_skipn. lia.
  - simpl. lia.
Qed.

Lemma writeFrame_pending_bytes_witness :
  buffer.Bytes
    (fst (writeFrame (buffer.New [9; 9; 9; 9; 9])
                     (mkFrame 0 0 (performEnd_marshal None))))
  = [0; 0; 0; 17; 9; 0; 0; 0; 0; 2; 0; 0; 0; 0; 83; 23; 69].
Proof.
  apply (proj2 (writeFrame_pending_bytes (buffer.New [9; 9; 9; 9; 9])
                  (mkFrame 0 0 (performEnd_marshal None))
                  (wf_New _) ltac:(vm_compute; discriminate) eq_refl
                  ltac:(vm_compute; discriminate))).
Defined.
(** ** The size of a transfer frame *)

Lemma lastSetIdxFrom_trailing (front back : list marshalField) (i last : Z) :
  Forall (fun f => omit f = true) back ->
  lastSetIdxFrom i last (front ++ back) = lastSetIdxFrom i last front.
Proof.
  intros Hback. revert i last.
  induction front as [ | f rest IH ]; intros i last; simpl.
  - now apply lastSetIdxFrom_all_omitted.
  - apply IH.
Qed.

Lemma lastSetIdxFrom_bound (fields : list marshalField) (i last : Z) :
  last < i ->
  last <= lastSetIdxFrom i last fields < i + len fields.
Proof.
  revert i last.
  induction fields as [ | f rest IH ]; intros i last Hlt; simpl.
  - unfold len. simpl. lia.
  - unfold len in *. simpl length.
    destruct (omit f).
    + specialize (IH (i + 1) last ltac:(lia)). lia.
    + specialize (IH (i + 1) i ltac:(lia)). lia.
Qed.

Section TrailingFields.

Variable marshal' : Buffer -> value -> Buffer * option error.

Lemma marshalFields_trailing (front back : list marshalField) (n : nat)
      (wr : Buffer) :
  (n <= length front)%nat ->
  marshalFields marshal' (front ++ back) n wr
  = marshalFields marshal' front n wr.
Proof.
  revert n wr.
  induction front as [ | f rest IH ]; intros n wr Hn.
  - destruct n; [ | simpl in Hn; lia ]. destruct back; reflexivity.
  - destruct n as [ | n ]; [ reflexivity | ]. simpl.
    simpl in Hn.
    destruct (omit f); [ apply IH; lia | ].
    destruct (marshal' wr (field_value f)) as [wr' [err | ]];
      [ reflexivity | apply IH; lia ].
Qed.

(** Omitted fields at the end of a composite are not encoded at all. *)
Lemma marshalComposite_trailing (wr : Buffer) (code : amqpType)
      (front back : list marshalField) :
  Forall (fun f => omit f = true) back ->
  marshalComposite_ marshal' wr code (front ++ back)
  = marshalComposite_ marshal' wr code front.
Proof.
  intros Hback. unfold marshalComposite_.
  rewrite (lastSetIdxFrom_trailing front back 0 (-1) Hback).
  destruct (lastSetIdxFrom 0 (-1) front =? -1); [ reflexivity | ].
  cbv zeta. rewrite marshalFields_trailing; [ reflexivity | ].
  pose proof (lastSetIdxFrom_bound front 0 (-1) ltac:(lia)).
  unfold len in *. lia.
Qed.

End TrailingFields.

Lemma len_concat_firstn {A : Type} (ls : list (list A)) (n : nat) :
  len (concat (firstn n ls)) <= len (concat ls).
Proof.
  revert n. induction ls as [ | x rest IH ]; intros n.
  - destruct n; simpl; lia.
  - destruct n as [ | n ]; simpl.
    + pose proof (len_nonneg (x ++ concat rest)). unfold len in *.
      simpl length. lia.
    + rewrite !len_app. specialize (IH n). lia.
Qed.

Lemma In_firstn_In {A : Type} (x : A) (n : nat) (ls : list A) :
  In x (firstn n ls) -> In x ls.
Proof.
  intros H. rewrite <- (firstn_skipn n ls). apply in_or_app. now left.
Qed.

(** The length of an encoded composite whose fields marshal. *)
Lemma marshalComposite_length (code : amqpType)
      (fields : list marshalField) :
  (forall f, In f fields -> omit f = false -> marshals (field_value f)) ->
  exists out,
    marshalComposite (buffer.New []) code fields = (buffer.New out, None)
    /\ len out <= 12 + len (concat (map fieldEncoding fields)).
Proof.
  intros Hok.
  assert (Happ : Forall (fun f => appendOnly
                                    (fun w => marshal w (field_value f)))
                        fields)
    by (apply Forall_forall; intros f _; apply marshal_appendOnly).
  unfold marshalComposite.
  rewrite (marshalComposite_explicit marshal _ code fields (wf_New [])
             Happ).
  cbv zeta.
  pose proof (len_nonneg (concat (map fieldEncoding fields))) as Hnn.
  destruct (lastSetIdxFrom 0 (-1) fields =? -1).
  - eexists. split; [ reflexivity | ]. unfold len. simpl length. lia.
  - rewrite marshalFields_ok.
    + cbn [fst snd]. eexists. split; [ reflexivity | ].
      cbn [buffer.b buffer.Write buffer.New app].
      rewrite <- firstn_map.
      pose proof (len_concat_firstn (map fieldEncoding fields)
                    (Z.to_nat (lastSetIdxFrom 0 (-1) fields + 1))).
      unfold binary.PutUint32. cbn [app]. unfold len in *.
      cbn [length]. lia.
    + apply wf_New.
    + intros f Hin. apply Hok. eapply In_firstn_In; eassumption.
Qed.

(** [writeFrame] into an empty buffer. *)
Lemma writeFrame_fresh (fr : frame) :
  marshals (body fr) ->
  8 + len (encoding (body fr)) <= MaxUint32 ->
  writeFrame (buffer.New []) fr
  = (buffer.New (binary.PutUint32 (8 + len (encoding (body fr)))
                   ++ [2; type_ fr] ++ binary.PutUint16 (channel fr)
                   ++ encoding (body fr)), None).
Proof.
  intros Hbody Hfit.
  pose proof (len_nonneg (encoding (body fr))) as Hn.
  unfold writeFrame, buffer.WriteUint16. rewrite Write_Write.
  rewrite marshal_append by (apply wf_Write, wf_New).
  rewrite Hbody, Write_Write.
  set (raw := ([0; 0; 0; 0; 2; type_ fr] ++ binary.PutUint16 (channel fr))
                ++ encoding (body fr)).
  assert (Hraw : len raw = 8 + len (encoding (body fr))).
  { unfold raw, len. rewrite !length_app.
    cbn [length binary.PutUint16]. lia. }
  assert (HLen : buffer.Len (buffer.Write (buffer.New []) raw)
                 = 8 + len (encoding (body fr)))
    by (rewrite Len_Write, Hraw;
        change (buffer.Len (buffer.New [])) with 0; lia).
  rewrite HLen.
  replace (buffer.Bytes (buffer.Write (buffer.New []) raw)) with raw
    by reflexivity.
  rewrite Hraw.
  destruct (Z.gtb_spec (8 + len (encoding (body fr))) MaxUint32)
    as [Hgt | _]; [ lia | ].
  rewrite to_uint32_len by lia.
  change 0 with (len (@nil byte)
                 - Z.of_nat (buffer.i (buffer.Write (buffer.New []) raw))).
  rewrite (PutUint32At_patch _ [] [0; 0; 0; 0]
             ([2; type_ fr] ++ binary.PutUint16 (channel fr)
                ++ encoding (body fr))); reflexivity.
Qed.

Lemma encoding_Uint32_length (x : Z) : 1 <= len (encoding (Uint32 x)) <= 5.
Proof.
  unfold encoding. cbn [marshal fst]. unfold writeUint32.
  destruct (x =? 0); [ | destruct (x <? 256) ];
    unfold len; simpl; lia.
Qed.

Lemma encoding_Binary_short (bin : list byte) :
  len bin < 256 ->
  marshals (Binary bin) /\ len (encoding (Binary bin)) = 2 + len bin.
Proof.
  intros Hl. unfold marshals, encoding. cbn [marshal]. unfold writeBinary.
  cbv zeta.
  replace (len bin <? 256) with true by (symmetry; apply Z.ltb_lt; lia).
  split; [ reflexivity | ].
  cbn [fst buffer.Write buffer.New buffer.b app].
  unfold len. cbn [length]. lia.
Qed.



Section TransferFrame.

Variable needsDeliveryID_value : Z.
Variable receiverSettleMode_marshal : ReceiverSettleMode -> value.
Variable deliveryState_marshal : DeliveryState -> value.

Local Notation transferBody :=
  (performTransfer_marshal needsDeliveryID_value receiverSettleMode_marshal
                           deliveryState_marshal).

(** The encoded frame of a transfer as [send] builds it, and its
    length. *)
Lemma transfer_frame_bound (ty ch : Z) (t : frames.PerformTransfer) :
  asSent t ->
  len (frames.DeliveryTag t) <= 32 ->
  len (frames.Payload t) + 39 + len (frames.DeliveryTag t) <= MaxUint32 ->
  exists encoded,
    writeFrame (buffer.New []) (mkFrame ty ch (transferBody t))
    = (buffer.New encoded, None)
    /\ len encoded
       <= len (frames.Payload t)
          + 27
          + (if isSome (frames.DeliveryID t) then 5 else 1)
          + (if len (frames.DeliveryTag t) =? 0 then 1
             else 2 + len (frames.DeliveryTag t))
          + (if isSome (frames.MessageFormat t) then 5 else 1).
Proof.
  intros Hsent Htag Hpay.
  destruct Hsent as [Hmode [Hstate [Hresume [Haborted Hbatchable]]]].
  pose proof (len_nonneg (frames.DeliveryTag t)) as Htag0.
  pose proof (len_nonneg (frames.Payload t)) as Hpay0.
  destruct (encoding_Binary_short (frames.DeliveryTag t) ltac:(lia))
    as [Hbin Hbinlen].
  set (front :=
         [(Uint32 (frames.Handle t), false);
          (match frames.DeliveryID t with
           | Some r => Uint32 (deliveryIDValue needsDeliveryID_value r)
           | None => Nil
           end, negb (isSome (frames.DeliveryID t)));
          (Binary (frames.DeliveryTag t), len (frames.DeliveryTag t) =? 0);
          (match frames.MessageFormat t with
           | Some format => Uint32 format
           | None => Nil
           end, negb (isSome (frames.MessageFormat t)));
          (Bool (frames.Settled t), negb (frames.Settled t));
          (Bool (frames.More t), negb (frames.More t))]).
  set (back := [(Nil, true); (Nil, true); (Bool false, true);
                (Bool false, true); (Bool false, true)]).
  assert (Hfront : forall f, In f front -> omit f = false ->
                             marshals (field_value f)).
  { intros f [<- | [<- | [<- | [<- | [<- | [<- | []]]]]]] Ho;
      try reflexivity; try exact Hbin.
    - destruct (frames.DeliveryID t); [ reflexivity | discriminate ].
    - destruct (frames.MessageFormat t); [ reflexivity | discriminate ]. }
  destruct (marshalComposite_length typeCodeTransfer front Hfront)
    as [out [Hout Hlen]].
  assert (Hsum : len (concat (map fieldEncoding front))
                 <= 5
                    + (if isSome (frames.DeliveryID t) then 5 else 1)
                    + (if len (frames.DeliveryTag t) =? 0 then 1
                       else 2 + len (frames.DeliveryTag t))
                    + (if isSome (frames.MessageFormat t) then 5 else 1)
                    + 1 + 1).
  { unfold front. cbn [map concat]. rewrite !len_app.
    unfold fieldEncoding. cbn [omit field_value fst snd].
    pose proof (encoding_Uint32_length (frames.Handle t)).
    assert (len (if negb (isSome (frames.DeliveryID t))
                 then [typeCodeNull]
                 else encoding
                        match frames.DeliveryID t with
                        | Some r =>
                            Uint32 (deliveryIDValue needsDeliveryID_value r)
                        | None => Nil
                        end)
            <= (if isSome (frames.DeliveryID t) then 5 else 1)).
    { destruct (frames.DeliveryID t) as [r | ]; cbn [isSome negb].
      - apply encoding_Uint32_length.
      - unfold len. simpl. lia. }
    assert (len (if len (frames.DeliveryTag t) =? 0 then [typeCodeNull]
                 else encoding (Binary (frames.DeliveryTag t)))
            <= (if len (frames.DeliveryTag t) =? 0 then 1
                else 2 + len (frames.DeliveryTag t))).
    { destruct (len (frames.DeliveryTag t) =? 0).
      - unfold len. simpl. lia.
      - lia. }
    assert (len (if negb (isSome (frames.MessageFormat t))
                 then [typeCodeNull]
                 else encoding
                        match frames.MessageFormat t with
                        | Some format => Uint32 format
                        | None => Nil
                        end)
            <= (if isSome (frames.MessageFormat t) then 5 else 1)).
    { destruct (frames.MessageFormat t) as [r | ]; cbn [isSome negb].
      - apply encoding_Uint32_length.
      - unfold len. simpl. lia. }
    assert (len (if negb (frames.Settled t) then [typeCodeNull]
                 else encoding (Bool (frames.Settled t))) <= 1)
      by (destruct (frames.Settled t); unfold len; simpl; lia).
    assert (len (if negb (frames.More t) then [typeCodeNull]
                 else encoding (Bool (frames.More t))) <= 1)
      by (destruct (frames.More t); unfold len; simpl; lia).
    change (len (@nil byte)) with 0. lia. }
  assert (Hbody : marshal (buffer.New []) (transferBody t)
                  = (buffer.New (out ++ frames.Payload t), None)).
  { unfold performTransfer_marshal.
    rewrite Hmode, Hstate, Hresume, Haborted, Hbatchable.
    transitivity
      (match marshalComposite_ marshal (buffer.New []) typeCodeTransfer
                               (front ++ back) with
       | (wr, Some err) => (wr, Some err)
       | (wr, None) => (buffer.Write wr (frames.Payload t), None)
       end); [ reflexivity | ].
    rewrite marshalComposite_trailing by (repeat constructor).
    unfold marshalComposite in Hout. rewrite Hout. reflexivity. }
  assert (Hm : marshals (transferBody t))
    by (unfold marshals; rewrite Hbody; reflexivity).
  assert (He : encoding (transferBody t) = out ++ frames.Payload t)
    by (unfold encoding; rewrite Hbody; reflexivity).
  pose proof (len_nonneg out) as Hout0.
  assert (Hfit : 8 + len (encoding (transferBody t)) <= MaxUint32).
  { rewrite He, len_app.
    destruct (isSome (frames.DeliveryID t));
      destruct (len (frames.DeliveryTag t) =? 0);
      destruct (isSome (frames.MessageFormat t)); lia. }
  eexists. split.
  - apply (writeFrame_fresh (mkFrame ty ch (transferBody t)) Hm Hfit).
  - cbn [body type_ channel]. rewrite He.
    unfold binary.PutUint32, binary.PutUint16. cbn [app].
    unfold len in *. cbn [length]. rewrite length_app.
    destruct (isSome (frames.DeliveryID t));
      destruct (Z.of_nat (length (frames.DeliveryTag t)) =? 0);
      destruct (isSome (frames.MessageFormat t)); lia.
Qed.

(** X12: a transfer as [send] builds it, with no receiver-settle-mode
    and no state and with the flags resume, aborted and batchable
    unset, takes when written by [writeFrame], besides its payload, at
    most 39 bytes and its delivery-tag: 71 bytes for a tag of the
    greatest length allowed, 32.  Such a transfer that continues a
    delivery, carrying no delivery-id, delivery-tag or message-format,
    takes at most 30 bytes besides its payload. *)
Theorem transfer_frame_size (ty ch : Z)
        (t : frames.PerformTransfer) :
  asSent t ->
  len (frames.DeliveryTag t) <= 32 ->
  len (frames.Payload t) + 39 + len (frames.DeliveryTag t) <= MaxUint32 ->
  exists encoded,
    writeFrame (buffer.New []) (mkFrame ty ch (transferBody t))
    = (buffer.New encoded, None)
    /\ len encoded
       <= len (frames.Payload t) + 39 + len (frames.DeliveryTag t)
    /\ (frames.DeliveryID t = None -> frames.DeliveryTag t = [] ->
        frames.MessageFormat t = None ->
        len encoded <= len (frames.Payload t) + 30).
Proof.
  intros Hsent Htag Hpay.
  destruct (transfer_frame_bound ty ch t Hsent Htag Hpay)
    as [encoded [Hw Hlen]].
  pose proof (len_nonneg (frames.DeliveryTag t)) as Htag0.
  exists encoded. split; [ exact Hw | split ].
  - destruct (isSome (frames.DeliveryID t));
      destruct (Z.eqb_spec (len (frames.DeliveryTag t)) 0);
      destruct (isSome (frames.MessageFormat t)); lia.
  - intros Hid Ht Hf. rewrite Hid, Ht, Hf in Hlen.
    cbn [isSome] in Hlen. change (len (@nil byte) =? 0) with true in Hlen.
    cbv iota in Hlen. lia.
Qed.


Variable Marshal : Message -> Buffer -> Buffer * option error.


End TransferFrame.

Lemma transfer_frame_size_witness :
  exists encoded,
    writeFrame (buffer.New [])
               (mkFrame 0 0 (performTransfer_marshal 0 exampleMode
                               exampleState longestTransfer))
    = (buffer.New encoded, None)
    /\ len encoded <= 3 + 39 + 32.
Proof.
  destruct (transfer_frame_size 0 exampleMode exampleState 0 0
              longestTransfer
              ltac:(repeat split)
              ltac:(vm_compute; discriminate)
              ltac:(vm_compute; discriminate))
    as [encoded [Hw [Hlen _]]].
  exists encoded. split; [ exact Hw | exact Hlen ].
Defined.


(** The bound of 71 bytes is reached: besides its payload this
    transfer takes 71 bytes, 5 more than the 66 that [send] leaves
    for the header of a transfer. *)
Example transfer_header_of_71_bytes :
  buffer.Len (fst (writeFrame (buffer.New [])
                     (mkFrame 0 0 (performTransfer_marshal 0 exampleMode
                                     exampleState longestTransfer))))
  = 71 + len (frames.Payload longestTransfer).
Proof. reflexivity. Qed.
(** ** send, continued *)

Section SendMore.

Variable Marshal : Message -> Buffer -> Buffer * option error.

(** The four ways through [send]: one per check that fails, and the
    loop. *)
Lemma send_inv (fuel : nat) (sel : nat -> sendSelect) (s s' : Sender)
      (msg : Message) (r : option (bool * option error)) :
  send Marshal fuel sel s msg = (s', r) ->
  (len (DeliveryTag msg) > 32 /\ s' = s
   /\ r = Some (false, Some (errDeliveryTag (len (DeliveryTag msg)))))
  \/ (exists b e, Marshal msg (buffer.Reset (buf s)) = (b, Some e)
                  /\ s' = set_buf s b /\ r = Some (false, Some e))
  \/ (exists b, Marshal msg (buffer.Reset (buf s)) = (b, None)
                /\ maxMessageSize (l s) <> 0
                /\ buffer.Len b > maxMessageSize (l s)
                /\ s' = set_buf s b
                /\ r = Some (false,
                             Some (errMessageSize (maxMessageSize (l s)))))
  \/ (exists b, len (DeliveryTag msg) <= 32
                /\ Marshal msg (buffer.Reset (buf s)) = (b, None)
                /\ (maxMessageSize (l s) = 0
                    \/ buffer.Len b <= maxMessageSize (l s))
                /\ sendLoop fuel sel 0
                     (peerMaxFrameSize (session_conn (session (l s))) - 66)
                     (settledFor s msg) (senderAtLoop s msg b)
                     (firstTransfer s msg b) = (s', r)).
Proof.
  intros Hsend.
  destruct (Z.gtb_spec (len (DeliveryTag msg)) 32) as [Hgt | Hle].
  - left. unfold send in Hsend.
    change maxDeliveryTagLength with 32 in Hsend.
    destruct (Z.gtb_spec (len (DeliveryTag msg)) 32); [ | lia ].
    injection Hsend as <- <-. repeat split. lia.
  - right.
    destruct (Marshal msg (buffer.Reset (buf s))) as [b [e | ]] eqn:HM.
    + left. exists b, e. unfold send in Hsend. rewrite HM in Hsend.
      change maxDeliveryTagLength with 32 in Hsend.
      destruct (Z.gtb_spec (len (DeliveryTag msg)) 32); [ lia | ].
      injection Hsend as <- <-. repeat split.
    + right.
      destruct (Z.eq_dec (maxMessageSize (l s)) 0) as [Hz | Hnz].
      * right. exists b.
        rewrite (send_reaches_loop Marshal fuel sel s msg b Hle HM
                   (or_introl Hz)) in Hsend.
        repeat split; auto.
      * destruct (Z.gtb_spec (buffer.Len b) (maxMessageSize (l s)))
          as [Hbig | Hfit].
        -- left. exists b.
           rewrite (send_too_large Marshal fuel sel s msg b Hle HM Hnz)
             in Hsend by lia.
           injection Hsend as <- <-. repeat split; auto. lia.
        -- right. exists b.
           rewrite (send_reaches_loop Marshal fuel sel s msg b Hle HM
                      (or_intror Hfit)) in Hsend.
           repeat split; auto.
Qed.

(** An accepted message went through the loop, with frames that can
    carry at least one byte. *)
Lemma send_accepted_loop (fuel : nat) (sel : nat -> sendSelect)
      (s s' : Sender) (msg : Message) :
  send Marshal fuel sel s msg = (s', Some (true, None)) ->
  exists b frs,
    Marshal msg (buffer.Reset (buf s)) = (b, None)
    /\ 0 < peerMaxFrameSize (session_conn (session (l s))) - 66
    /\ transfers s' = transfers s ++ frs
    /\ l s' = l s
    /\ map frames.Payload frs
       = chunks (Z.to_nat (peerMaxFrameSize (session_conn (session (l s)))
                           - 66))
                (buffer.Bytes b)
    /\ (forall k f, nth_error frs k = Some f ->
                    frameOf (firstTransfer s msg b) (settledFor s msg)
                            k (length frs) f)
    /\ (forall k, sel k <> transferTaken -> (length frs <= k)%nat)
    /\ frs <> [].
Proof.
  intros Hsend.
  destruct (send_inv fuel sel s s' msg _ Hsend)
    as [[_ [_ H]] | [[b [e [_ [_ H]]]] | [[b [_ [_ [_ [_ H]]]]]
                                         | [b [Htag [HM [Hsize Hrun]]]]]]];
    try discriminate.
  set (max := peerMaxFrameSize (session_conn (session (l s))) - 66) in *.
  assert (Hmore : frames.More (firstTransfer s msg b)
                  = (buffer.Len (buf (senderAtLoop s msg b)) >? 0)).
  { unfold firstTransfer, senderAtLoop.
    destruct (len (DeliveryTag msg) =? 0); reflexivity. }
  destruct (Z.lt_ge_cases 0 max) as [Hpos | Hnonpos].
  2:{ exfalso. revert Hrun.
      apply sendLoop_nonpos_never; [ lia | exact Hmore | reflexivity ]. }
  destruct (sendLoop_accepted sel max _ Hpos fuel 0%nat _ _ s' Hmore Hrun)
    as [frs [Htrs [Hl [_ [Hpay [Hfr Hsel]]]]]].
  exists b, frs.
  assert (Hbuf : buf (senderAtLoop s msg b) = b)
    by (unfold senderAtLoop; destruct (len (DeliveryTag msg) =? 0);
        reflexivity).
  assert (Htr0 : transfers (senderAtLoop s msg b) = transfers s)
    by (unfold senderAtLoop; destruct (len (DeliveryTag msg) =? 0);
        reflexivity).
  assert (Hl0 : l (senderAtLoop s msg b) = l s)
    by (unfold senderAtLoop; destruct (len (DeliveryTag msg) =? 0);
        reflexivity).
  rewrite Hbuf in Hpay. rewrite Htr0 in Htrs. rewrite Hl0 in Hl.
  repeat (split; [ assumption | ]).
  intros ->.
  destruct (frames.More (firstTransfer s msg b)) eqn:Hm.
  - rewrite Hbuf in Hmore. symmetry in Hmore.
    assert (Hlen : buffer.Len b > 0)
      by (destruct (Z.gtb_spec (buffer.Len b) 0); [ lia | discriminate ]).
    rewrite (Len_Bytes b Hlen) in Hlen.
    destruct (buffer.Bytes b) as [ | c p ];
      [ unfold len in Hlen; simpl in Hlen; lia | discriminate ].
  - rewrite sendLoop_last in Hrun by exact Hm. discriminate.
Qed.

(** X14: the transfers of an accepted message all carry the link's
    handle; the completion channel is attached to the last one only,
    and the last one only can be settled: it is exactly when the
    sender's settlement mode is settled, or is mixed and the message
    asks for it. *)
Theorem send_settled_last (fuel : nat) (sel : nat -> sendSelect)
        (s s' : Sender) (msg : Message) :
  send Marshal fuel sel s msg = (s', Some (true, None)) ->
  exists frs,
    transfers s' = transfers s ++ frs
    /\ frs <> []
    /\ forall k f, nth_error frs k = Some f ->
         frames.Handle f = handle (l s)
         /\ (frames.Done f = true <-> S k = length frs)
         /\ (frames.Settled f = true <->
             S k = length frs /\
             (senderSettleMode (l s) = Some SenderSettleModeSettled
              \/ senderSettleMode (l s) = Some SenderSettleModeMixed
                 /\ SendSettled msg = true)).
Proof.
  intros Hsend.
  destruct (send_accepted_loop fuel sel s s' msg Hsend)
    as [b [frs [HM [Hmax [Htr [Hl [Hpay [Hfr [Hsel Hne]]]]]]]]].
  exists frs. split; [ exact Htr | ].
  assert (Hsettled : settledFor s msg = true <->
                     (senderSettleMode (l s) = Some SenderSettleModeSettled
                      \/ senderSettleMode (l s) = Some SenderSettleModeMixed
                         /\ SendSettled msg = true)).
  { unfold settledFor.
    destruct (senderSettleMode (l s)) as [[ | | ] | ];
      destruct (SendSettled msg); cbn; split; intros H;
      try reflexivity; try discriminate;
      try (left; reflexivity); try (right; split; reflexivity);
      destruct H as [H | [H H']]; discriminate. }
  split; [ exact Hne | ].
  intros k f Hf.
  destruct (Hfr k f Hf) as [Hmore [Hh [_ [_ [Hs Hd]]]]].
  assert (Hk : (k < length frs)%nat)
    by (apply nth_error_Some; congruence).
  split; [ exact Hh | ].
  cbn [firstTransfer frames.Settled frames.Done] in Hs, Hd.
  destruct (Nat.ltb_spec (S k) (length frs)) as [Hlt | Hge];
    rewrite Hmore in Hs, Hd.
  - rewrite Hs, Hd. split; split; try discriminate; try lia.
  - rewrite Hs, Hd, <- Hsettled.
    assert (E : S k = length frs) by lia.
    split; split; auto. intros [_ H]. exact H.
Qed.

(** X15: the number of transfers of an accepted message is the
    marshaled length divided by peerMaxFrameSize - 66, rounded up, and
    is at least one. *)
Theorem send_transfer_count (fuel : nat) (sel : nat -> sendSelect)
        (s s' : Sender) (msg : Message) :
  send Marshal fuel sel s msg = (s', Some (true, None)) ->
  let marshaled := buffer.Bytes (fst (Marshal msg (buffer.Reset (buf s)))) in
  let maxPayloadSize :=
    peerMaxFrameSize (session_conn (session (l s))) - 66 in
  exists frs,
    transfers s' = transfers s ++ frs
    /\ len frs = (len marshaled + maxPayloadSize - 1) / maxPayloadSize
    /\ 1 <= len frs.
Proof.
  intros Hsend marshaled maxPayloadSize.
  destruct (send_accepted_loop fuel sel s s' msg Hsend)
    as [b [frs [HM [Hmax [Htr [Hl [Hpay [Hfr [Hsel Hne]]]]]]]]].
  exists frs. split; [ exact Htr | ].
  fold maxPayloadSize in Hmax, Hpay.
  assert (Hm : marshaled = buffer.Bytes b)
    by (unfold marshaled; rewrite HM; reflexivity).
  split.
  - unfold len. rewrite <- (length_map frames.Payload frs), Hpay, Hm.
    rewrite chunks_length by lia. rewrite Z2Nat.id by lia. reflexivity.
  - destruct frs; [ congruence | ]. unfold len. simpl length. lia.
Qed.

(** X16: [send] returns.  For a message that passes the three checks,
    a peer whose frames are larger than the transfer header and a mux
    that takes every frame, the loop ends after at most as many
    iterations as there are chunks, and [send] returns without error;
    it returns the completion channel exactly when the marshaled
    message is not empty. *)
Theorem send_returns (fuel : nat) (s : Sender) (msg : Message)
        (b : Buffer) :
  len (DeliveryTag msg) <= 32 ->
  Marshal msg (buffer.Reset (buf s)) = (b, None) ->
  maxMessageSize (l s) = 0 \/ buffer.Len b <= maxMessageSize (l s) ->
  let maxPayloadSize :=
    peerMaxFrameSize (session_conn (session (l s))) - 66 in
  0 < maxPayloadSize ->
  buffer.Len b <= Z.of_nat fuel * maxPayloadSize ->
  exists s',
    send Marshal fuel allTaken s msg
    = (s', Some (buffer.Len b >? 0, None)).
Proof.
  intros Htag HM Hsize maxPayloadSize Hmax Hfuel.
  rewrite (send_reaches_loop Marshal fuel allTaken s msg b Htag HM Hsize).
  fold maxPayloadSize.
  assert (Hbuf : buf (senderAtLoop s msg b) = b)
    by (unfold senderAtLoop; destruct (len (DeliveryTag msg) =? 0);
        reflexivity).
  destruct (sendLoop_returns maxPayloadSize (settledFor s msg) Hmax fuel
              0%nat (senderAtLoop s msg b) (firstTransfer s msg b))
    as [s' Hs'].
  - rewrite Hbuf. reflexivity.
  - rewrite Hbuf. exact Hfuel.
  - exists s'. rewrite Hs'. cbn [firstTransfer frames.More frames.Done].
    now rewrite orb_false_r.
Qed.

End SendMore.

Lemma send_settled_last_witness :
  exists frs,
    transfers (fst (send Message_Marshal 9 allTaken (exampleSender 128 0)
                         (NewMessage testPayload)))
    = transfers (exampleSender 128 0) ++ frs
    /\ map frames.Done frs
       = [false; false; false; false; false; false; false; false; true]
    /\ map frames.Settled frs = repeat false 9.
Proof.
  destruct (send_settled_last Message_Marshal 9 allTaken
              (exampleSender 128 0)
              (fst (send Message_Marshal 9 allTaken (exampleSender 128 0)
                         (NewMessage testPayload)))
              (NewMessage testPayload) ltac:(vm_compute; reflexivity))
    as [frs [Htr _]].
  exists frs. split; [ exact Htr | ].
  vm_compute in Htr. subst frs. split; reflexivity.
Defined.

Lemma send_transfer_count_witness :
  exists frs,
    transfers (fst (send Message_Marshal 9 allTaken (exampleSender 128 0)
                         (NewMessage testPayload)))
    = transfers (exampleSender 128 0) ++ frs
    /\ len frs = (520 + 62 - 1) / 62.
Proof.
  destruct (send_transfer_count Message_Marshal 9 allTaken
              (exampleSender 128 0)
              (fst (send Message_Marshal 9 allTaken (exampleSender 128 0)
                         (NewMessage testPayload)))
              (NewMessage testPayload) ltac:(vm_compute; reflexivity))
    as [frs [Htr [Hn _]]].
  exists frs. split; [ exact Htr | ].
  rewrite Hn. vm_compute. reflexivity.
Defined.

Lemma send_returns_witness :
  exists s',
    send Message_Marshal 9 allTaken (exampleSender 128 0)
         (NewMessage testPayload)
    = (s', Some (true, None)).
Proof.
  destruct (send_returns Message_Marshal 9 (exampleSender 128 0)
              (NewMessage testPayload)
              (fst (Message_Marshal (NewMessage testPayload)
                                    (buffer.New [])))
              ltac:(vm_compute; discriminate)
              ltac:(vm_compute; reflexivity)
              ltac:(left; reflexivity)
              ltac:(vm_compute; reflexivity)
              ltac:(vm_compute; discriminate))
    as [s' Hs'].
  exists s'. exact Hs'.
Defined.
Lemma Bytes_nonempty_Len (wr : Buffer) :
  buffer.Bytes wr <> [] -> buffer.Len wr > 0.
Proof.
  intros Hne. destruct (Z.lt_ge_cases 0 (buffer.Len wr)) as [H | H];
    [ lia | ].
  exfalso. apply Hne. apply Bytes_nil. lia.
Qed.

Lemma chunks_nonempty (n : nat) (p : list byte) :
  chunks n p <> [] -> p <> [].
Proof. intros H E. apply H. rewrite E. reflexivity. Qed.

(** The loop interrupted at its iteration [k]: the link terminates or
    the context is done before the mux takes the frame. *)
Lemma sendLoop_interrupted (sel : nat -> sendSelect) (max : Z)
      (settled : bool) :
  0 < max ->
  forall k fuel n s fr,
    (k < fuel)%nat ->
    (forall j, (j < k)%nat -> sel (n + j)%nat = transferTaken) ->
    sel (n + k)%nat <> transferTaken ->
    (k < length (chunks (Z.to_nat max) (buffer.Bytes (buf s))))%nat ->
    frames.More fr = (buffer.Len (buf s) >? 0) ->
    exists s' frs,
      sendLoop fuel sel n max settled s fr
      = (s', Some (false, selectError (sel (n + k)%nat)))
      /\ transfers s' = transfers s ++ frs
      /\ map frames.Payload frs
         = firstn k (chunks (Z.to_nat max) (buffer.Bytes (buf s)))
      /\ Forall (fun f => frames.More f = true) frs
      /\ nextDeliveryTag s' = nextDeliveryTag s.
Proof.
  intros Hmax.
  induction k as [ | k IH ]; intros fuel n s fr Hfuel Htaken Hsel Hk Hmore.
  - destruct fuel as [ | fuel ]; [ lia | ].
    assert (Hne : buffer.Bytes (buf s) <> []).
    { apply (chunks_nonempty (Z.to_nat max)). intros E. rewrite E in Hk.
      simpl in Hk. lia. }
    pose proof (Bytes_nonempty_Len _ Hne) as Hlen.
    assert (Hm : frames.More fr = true).
    { rewrite Hmore. destruct (Z.gtb_spec (buffer.Len (buf s)) 0);
        [ reflexivity | lia ]. }
    destruct (Next_pos (buf s) max Hlen Hmax)
      as [ok [rest [Hnext [Hrest Hrlen]]]].
    rewrite Nat.add_0_r in *.
    simpl. rewrite Hm, Hnext. simpl negb. cbv iota.
    destruct (sel n) as [ | d | err ]; [ congruence | | ].
    + eexists. exists []. split; [ reflexivity | ].
      cbn. rewrite app_nil_r. repeat split. constructor.
    + eexists. exists []. split; [ reflexivity | ].
      cbn. rewrite app_nil_r. repeat split. constructor.
  - destruct fuel as [ | fuel ]; [ lia | ].
    assert (Hne : buffer.Bytes (buf s) <> []).
    { apply (chunks_nonempty (Z.to_nat max)). intros E. rewrite E in Hk.
      simpl in Hk. lia. }
    pose proof (Bytes_nonempty_Len _ Hne) as Hlen.
    assert (Hm : frames.More fr = true).
    { rewrite Hmore. destruct (Z.gtb_spec (buffer.Len (buf s)) 0);
        [ reflexivity | lia ]. }
    destruct (Next_pos (buf s) max Hlen Hmax)
      as [ok [rest [Hnext [Hrest Hrlen]]]].
    rewrite (chunks_cons (Z.to_nat max) _ ltac:(lia) Hne) in Hk |- *.
    cbn [length] in Hk. rewrite <- Hrest in Hk |- *.
    assert (Hrne : buffer.Bytes rest <> []).
    { apply (chunks_nonempty (Z.to_nat max)). intros E. rewrite E in Hk.
      simpl in Hk. lia. }
    pose proof (Bytes_nonempty_Len _ Hrne) as Hrestlen.
    assert (H0 : sel n = transferTaken).
    { rewrite <- (Nat.add_0_r n). apply Htaken. lia. }
    simpl. rewrite Hm, Hnext. simpl negb. cbv iota. rewrite H0.
    cbn [buf set_buf].
    match goal with
    | |- exists s' frs, sendLoop _ _ _ _ _ ?s2 ?fr2 = _ /\ _ =>
        destruct (IH fuel (S n) s2 fr2) as [s' [frs [Hrun [Htr [Hpay
                                             [Hall Htag]]]]]]
    end.
    + lia.
    + intros j Hj. replace (S n + j)%nat with (n + S j)%nat by lia.
      apply Htaken. lia.
    + replace (S n + k)%nat with (n + S k)%nat by lia. exact Hsel.
    + cbn [buf set_buf set_transfers]. lia.
    + reflexivity.
    + cbn [buf set_buf set_transfers transfers nextDeliveryTag] in *.
      replace (S n + k)%nat with (n + S k)%nat in Hrun by lia.
      exists s'. eexists (_ :: frs).
      split; [ exact Hrun | ]. split; [ | split; [ | split ] ].
      * rewrite Htr, <- app_assoc. reflexivity.
      * cbn [map firstn frames.Payload]. rewrite Hpay. reflexivity.
      * constructor; [ | exact Hall ]. cbn [frames.More].
        destruct (Z.gtb_spec (buffer.Len rest) 0); [ reflexivity | lia ].
      * exact Htag.
Qed.

(** The loop with frames that carry no byte: each iteration hands
    over an empty transfer that announces more. *)
Lemma sendLoop_zero_frames (settled : bool) :
  forall fuel n s fr,
    frames.More fr = true -> buffer.Len (buf s) > 0 ->
    exists s' frs,
      sendLoop fuel allTaken n 0 settled s fr = (s', None)
      /\ transfers s' = transfers s ++ frs
      /\ length frs = fuel
      /\ Forall (fun f => frames.Payload f = [] /\ frames.More f = true) frs.
Proof.
  induction fuel as [ | fuel IH ]; intros n s fr Hmore Hlen;
    simpl; rewrite Hmore; simpl negb; cbv iota.
  - exists s, []. rewrite app_nil_r. repeat split. constructor.
  - rewrite (Next_zero _ Hlen). cbn [buf set_buf].
    destruct (Z.gtb_spec (buffer.Len (buf s)) 0) as [_ | Hle]; [ | lia ].
    unfold allTaken at 1.
    match goal with
    | |- exists s' frs, sendLoop _ _ _ _ _ ?s2 ?fr2 = _ /\ _ =>
        destruct (IH (S n) s2 fr2) as [s' [frs [Hrun [Htr [Hn Hall]]]]];
        [ reflexivity | exact Hlen | ]
    end.
    cbn [transfers set_transfers] in Htr.
    exists s'. eexists (_ :: frs). split; [ exact Hrun | ].
    split; [ rewrite Htr, <- app_assoc; reflexivity | ].
    split; [ simpl; lia | ].
    constructor; [ split; reflexivity | exact Hall ].
Qed.

(** The loop with frames of negative size. *)
Lemma sendLoop_panic (sel : nat -> sendSelect) (max : Z) (settled : bool)
      (fuel n : nat) (s : Sender) (fr : frames.PerformTransfer) :
  frames.More fr = true -> buffer.Len (buf s) > 0 -> max < 0 ->
  sendLoop (S fuel) sel n max settled s fr
  = (s, Some (false, Some (Panic "slice bounds out of range"))).
Proof.
  intros Hm Hlen Hmax. simpl. rewrite Hm. simpl negb. cbv iota.
  rewrite Next_neg by assumption. reflexivity.
Qed.

Section SendEdges.

Variable Marshal : Message -> Buffer -> Buffer * option error.

Lemma senderAtLoop_fields (s : Sender) (msg : Message) (b : Buffer) :
  buf (senderAtLoop s msg b) = b
  /\ transfers (senderAtLoop s msg b) = transfers s
  /\ l (senderAtLoop s msg b) = l s.
Proof.
  unfold senderAtLoop. destruct (len (DeliveryTag msg) =? 0);
    repeat split.
Qed.

Lemma firstTransfer_More (s : Sender) (msg : Message) (b : Buffer) :
  frames.More (firstTransfer s msg b)
  = (buffer.Len (buf (senderAtLoop s msg b)) >? 0).
Proof.
  rewrite (proj1 (senderAtLoop_fields s msg b)). reflexivity.
Qed.

(** X17: a send that is interrupted.  When the message has passed the
    three checks and the link terminates or the context is done at the
    iteration [k] of the loop, before the last chunk has been handed
    over, [send] returns that error and no completion channel; the
    first [k] chunks have been handed over, each in a transfer that
    announces more, and nothing ends the delivery; a tag taken from
    the counter stays consumed. *)
Theorem send_interrupted (fuel : nat) (sel : nat -> sendSelect)
        (s : Sender) (msg : Message) (b : Buffer) (k : nat) :
  len (DeliveryTag msg) <= 32 ->
  Marshal msg (buffer.Reset (buf s)) = (b, None) ->
  maxMessageSize (l s) = 0 \/ buffer.Len b <= maxMessageSize (l s) ->
  let maxPayloadSize :=
    peerMaxFrameSize (session_conn (session (l s))) - 66 in
  0 < maxPayloadSize ->
  (forall j, (j < k)%nat -> sel j = transferTaken) ->
  sel k <> transferTaken ->
  (k < length (chunks (Z.to_nat maxPayloadSize) (buffer.Bytes b)))%nat ->
  (k < fuel)%nat ->
  exists s' frs,
    send Marshal fuel sel s msg = (s', Some (false, selectError (sel k)))
    /\ transfers s' = transfers s ++ frs
    /\ map frames.Payload frs
       = firstn k (chunks (Z.to_nat maxPayloadSize) (buffer.Bytes b))
    /\ Forall (fun f => frames.More f = true) frs
    /\ (len (DeliveryTag msg) = 0 ->
        nextDeliveryTag s' = to_uint64 (nextDeliveryTag s + 1)).
Proof.
  intros Htag HM Hsize maxPayloadSize Hmax Htaken Hsel Hk Hfuel.
  rewrite (send_reaches_loop Marshal fuel sel s msg b Htag HM Hsize).
  fold maxPayloadSize.
  destruct (senderAtLoop_fields s msg b) as [Hbuf [Htr0 Hl0]].
  destruct (sendLoop_interrupted sel maxPayloadSize (settledFor s msg) Hmax
              k fuel 0%nat (senderAtLoop s msg b) (firstTransfer s msg b))
    as [s' [frs [Hrun [Htr [Hpay [Hall Hnext]]]]]]; auto.
  - rewrite Hbuf. exact Hk.
  - apply firstTransfer_More.
  - exists s', frs. cbn [Nat.add] in Hrun.
    split; [ exact Hrun | ].
    rewrite Htr0 in Htr. rewrite Hbuf in Hpay.
    repeat (split; [ assumption | ]).
    intros Hz. rewrite Hnext. unfold senderAtLoop. rewrite Hz. reflexivity.
Qed.

(** X18: a peer whose max-frame-size does not exceed the 66 bytes
    reserved for the transfer header.  A message that is not empty is
    then never sent: with exactly 66 the loop of [send] does not end
    and hands over one empty transfer per iteration; with less, the
    first read of the buffer panics. *)
Theorem send_header_sized_frames (s : Sender) (msg : Message) (b : Buffer) :
  len (DeliveryTag msg) <= 32 ->
  Marshal msg (buffer.Reset (buf s)) = (b, None) ->
  maxMessageSize (l s) = 0 \/ buffer.Len b <= maxMessageSize (l s) ->
  buffer.Len b > 0 ->
  let peerMax := peerMaxFrameSize (session_conn (session (l s))) in
  (peerMax = 66 ->
   forall fuel, exists s' frs,
     send Marshal fuel allTaken s msg = (s', None)
     /\ transfers s' = transfers s ++ frs
     /\ length frs = fuel
     /\ Forall (fun f => frames.Payload f = [] /\ frames.More f = true) frs)
  /\
  (peerMax < 66 ->
   forall fuel sel,
     send Marshal (S fuel) sel s msg
     = (senderAtLoop s msg b,
        Some (false, Some (Panic "slice bounds out of range")))).
Proof.
  intros Htag HM Hsize Hlen peerMax.
  destruct (senderAtLoop_fields s msg b) as [Hbuf [Htr0 Hl0]].
  assert (Hm : frames.More (firstTransfer s msg b) = true).
  { rewrite firstTransfer_More, Hbuf.
    destruct (Z.gtb_spec (buffer.Len b) 0); [ reflexivity | lia ]. }
  split.
  - intros Hp fuel.
    rewrite (send_reaches_loop Marshal fuel allTaken s msg b Htag HM Hsize).
    fold peerMax. rewrite Hp. change (66 - 66) with 0.
    destruct (sendLoop_zero_frames (settledFor s msg) fuel 0%nat
                (senderAtLoop s msg b) (firstTransfer s msg b) Hm)
      as [s' [frs [Hrun [Htr [Hn Hall]]]]].
    + rewrite Hbuf. exact Hlen.
    + exists s', frs. rewrite Htr0 in Htr. repeat split; assumption.
  - intros Hp fuel sel.
    rewrite (send_reaches_loop Marshal (S fuel) sel s msg b Htag HM Hsize).
    fold peerMax.
    apply sendLoop_panic; [ exact Hm | rewrite Hbuf; exact Hlen | lia ].
Qed.

(** X19: a message that fails one of the three checks of [send] (a
    delivery-tag of more than 32 bytes, a marshaling error, a
    marshaled size over the link's maximum) makes it return an error
    and no completion channel; no transfer is handed over, the link is
    not touched and the tag counter keeps its value. *)
Theorem send_failed_check (fuel : nat) (sel : nat -> sendSelect)
        (s s' : Sender) (msg : Message) (r : option (bool * option error)) :
  send Marshal fuel sel s msg = (s', r) ->
  len (DeliveryTag msg) > 32
  \/ snd (Marshal msg (buffer.Reset (buf s))) <> None
  \/ (maxMessageSize (l s) <> 0
      /\ buffer.Len (fst (Marshal msg (buffer.Reset (buf s))))
         > maxMessageSize (l s)) ->
  (exists err, r = Some (false, Some err))
  /\ transfers s' = transfers s
  /\ nextDeliveryTag s' = nextDeliveryTag s
  /\ l s' = l s.
Proof.
  intros Hsend Hfail.
  destruct (send_inv Marshal fuel sel s s' msg r Hsend)
    as [[_ [-> ->]] | [[b [e [_ [-> ->]]]] | [[b [_ [_ [_ [-> ->]]]]]
                                            | [b [Htag [HM [Hsize _]]]]]]].
  - split; [ eexists; reflexivity | repeat split ].
  - split; [ eexists; reflexivity | repeat split ].
  - split; [ eexists; reflexivity | repeat split ].
  - exfalso. rewrite HM in Hfail. cbn [fst snd] in Hfail.
    destruct Hfail as [H | [H | [H1 H2]]]; [ lia | congruence | lia ].
Qed.

End SendEdges.

Lemma send_interrupted_witness :
  exists s' frs,
    send Message_Marshal 9 (deadlineAt 3) (exampleSender 128 0)
         (NewMessage testPayload)
    = (s', Some (false, Some (ContextError "deadline exceeded")))
    /\ transfers s' = frs
    /\ map frames.More frs = [true; true; true]
    /\ nextDeliveryTag s' = 1.
Proof.
  destruct (send_interrupted Message_Marshal 9 (deadlineAt 3)
              (exampleSender 128 0) (NewMessage testPayload)
              (fst (Message_Marshal (NewMessage testPayload)
                                    (buffer.New []))) 3
              ltac:(vm_compute; discriminate)
              ltac:(vm_compute; reflexivity)
              ltac:(left; reflexivity)
              ltac:(vm_compute; reflexivity)
              ltac:(intros [ | [ | [ | j]]] Hj; [ reflexivity .. | lia ])
              ltac:(vm_compute; discriminate)
              ltac:(apply Nat.ltb_lt; vm_compute; reflexivity)
              ltac:(lia))
    as [s' [frs [Hsend [Htr [_ [_ Hnext]]]]]].
  exists s', frs. split; [ exact Hsend | ].
  vm_compute in Hsend. injection Hsend as <-.
  vm_compute in Htr. subst frs.
  repeat split; reflexivity.
Defined.

Lemma send_header_sized_frames_witness :
  exists s' frs,
    send Message_Marshal 4 allTaken (exampleSender 66 0) (NewMessage hello)
    = (s', None)
    /\ transfers s' = frs
    /\ length frs = 4%nat.
Proof.
  destruct (send_header_sized_frames Message_Marshal (exampleSender 66 0)
              (NewMessage hello)
              (fst (Message_Marshal (NewMessage hello) (buffer.New [])))
              ltac:(vm_compute; discriminate)
              ltac:(vm_compute; reflexivity)
              ltac:(left; reflexivity)
              ltac:(vm_compute; reflexivity))
    as [H66 _].
  destruct (H66 eq_refl 4%nat) as [s' [frs [Hsend [Htr [Hn _]]]]].
  exists s', frs. repeat split; assumption.
Defined.

Lemma send_failed_check_witness :
  let msg := mkMessage (repeat 0 33) 0 false [hello] in
  let out := send Message_Marshal 2 allTaken (exampleSender 128 0) msg in
  len (DeliveryTag msg) > 32
  /\ (exists err, snd out = Some (false, Some err))
  /\ transfers (fst out) = []
  /\ nextDeliveryTag (fst out) = 0.
Proof.
  intros msg out.
  assert (Htag : len (DeliveryTag msg) > 32) by (vm_compute; reflexivity).
  split; [ exact Htag | ].
  destruct (send_failed_check Message_Marshal 2 allTaken
              (exampleSender 128 0) (fst out) msg (snd out)
              (surjective_pairing out) (or_introl Htag))
    as [Herr [Htr [Hnext _]]].
  repeat split; assumption.
Defined.
(** ** Send *)

Lemma sendLoop_closeOnDispositionError (sel : nat -> sendSelect) (max : Z)
      (settled : bool) :
  forall fuel n s fr s' r,
    sendLoop fuel sel n max settled s fr = (s', r) ->
    closeOnDispositionError s' = closeOnDispositionError s
    /\ receiverSettleMode (l s') = receiverSettleMode (l s).
Proof.
  induction fuel as [ | fuel IH ]; intros n s fr s' r Hrun; simpl in Hrun.
  - destruct (negb (frames.More fr)); injection Hrun as <- <-; now split.
  - destruct (negb (frames.More fr)); [ injection Hrun as <- <-; now split | ].
    destruct (buffer.Next (buf s) max) as [[[p ok] rest] | ];
      [ | injection Hrun as <- <-; now split ].
    destruct (sel n).
    + apply IH in Hrun. exact Hrun.
    + injection Hrun as <- <-. now split.
    + injection Hrun as <- <-. now split.
Qed.

(** When the loop of [send] returns neither a completion channel nor
    an error, either it was not entered or the link terminated
    without an error at one of its iterations. *)
Lemma sendLoop_no_channel (sel : nat -> sendSelect) (max : Z)
      (settled : bool) :
  forall fuel n s fr s',
    sendLoop fuel sel n max settled s fr = (s', Some (false, None)) ->
    (frames.More fr = false /\ frames.Done fr = false)
    \/ exists k, sel k = linkDone None.
Proof.
  induction fuel as [ | fuel IH ]; intros n s fr s' Hrun; simpl in Hrun.
  - destruct (frames.More fr); cbn [negb] in Hrun; [ discriminate | ].
    injection Hrun as _ Hd. left. now split.
  - destruct (frames.More fr); cbn [negb] in Hrun.
    2: { injection Hrun as _ Hd. left. now split. }
    destruct (buffer.Next (buf s) max) as [[[p ok] rest] | ];
      [ | discriminate ].
    destruct (sel n) as [ | e | err ] eqn:Hsel.
    + destruct (IH _ _ _ _ Hrun) as [[Hm Hd] | Hk]; [ | right; exact Hk ].
      cbn [frames.More frames.Done] in Hm, Hd. rewrite Hm in Hd.
      discriminate.
    + injection Hrun as _ He. cbn in He. subst e. right. now exists n.
    + discriminate.
Qed.

Section SendResult.

Variable Marshal : Message -> Buffer -> Buffer * option error.

Lemma send_detachOnRejectDisp (fuel : nat) (sel : nat -> sendSelect)
      (s s' : Sender) (msg : Message) (r : option (bool * option error)) :
  send Marshal fuel sel s msg = (s', r) ->
  detachOnRejectDisp s' = detachOnRejectDisp s.
Proof.
  intros Hsend.
  assert (H : closeOnDispositionError s' = closeOnDispositionError s
              /\ receiverSettleMode (l s') = receiverSettleMode (l s)).
  { destruct (send_inv Marshal fuel sel s s' msg r Hsend)
      as [[_ [-> _]] | [[b [e [_ [-> _]]]] | [[b [_ [_ [_ [-> _]]]]]
                                             | [b [_ [_ [_ Hrun]]]]]]];
      try (split; reflexivity).
    apply sendLoop_closeOnDispositionError in Hrun.
    unfold senderAtLoop in Hrun.
    destruct (len (DeliveryTag msg) =? 0); exact Hrun. }
  unfold detachOnRejectDisp. destruct H as [-> ->]. reflexivity.
Qed.

(** X20: a message that marshals to no byte at all.  [send] hands
    over no transfer and returns neither a completion channel nor an
    error, so [Send] has no delivery state to wait for: it returns
    only when the link terminates or the context is done, with that
    error, and no outcome of the delivery ever reaches the caller. *)
Theorem Send_empty_message (fuel : nat) (sel : nat -> sendSelect)
        (wait : sendWait) (s : Sender) (msg : Message) (b : Buffer) :
  done (l s) = false ->
  len (DeliveryTag msg) <= 32 ->
  Marshal msg (buffer.Reset (buf s)) = (b, None) ->
  buffer.Len b = 0 ->
  0 <= maxMessageSize (l s) ->
  exists s',
    Send Marshal fuel sel wait s msg
    = (s', match wait with
           | delivered _ => None
           | waitLinkDone e => Some e
           | waitCtxDone err => Some (Some err)
           end)
    /\ transfers s' = transfers s.
Proof.
  intros Hdone Htag HM Hlen Hmax.
  assert (Hsend : send Marshal fuel sel s msg
                  = (senderAtLoop s msg b, Some (false, None))).
  { rewrite (send_reaches_loop Marshal fuel sel s msg b Htag HM)
      by (right; lia).
    rewrite sendLoop_last; [ reflexivity | ].
    cbn [firstTransfer frames.More]. rewrite Hlen. reflexivity. }
  assert (Htr : transfers (senderAtLoop s msg b) = transfers s)
    by (unfold senderAtLoop; destruct (len (DeliveryTag msg) =? 0);
        reflexivity).
  unfold Send. rewrite Hdone, Hsend.
  destruct wait as [st | e | err]; eexists; (split; [ reflexivity | ]);
    cbn [transfers set_l]; exact Htr.
Qed.

(** X21: a delivery that the peer rejects.  When the message has been
    handed over entirely and the state that arrives is a rejection,
    [Send] returns a link error that carries the peer's error if the
    sender closes its link on such a disposition, and the peer's error
    itself if it does not; the mux, handling the same rejection,
    terminates the link with that link error in exactly the first
    case. *)
Theorem Send_rejected (fuel : nat) (sel : nat -> sendSelect)
        (s s' : Sender) (msg : Message) (e : string)
        (disp : frames.PerformDisposition) :
  done (l s) = false ->
  send Marshal fuel sel s msg = (s', Some (true, None)) ->
  frames.disp_State disp = Some (StateRejected e) ->
  Send Marshal fuel sel (delivered (StateRejected e)) s msg
  = (s', Some (Some (if detachOnRejectDisp s
                     then LinkError (Some e) None
                     else AMQPError e)))
  /\ (detachOnRejectDisp s = true <->
      snd (snd (muxHandleFrame s' (frames.FrameDisposition disp)))
      = Some (LinkError (Some e) None))
  /\ (detachOnRejectDisp s = false ->
      snd (snd (muxHandleFrame s' (frames.FrameDisposition disp))) = None).
Proof.
  intros Hdone Hsend Hstate.
  pose proof (send_detachOnRejectDisp fuel sel s s' msg _ Hsend) as Hd.
  split; [ | split ].
  - unfold Send. rewrite Hdone, Hsend. cbn [negb]. rewrite Hd.
    destruct (detachOnRejectDisp s); reflexivity.
  - unfold muxHandleFrame. rewrite Hstate, Hd.
    destruct (detachOnRejectDisp s).
    + split; reflexivity.
    + destruct (frames.disp_Settled disp); split; discriminate.
  - intros Hf. unfold muxHandleFrame. rewrite Hstate, Hd, Hf.
    destruct (frames.disp_Settled disp); reflexivity.
Qed.

(** X22: when [Send] returns without error.  It does so only in three
    cases: the link had already terminated without an error; the whole
    message has been handed over and then a delivery state that is not
    a rejection arrived or the link terminated without an error; or
    [send] returned neither a completion channel nor an error, the
    message being empty or the link having terminated without an
    error during the loop, and the link is done without an error.  In
    the last case a message handed over only in part is reported as
    sent: when the link terminates without an error at iteration [k]
    of the loop, before the last chunk, [Send] returns no error with
    the first [k] chunks handed over, each announcing more. *)
Theorem Send_success :
  (forall (fuel : nat) (sel : nat -> sendSelect) (wait : sendWait)
          (s s' : Sender) (msg : Message),
      Send Marshal fuel sel wait s msg = (s', Some None) ->
      (done (l s) = true /\ doneErr (l s) = None /\ s' = s)
      \/ (done (l s) = false /\
          exists s1,
            send Marshal fuel sel s msg = (s1, Some (true, None))
            /\ ((exists state, wait = delivered state
                               /\ (forall e, state <> StateRejected e)
                               /\ s' = s1)
                \/ wait = waitLinkDone None))
      \/ (done (l s) = false /\ wait = waitLinkDone None /\
          exists s1,
            send Marshal fuel sel s msg = (s1, Some (false, None))
            /\ (buffer.Len (fst (Marshal msg (buffer.Reset (buf s)))) <= 0
                \/ exists k, sel k = linkDone None)))
  /\
  (forall (fuel : nat) (sel : nat -> sendSelect) (s : Sender)
          (msg : Message) (b : Buffer) (k : nat),
      done (l s) = false ->
      len (DeliveryTag msg) <= 32 ->
      Marshal msg (buffer.Reset (buf s)) = (b, None) ->
      maxMessageSize (l s) = 0 \/ buffer.Len b <= maxMessageSize (l s) ->
      let maxPayloadSize :=
        peerMaxFrameSize (session_conn (session (l s))) - 66 in
      0 < maxPayloadSize ->
      (forall j, (j < k)%nat -> sel j = transferTaken) ->
      sel k = linkDone None ->
      (k < length (chunks (Z.to_nat maxPayloadSize) (buffer.Bytes b)))%nat ->
      (k < fuel)%nat ->
      exists s' frs,
        Send Marshal fuel sel (waitLinkDone None) s msg = (s', Some None)
        /\ transfers s' = transfers s ++ frs
        /\ map frames.Payload frs
           = firstn k (chunks (Z.to_nat maxPayloadSize) (buffer.Bytes b))
        /\ Forall (fun f => frames.More f = true) frs).
Proof.
  split.
  - intros fuel sel wait s s' msg.
    unfold Send. destruct (done (l s)) eqn:Hdone.
    { intros H. injection H as <- E. left. auto. }
    destruct (send Marshal fuel sel s msg) as [s1 [[ch [err | ]] | ]] eqn:Hs;
      try discriminate.
    assert (Hno : ch = false ->
                  buffer.Len (fst (Marshal msg (buffer.Reset (buf s)))) <= 0
                  \/ exists k, sel k = linkDone None).
    { intros ->.
      destruct (send_inv Marshal fuel sel s s1 msg _ Hs)
        as [[_ [_ H]] | [[b [e [_ [_ H]]]] | [[b [_ [_ [_ [_ H]]]]]
                                            | [b [_ [HM [_ Hrun]]]]]]];
        try discriminate H.
      rewrite HM. cbn [fst].
      destruct (sendLoop_no_channel _ _ _ _ _ _ _ _ Hrun)
        as [[Hm _] | Hk]; [ left | right; exact Hk ].
      cbn [firstTransfer frames.More] in Hm.
      destruct (Z.gtb_spec (buffer.Len b) 0); [ discriminate | lia ]. }
    destruct wait as [st | e | err].
    + destruct ch; cbn [negb]; [ | discriminate ].
      intros H. right. left. split; [ reflexivity | ]. exists s1.
      split; [ reflexivity | ]. left. exists st.
      destruct st; try (destruct (detachOnRejectDisp s1); discriminate);
        injection H as <-;
        (split; [ reflexivity | split; [ discriminate | reflexivity ] ]).
    + intros H. injection H as _ E. cbn in E. subst e.
      destruct ch.
      * right. left. split; [ reflexivity | ]. exists s1.
        split; [ reflexivity | ]. now right.
      * right. right. split; [ reflexivity | ]. split; [ reflexivity | ].
        exists s1. split; [ reflexivity | ]. now apply Hno.
    + discriminate.
  - intros fuel sel s msg b k Hdone Htag HM Hsize maxPayloadSize Hmax
           Htaken Hsel Hk Hfuel.
    assert (Hsend : exists s1 frs,
               send Marshal fuel sel s msg = (s1, Some (false, None))
               /\ transfers s1 = transfers s ++ frs
               /\ map frames.Payload frs
                  = firstn k (chunks (Z.to_nat maxPayloadSize)
                                     (buffer.Bytes b))
               /\ Forall (fun f => frames.More f = true) frs).
    { rewrite (send_reaches_loop Marshal fuel sel s msg b Htag HM Hsize).
      fold maxPayloadSize.
      destruct (senderAtLoop_fields s msg b) as [Hbuf [Htr0 _]].
      destruct (sendLoop_interrupted sel maxPayloadSize (settledFor s msg)
                  Hmax k fuel 0%nat (senderAtLoop s msg b)
                  (firstTransfer s msg b))
        as [s1 [frs [Hrun [Htr [Hpay [Hall _]]]]]]; auto.
      - cbn [Nat.add]. rewrite Hsel. discriminate.
      - rewrite Hbuf. exact Hk.
      - apply firstTransfer_More.
      - exists s1, frs. cbn [Nat.add] in Hrun. rewrite Hsel in Hrun.
        split; [ exact Hrun | ].
        rewrite Htr0 in Htr. rewrite Hbuf in Hpay.
        repeat split; assumption. }
    destruct Hsend as [s1 [frs [Hs [Htr [Hpay Hall]]]]].
    unfold Send. rewrite Hdone, Hs.
    eexists. exists frs. split; [ reflexivity | ].
    cbn [transfers set_l]. repeat split; assumption.
Qed.

End SendResult.

Lemma Send_empty_message_witness :
  exists s',
    Send Message_Marshal 2 allTaken
         (waitCtxDone (ContextError "deadline exceeded"))
         (exampleSender 128 0) emptyMessage
    = (s', Some (Some (ContextError "deadline exceeded")))
    /\ transfers s' = [].
Proof.
  exact (Send_empty_message Message_Marshal 2 allTaken
           (waitCtxDone (ContextError "deadline exceeded"))
           (exampleSender 128 0) emptyMessage (buffer.New [])
           eq_refl ltac:(vm_compute; discriminate) eq_refl eq_refl
           ltac:(vm_compute; discriminate)).
Defined.

Lemma Send_rejected_witness :
  exists s',
    Send Message_Marshal 2 allTaken (delivered (StateRejected "rejected"))
         (exampleSender 128 0) (NewMessage hello)
    = (s', Some (Some (LinkError (Some "rejected"%string) None)))
    /\ snd (snd (muxHandleFrame s'
                   (frames.FrameDisposition
                      (frames.mkDisposition RoleReceiver 0 None true
                         (Some (StateRejected "rejected"))))))
       = Some (LinkError (Some "rejected"%string) None).
Proof.
  exists (fst (send Message_Marshal 2 allTaken (exampleSender 128 0)
                    (NewMessage hello))).
  destruct (Send_rejected Message_Marshal 2 allTaken (exampleSender 128 0)
              (fst (send Message_Marshal 2 allTaken (exampleSender 128 0)
                         (NewMessage hello)))
              (NewMessage hello) "rejected"
              (frames.mkDisposition RoleReceiver 0 None true
                 (Some (StateRejected "rejected")))
              eq_refl ltac:(vm_compute; reflexivity) eq_refl)
    as [HSend [Hmux _]].
  split; [ exact HSend | ].
  apply Hmux. reflexivity.
Defined.

Lemma Send_success_witness :
  exists s' frs,
    Send Message_Marshal 9 (fun n => if Nat.eqb n 1 then linkDone None
                                     else transferTaken)
         (waitLinkDone None) (exampleSender 128 0) (NewMessage testPayload)
    = (s', Some None)
    /\ transfers s' = frs
    /\ length frs = 1%nat
    /\ length (chunks 62 (buffer.Bytes
                            (fst (Message_Marshal (NewMessage testPayload)
                                                  (buffer.New [])))))
       = 9%nat.
Proof.
  destruct (proj2 (Send_success Message_Marshal) 9%nat
              (fun n => if Nat.eqb n 1 then linkDone None else transferTaken)
              (exampleSender 128 0) (NewMessage testPayload)
              (fst (Message_Marshal (NewMessage testPayload)
                                    (buffer.New []))) 1%nat
              eq_refl
              ltac:(vm_compute; discriminate)
              ltac:(vm_compute; reflexivity)
              ltac:(left; reflexivity)
              ltac:(vm_compute; reflexivity)
              ltac:(intros [ | j] Hj; [ reflexivity | lia ])
              eq_refl
              ltac:(apply Nat.ltb_lt; vm_compute; reflexivity)
              ltac:(lia))
    as [s' [frs [HSend [Htr [Hpay _]]]]].
  exists s', frs. split; [ exact HSend | ].
  split; [ exact Htr | ].
  split; [ | vm_compute; reflexivity ].
  rewrite <- (length_map frames.Payload), Hpay.
  vm_compute. reflexivity.
Defined.
(** ** attach *)

Section Attach.

Variable receiverSettleModeValue :
  option ReceiverSettleMode -> ReceiverSettleMode.
Variable senderSettleModeValue :
  option SenderSettleMode -> SenderSettleMode.
Variable muxClose : link -> link.

Local Notation attach :=
  (Sender_attach receiverSettleModeValue senderSettleModeValue muxClose).

Lemma setSettleModes_ok (x x' : link) (resp : frames.PerformAttach) :
  setSettleModes receiverSettleModeValue senderSettleModeValue x resp
  = (x', None) ->
  x' = set_senderSettleMode
         (set_receiverSettleMode x
            (Some (receiverSettleModeValue
                     (frames.attach_ReceiverSettleMode resp))))
         (Some (senderSettleModeValue (frames.attach_SenderSettleMode resp))).
Proof.
  unfold setSettleModes.
  destruct (isSome (receiverSettleMode x) && _); [ discriminate | ].
  cbv zeta. destruct (isSome _ && _); [ discriminate | ].
  intros H. injection H as <-. reflexivity.
Qed.

(** X23: a [Sender.attach] that returns no error.  The handle was
    allocated and is the link's; exactly one frame was handed to the
    session, the Attach of the link with the role of a sender; the
    channel of transfers is empty.  Either the peer answered with an
    Attach that names a source or a target: then both settlement
    modes of the link are set, to the values of the peer's answer, and
    the link has a target.  Or the attach went unanswered, a wait
    having ended on a context error of the session while the caller's
    context was live: then no error is returned all the same, and the
    settlement modes and the target are those set locally. *)
Theorem Sender_attach_success (env : attachEnv) (s s' : Sender) :
  attach env s = (s', None) ->
  exists h,
    allocateHandle env = inr h
    /\ session_tx (session (l s'))
       = session_tx (session (l s)) ++ [frames.FrameAttach (attachFrame s h)]
    /\ handle (l s') = h
    /\ transfers s' = []
    /\ ((exists resp,
           firstWait env = Received (frames.FrameAttach resp)
           /\ isSome (frames.attach_Source resp)
              || isSome (frames.attach_Target resp) = true
           /\ receiverSettleMode (l s')
              = Some (receiverSettleModeValue
                        (frames.attach_ReceiverSettleMode resp))
           /\ senderSettleMode (l s')
              = Some (senderSettleModeValue
                        (frames.attach_SenderSettleMode resp))
           /\ isSome (target (l s')) = true)
        \/ (unanswered env
            /\ receiverSettleMode (l s') = receiverSettleMode (l s)
            /\ senderSettleMode (l s') = senderSettleMode (l s)
            /\ isSome (target (l s')) = isSome (target (l s)))).
Proof.
  unfold Sender_attach, link_attach.
  destruct (allocateHandle env) as [err | h]; [ discriminate | ].
  destruct (firstWait env) as [fr | e | e] eqn:Hfirst; try discriminate.
  2: { destruct (isContextErr e) eqn:He; [ | discriminate ].
       cbv zeta. destruct (ctxErr env) eqn:Hctx; [ discriminate | ].
      intros H. injection H as <-. exists h.
       destruct s as [x trs cl bf nt ac].
       destruct x as [nm hd dyn dn de ss src tgt dc ssm rsm mms drv].
       unfold attachFrame, Address, sender_beforeAttach.
       destruct tgt as [t | ]; cbn;
         (repeat (split; [ reflexivity | ]); right;
          split; [ | repeat split ];
          split; [ exact Hctx | ]; exists e; split; [ exact He | ];
          left; exact Hfirst). }
  destruct fr as [resp | | | | | ]; try discriminate.
  destruct (negb (isSome (frames.attach_Source resp))
            && negb (isSome (frames.attach_Target resp))) eqn:Hst.
  { apply andb_prop in Hst. destruct Hst as [Hsrc Htgt].
    destruct (frames.attach_Source resp) eqn:Es; [ discriminate | ].
    destruct (frames.attach_Target resp) eqn:Et; [ discriminate | ].
    destruct (secondWait env) as [fr | e | e] eqn:Hsecond;
      try discriminate.
    - destruct fr as [ | | | d | | ]; try discriminate.
      destruct (frames.pd_Error d); discriminate.
    - destruct (isContextErr e) eqn:He; [ | discriminate ].
      cbv zeta. destruct (ctxErr env) eqn:Hctx; [ discriminate | ].
      intros H. injection H as <-. exists h.
      destruct s as [x trs cl bf nt ac].
      destruct x as [nm hd dyn dn de ss src tgt dc ssm rsm mms drv].
      unfold attachFrame, Address, sender_beforeAttach.
      destruct tgt as [t | ]; cbn;
        (repeat (split; [ reflexivity | ]); right;
         split; [ | repeat split ];
         split; [ exact Hctx | ]; exists e; split; [ exact He | ];
         right; exists resp; repeat split; assumption). }
  cbv zeta.
  destruct (setSettleModes _ _ _ resp) as [z [err | ]] eqn:Hs;
    [ discriminate | ].
  intros H. injection H as <-.
  apply setSettleModes_ok in Hs. subst z.
  exists h.
  assert (Hterm : isSome (frames.attach_Source resp)
                  || isSome (frames.attach_Target resp) = true).
  { destruct (isSome (frames.attach_Source resp));
      destruct (isSome (frames.attach_Target resp));
      try reflexivity; discriminate. }
  clear Hst.
  destruct s as [x trs cl bf nt ac].
  destruct x as [nm hd dyn dn de ss src tgt dc ssm rsm mms drv].
  unfold attachFrame, Address, sender_afterAttach, sender_beforeAttach.
  cbn.
  destruct tgt as [t | ]; cbn;
    destruct ((mms =? 0) || (frames.attach_MaxMessageSize resp <? mms)); cbn;
    destruct (frames.attach_Target resp) as [pt | ] eqn:Et; cbn;
    destruct dyn; cbn;
    (repeat (split; [ reflexivity | ]); left; exists resp;
     split; [ reflexivity | ];
     split; [ rewrite Et; exact Hterm | ]; repeat split).
Qed.

(** X24: the address of a sender after an attach that returns no
    error.  When a dynamic address was requested and the peer's
    Attach was received and names a target, [Address] returns the
    address the peer assigned; in every other case, that of an attach
    that went unanswered too, it returns what it returned before the
    attach. *)
Theorem Sender_attach_address (env : attachEnv) (s s' : Sender) :
  attach env s = (s', None) ->
  Address s'
  = match dynamicAddr (l s), firstWait env with
    | true, Received (frames.FrameAttach resp) =>
        match frames.attach_Target resp with
        | Some pt => frames.Address pt
        | None => Address s
        end
    | _, _ => Address s
    end
  /\ dynamicAddr (l s') = dynamicAddr (l s).
Proof.
  unfold Sender_attach, link_attach.
  destruct (allocateHandle env) as [err | h]; [ discriminate | ].
  destruct (firstWait env) as [fr | e | e]; try discriminate.
  2: { destruct (isContextErr e); [ | discriminate ].
       cbv zeta. destruct (ctxErr env); [ discriminate | ].
      intros H. injection H as <-.
       destruct s as [x trs cl bf nt ac].
       destruct x as [nm hd dyn dn de ss src tgt dc ssm rsm mms drv].
       unfold Address, sender_beforeAttach.
       destruct tgt as [t | ], dyn; cbn; split; reflexivity. }
  destruct fr as [resp | | | | | ]; try discriminate.
  destruct (negb (isSome (frames.attach_Source resp))
            && negb (isSome (frames.attach_Target resp))) eqn:Hst.
  { apply andb_prop in Hst. destruct Hst as [_ Htgt].
    destruct (frames.attach_Target resp) eqn:Et; [ discriminate | ].
    destruct (secondWait env) as [fr | e | e]; try discriminate.
    - destruct fr as [ | | | d | | ]; try discriminate.
      destruct (frames.pd_Error d); discriminate.
    - destruct (isContextErr e); [ | discriminate ].
      cbv zeta. destruct (ctxErr env); [ discriminate | ].
      intros H. injection H as <-.
      destruct s as [x trs cl bf nt ac].
      destruct x as [nm hd dyn dn de ss src tgt dc ssm rsm mms drv].
      unfold Address, sender_beforeAttach.
      destruct tgt as [t | ], dyn; cbn; split; reflexivity. }
  cbv zeta.
  destruct (setSettleModes _ _ _ resp) as [z [err | ]] eqn:Hs;
    [ discriminate | ].
  intros H. injection H as <-.
  apply setSettleModes_ok in Hs. subst z.
  destruct s as [x trs cl bf nt ac].
  destruct x as [nm hd dyn dn de ss src tgt dc ssm rsm mms drv].
  unfold Address, sender_afterAttach, sender_beforeAttach.
  cbn.
  destruct tgt as [t | ]; cbn;
    destruct ((mms =? 0) || (frames.attach_MaxMessageSize resp <? mms)); cbn;
    destruct (frames.attach_Target resp) as [pt | ]; cbn;
    destruct dyn; cbn; repeat split.
Qed.

(** X25: an attach that the peer refuses.  When the peer answers with
    an Attach that names neither source nor target and then sends a
    Detach, the sender has handed two frames to the session, its
    Attach and then a closing Detach with its handle and no error, and
    [attach] returns the error of the peer's Detach, or an error of
    its own when that Detach carries none.  No channel of transfers is
    made. *)
Theorem Sender_attach_refused (env : attachEnv) (s : Sender) (h : Z)
        (resp : frames.PerformAttach) (detach : frames.PerformDetach) :
  allocateHandle env = inr h ->
  firstWait env = Received (frames.FrameAttach resp) ->
  frames.attach_Source resp = None ->
  frames.attach_Target resp = None ->
  secondWait env = Received (frames.FrameDetach detach) ->
  exists s',
    attach env s
    = (s', Some match frames.pd_Error detach with
                | Some e => AMQPError e
                | None => Errorf "received detach with no error specified" []
                end)
    /\ session_tx (session (l s'))
       = session_tx (session (l s))
           ++ [frames.FrameAttach (attachFrame s h);
               frames.FrameDetach (frames.mkDetach h true None)]
    /\ transfers s' = transfers s
    /\ done (l s') = done (l s).
Proof.
  intros Hh Hfirst Hsrc Htgt Hsecond.
  unfold Sender_attach, link_attach.
  rewrite Hh, Hfirst, Hsrc, Htgt, Hsecond. cbn [isSome negb andb].
  destruct s as [x trs cl bf nt ac].
  destruct x as [nm hd dyn dn de ss src tgt dc ssm rsm mms drv].
  unfold attachFrame, Address, sender_beforeAttach.
  destruct (frames.pd_Error detach); destruct tgt as [t | ]; cbn;
    eexists; (split; [ reflexivity | ]); cbn; rewrite <- app_assoc;
    repeat split.
Qed.

End Attach.

Lemma Sender_attach_success_witness :
  let env :=
    exampleAttachEnv
      (frames.FrameAttach
         (exampleResponse (Some (frames.mkTarget "q" false))))
      frames.FrameOther in
  let s' := fst (exampleAttach env (exampleSender 128 0)) in
  handle (l s') = 3
  /\ session_tx (session (l s'))
     = [frames.FrameAttach (attachFrame (exampleSender 128 0) 3)]
  /\ senderSettleMode (l s') = Some SenderSettleModeUnsettled
  /\ receiverSettleMode (l s') = Some ReceiverSettleModeFirst.
Proof.
  intros env s'.
  destruct (Sender_attach_success (modeOr ReceiverSettleModeFirst)
              (modeOr SenderSettleModeMixed) (fun x => x) env
              (exampleSender 128 0) s' ltac:(vm_compute; reflexivity))
    as [h [Hh [Htx [Hhandle [_ [Hyes | [Hno _]]]]]]].
  2: { destruct Hno as [_ [e [_ [Hf | [r [_ [_ [_ Hf]]]]]]]];
         discriminate Hf. }
  destruct Hyes as [resp [Hw [_ [Hr [Hs _]]]]].
  vm_compute in Hh. injection Hh as <-.
  vm_compute in Hw. injection Hw as <-.
  repeat split; assumption.
Defined.

(** An attach that goes unanswered and returns no error all the same:
    the session ends on a cancelled context of its own while the
    caller's context is live. *)
Example attach_unanswered :
  let env :=
    mkAttachEnv (inr 3) (SessionErr (ContextError "context canceled"))
                (Received frames.FrameOther) None in
  snd (exampleAttach env (exampleSender 128 0)) = None
  /\ unanswered env
  /\ senderSettleMode (l (fst (exampleAttach env (exampleSender 128 0))))
     = Some SenderSettleModeUnsettled.
Proof.
  cbv zeta. split; [ reflexivity | split; [ | reflexivity ] ].
  split; [ reflexivity | ]. eexists. split; [ | left; reflexivity ].
  reflexivity.
Qed.

Lemma Sender_attach_address_witness :
  let env :=
    exampleAttachEnv
      (frames.FrameAttach
         (exampleResponse (Some (frames.mkTarget "q" false))))
      frames.FrameOther in
  Address (fst (exampleAttach env (exampleSender 128 0))) = "test"%string.
Proof.
  intros env.
  destruct (Sender_attach_address (modeOr ReceiverSettleModeFirst)
              (modeOr SenderSettleModeMixed) (fun x => x) env
              (exampleSender 128 0)
              (fst (exampleAttach env (exampleSender 128 0)))
              ltac:(vm_compute; reflexivity))
    as [Haddr _].
  rewrite Haddr. reflexivity.
Defined.

Lemma Sender_attach_refused_witness :
  exists s',
    exampleAttach
      (exampleAttachEnv
         (frames.FrameAttach (exampleResponse None))
         (frames.FrameDetach
            (frames.mkDetach 0 true (Some "amqp:unauthorized-access"%string))))
      (exampleSender 128 0)
    = (s', Some (AMQPError "amqp:unauthorized-access")).
Proof.
  destruct (Sender_attach_refused (modeOr ReceiverSettleModeFirst)
              (modeOr SenderSettleModeMixed) (fun x => x)
              (exampleAttachEnv
                 (frames.FrameAttach (exampleResponse None))
                 (frames.FrameDetach
                    (frames.mkDetach 0 true
                       (Some "amqp:unauthorized-access"%string))))
              (exampleSender 128 0) 3 (exampleResponse None)
              (frames.mkDetach 0 true
                 (Some "amqp:unauthorized-access"%string))
              eq_refl eq_refl eq_refl eq_refl eq_refl)
    as [s' [Hs' _]].
  exists s'. exact Hs'.
Defined.
(** ** The mux of the sender *)


(** One transfer through the mux. *)
Lemma muxIter_transferSent (tr : frames.PerformTransfer) (st : muxState) :
  0 <= availableCredit (mux_s st) < 2 ^ 32 ->
  (availableCredit (mux_s st) = 0 ->
   muxIter (transferSent tr) st = muxBlocked)
  /\ (0 < availableCredit (mux_s st) ->
      exists st',
        muxIter (transferSent tr) st = muxContinue st'
        /\ txTransfer st' = txTransfer st ++ [tr]
        /\ availableCredit (mux_s st')
           = availableCredit (mux_s st) - (if frames.More tr then 0 else 1)
        /\ deliveryCount (l (mux_s st'))
           = (if frames.More tr then deliveryCount (l (mux_s st))
              else to_uint32 (deliveryCount (l (mux_s st)) + 1))
        /\ sent st' = sent st
        /\ pending st' = pending st).
Proof.
  intros Hc. unfold muxIter, transferSent. cbv zeta. split.
  - intros ->. reflexivity.
  - intros Hpos.
    destruct (Z.gtb_spec (availableCredit (mux_s st)) 0) as [_ | Hle];
      [ | lia ].
    destruct st as [s od ods tx]. cbn [mux_s] in *.
    eexists. split; [ reflexivity | ].
    unfold sent, pending.
    destruct ods as [ | d ods ]; destruct od as [d0 | ];
      destruct (frames.More tr); cbn;
      rewrite ?to_uint32_small by lia; repeat split; lia.
Qed.

(** X26: the credit of the mux.  As long as the session takes each
    transfer as soon as the mux has received it from [Send], the
    transfers [trs] are all handed over, in order, only if the
    messages they complete do not outnumber the available credit; the
    credit then goes down by that number and the delivery-count up by
    it (modulo 2^32); and with no credit the mux receives no transfer
    at all.  The credit is looked at only before a transfer is
    received: when a Flow that arrives while the transfer waits for
    the session brings the credit to 0, the transfer is handed over
    all the same, and if it completes a message the credit wraps
    around to 2^32 - 1. *)
Theorem mux_credit_accounting :
  (forall (trs : list frames.PerformTransfer) (st : muxState),
      0 <= availableCredit (mux_s st) < 2 ^ 32 ->
      0 <= deliveryCount (l (mux_s st)) < 2 ^ 32 ->
      (forall st',
          muxSteps (map transferSent trs) st = Some st' ->
          completed trs <= availableCredit (mux_s st)
          /\ availableCredit (mux_s st')
             = availableCredit (mux_s st) - completed trs
          /\ deliveryCount (l (mux_s st'))
             = to_uint32 (deliveryCount (l (mux_s st)) + completed trs)
          /\ txTransfer st' = txTransfer st ++ trs
          /\ sent st' = sent st)
      /\ (availableCredit (mux_s st) = 0 -> trs <> [] ->
          muxSteps (map transferSent trs) st = None))
  /\
  (forall (tr : frames.PerformTransfer) (fl : frames.PerformFlow)
          (st : muxState) (s1 : Sender),
      0 < availableCredit (mux_s st) ->
      frames.More tr = false ->
      muxHandleFrame (mux_s st) (frames.FrameFlow fl) = (s1, (None, None)) ->
      availableCredit s1 = 0 ->
      exists st',
        muxIter (transferReceived tr [innerFrame (frames.FrameFlow fl);
                                      sessionTakes]) st
        = muxContinue st'
        /\ txTransfer st' = txTransfer st ++ [tr]
        /\ availableCredit (mux_s st') = MaxUint32).
Proof.
  split.
  - intros trs st Hc Hd. split.
    + revert st Hc Hd.
      induction trs as [ | tr trs IH ]; intros st Hc Hd st' Hrun.
      * simpl in Hrun. injection Hrun as <-.
        unfold completed, len. simpl.
        rewrite Z.sub_0_r, Z.add_0_r, app_nil_r, to_uint32_small by lia.
        repeat split. lia.
      * cbn [map muxSteps] in Hrun.
        destruct (Z.eq_dec (availableCredit (mux_s st)) 0) as [Hz | Hnz].
        { rewrite (proj1 (muxIter_transferSent tr st Hc) Hz) in Hrun.
          discriminate. }
        destruct (proj2 (muxIter_transferSent tr st Hc) ltac:(lia))
          as [st1 [Hiter [Htx [Hcr [Hdc [Hsent _]]]]]].
        rewrite Hiter in Hrun.
        assert (Hc1 : 0 <= availableCredit (mux_s st1) < 2 ^ 32)
          by (rewrite Hcr; destruct (frames.More tr); lia).
        assert (Hd1 : 0 <= deliveryCount (l (mux_s st1)) < 2 ^ 32)
          by (rewrite Hdc; destruct (frames.More tr);
              [ lia | apply to_uint32_range ]).
        destruct (IH st1 Hc1 Hd1 st' Hrun)
          as [Hn [Hcr' [Hdc' [Htx' Hsent']]]].
        assert (Hcomp : completed (tr :: trs)
                        = (if frames.More tr then 0 else 1) + completed trs).
        { unfold completed, len. cbn [filter].
          destruct (frames.More tr); cbn [negb length]; lia. }
        pose proof (len_nonneg
                      (filter (fun tr => negb (frames.More tr)) trs))
          as Hnn. fold (completed trs) in Hnn.
        rewrite Hcomp.
        split; [ rewrite Hcr in Hn; lia | ].
        split; [ rewrite Hcr', Hcr; lia | ].
        split.
        -- rewrite Hdc', Hdc. destruct (frames.More tr).
           ++ f_equal.
           ++ unfold to_uint32. rewrite Zplus_mod_idemp_l. f_equal. lia.
        -- split; [ | congruence ].
           rewrite Htx', Htx, <- app_assoc. reflexivity.
    + intros Hz Hne. destruct trs as [ | tr trs ]; [ congruence | ].
      cbn [map muxSteps].
      rewrite (proj1 (muxIter_transferSent tr st Hc) Hz). reflexivity.
  - intros tr fl st s1 Hpos Hmore Hflow Hzero.
    unfold muxIter. cbv zeta.
    destruct (Z.gtb_spec (availableCredit (mux_s st)) 0) as [_ | Hle];
      [ | lia ].
    destruct st as [s od ods tx]. cbn [mux_s] in *.
    destruct ods as [ | d ods ]; destruct od as [d0 | ];
      cbn [outgoingDisps outgoingDisp mux_s txTransfer transferLoop];
      unfold handleFrame; cbn [mux_s]; rewrite Hflow;
      cbn [transferLoop]; rewrite Hmore; cbn [negb];
      (eexists; split; [ reflexivity | ]); cbn; rewrite Hzero;
      split; reflexivity.
Qed.

Lemma mux_credit_accounting_witness :
  let trs := [exampleTransfer true; exampleTransfer false] in
  (exists st',
      muxSteps (map transferSent trs) (exampleMux 1) = Some st'
      /\ availableCredit (mux_s st') = 0
      /\ deliveryCount (l (mux_s st')) = 1
      /\ txTransfer st' = trs)
  /\ (exists st',
         muxIter (transferReceived (exampleTransfer false)
                    [innerFrame (frames.FrameFlow stopFlow); sessionTakes])
                 (exampleMux 1)
         = muxContinue st'
         /\ txTransfer st' = [exampleTransfer false]
         /\ availableCredit (mux_s st') = 4294967295).
Proof.
  intros trs. split.
  - assert (E : exists st',
               muxSteps (map transferSent trs) (exampleMux 1) = Some st')
      by (eexists; vm_compute; reflexivity).
    destruct E as [st' E]. exists st'. split; [ exact E | ].
    destruct (proj1 mux_credit_accounting trs (exampleMux 1)
                ltac:(split; vm_compute; [ discriminate | reflexivity ])
                ltac:(split; vm_compute; [ discriminate | reflexivity ]))
      as [Hrun _].
    destruct (Hrun st' E) as [_ [Hc [Hd [Htx _]]]].
    repeat split; assumption.
  - exact (proj2 mux_credit_accounting (exampleTransfer false) stopFlow
             (exampleMux 1) _ eq_refl eq_refl eq_refl eq_refl).
Defined.

Lemma muxSteps_app (sels rest : list muxSelect) (st : muxState) :
  muxSteps (sels ++ rest) st
  = match muxSteps sels st with
    | Some st' => muxSteps rest st'
    | None => None
    end.
Proof.
  revert st. induction sels as [ | sel sels IH ]; intros st; simpl.
  - reflexivity.
  - destruct (muxIter sel st); try reflexivity. apply IH.
Qed.

(** A disposition that does not terminate the link, through the
    mux. *)
Lemma muxIter_disposition (d : frames.PerformDisposition) (st : muxState) :
  terminates (mux_s st) d = false ->
  exists st',
    muxIter (rxFrame (frames.FrameDisposition d)) st = muxContinue st'
    /\ pending st'
       = pending st ++ (if frames.disp_Settled d then []
                        else [confirmation d])
    /\ sent st' = sent st
    /\ txTransfer st' = txTransfer st
    /\ availableCredit (mux_s st') = availableCredit (mux_s st)
    /\ detachOnRejectDisp (mux_s st') = detachOnRejectDisp (mux_s st).
Proof.
  intros Ht. destruct st as [s od ods tx]. cbn [mux_s] in *.
  unfold terminates in Ht.
  unfold muxIter, handleFrame, muxHandleFrame, pending, sent, confirmation.
  cbv zeta.
  destruct ods as [ | d0 ods ]; destruct od as [d1 | ];
    cbn [mux_s outgoingDisp outgoingDisps txTransfer];
    destruct (frames.disp_State d) as [[ | e | | ] | ];
    try rewrite Ht;
    destruct (frames.disp_Settled d); cbn;
    eexists; (split; [ reflexivity | ]); cbn;
    rewrite ?app_nil_r, <- ?app_assoc; repeat split; exact Ht.
Qed.

(** The next pending disposition handed to the session. *)
Lemma muxIter_dispReady (st : muxState) (rest : list innerSelect) :
  (pending st = [] -> muxIter (dispReady (sessionTakes :: rest)) st
                      = muxBlocked)
  /\ (forall d ds, pending st = d :: ds ->
        exists st',
          muxIter (dispReady (sessionTakes :: rest)) st = muxContinue st'
          /\ pending st' = ds
          /\ sent st' = sent st ++ [frames.FrameDisposition d]
          /\ txTransfer st' = txTransfer st
          /\ availableCredit (mux_s st') = availableCredit (mux_s st)
          /\ detachOnRejectDisp (mux_s st') = detachOnRejectDisp (mux_s st)).
Proof.
  destruct st as [s od ods tx].
  unfold muxIter, pending, sent. cbv zeta.
  cbn [mux_s outgoingDisp outgoingDisps txTransfer].
  split.
  - destruct od as [d1 | ]; [ discriminate | ]. intros ->. reflexivity.
  - intros d ds Hp.
    destruct od as [d1 | ]; destruct ods as [ | d0 ods' ];
      try discriminate; injection Hp as <- <-; cbn;
      eexists; (split; [ reflexivity | ]); cbn; repeat split.
Qed.

Lemma mux_receives (ds : list frames.PerformDisposition) :
  forall st,
    Forall (fun d => terminates (mux_s st) d = false) ds ->
    exists st',
      muxSteps (map (fun d => rxFrame (frames.FrameDisposition d)) ds) st
      = Some st'
      /\ pending st'
         = pending st
             ++ map confirmation
                    (filter (fun d => negb (frames.disp_Settled d)) ds)
      /\ sent st' = sent st
      /\ txTransfer st' = txTransfer st
      /\ availableCredit (mux_s st') = availableCredit (mux_s st)
      /\ detachOnRejectDisp (mux_s st') = detachOnRejectDisp (mux_s st).
Proof.
  induction ds as [ | d ds IH ]; intros st Hall.
  - exists st. simpl. rewrite app_nil_r. repeat split.
  - inversion Hall as [ | ? ? Hd Hds ]; subst.
    destruct (muxIter_disposition d st Hd)
      as [st1 [Hiter [Hp [Hs [Htx [Hc Hdet]]]]]].
    destruct (IH st1) as [st' [Hrun [Hp' [Hs' [Htx' [Hc' Hdet']]]]]].
    { eapply Forall_impl; [ | exact Hds ]. intros a. cbv beta.
      unfold terminates. rewrite Hdet. auto. }
    exists st'. cbn [map muxSteps]. rewrite Hiter.
    split; [ exact Hrun | ].
    split.
    + rewrite Hp', Hp. cbn [filter].
      destruct (frames.disp_Settled d); cbn [negb map];
        rewrite <- app_assoc; reflexivity.
    + repeat split; congruence.
Qed.

Lemma mux_flushes :
  forall ps st,
    pending st = ps ->
    exists st',
      muxSteps (repeat (dispReady [sessionTakes]) (length ps)) st = Some st'
      /\ pending st' = []
      /\ sent st' = sent st ++ map frames.FrameDisposition ps
      /\ txTransfer st' = txTransfer st
      /\ availableCredit (mux_s st') = availableCredit (mux_s st)
      /\ detachOnRejectDisp (mux_s st') = detachOnRejectDisp (mux_s st).
Proof.
  induction ps as [ | d ps IH ]; intros st Hp.
  - exists st. simpl. rewrite app_nil_r. repeat split. exact Hp.
  - destruct (proj2 (muxIter_dispReady st []) d ps Hp)
      as [st1 [Hiter [Hp1 [Hs [Htx [Hc Hdet]]]]]].
    destruct (IH st1 Hp1) as [st' [Hrun [Hp' [Hs' [Htx' [Hc' Hdet']]]]]].
    exists st'. cbn [length repeat muxSteps]. rewrite Hiter.
    split; [ exact Hrun | ]. split; [ exact Hp' | ].
    split.
    + rewrite Hs', Hs. cbn [map]. rewrite <- app_assoc. reflexivity.
    + repeat split; congruence.
Qed.

(** X27: the mux confirms dispositions in the order of their arrival.
    When it receives dispositions none of which terminates the link
    and the session then takes what the mux offers, the session is
    handed, after the dispositions that were already waiting, one
    settled disposition of the sender's role for each unsettled one
    received, over the same range of deliveries and in the order of
    arrival; a settled disposition is not answered.  Nothing is left
    waiting, and transfers and credit are as before. *)
Theorem mux_confirms_in_order (ds : list frames.PerformDisposition)
        (st : muxState) :
  Forall (fun d => terminates (mux_s st) d = false) ds ->
  let answers :=
    pending st
      ++ map confirmation
             (filter (fun d => negb (frames.disp_Settled d)) ds) in
  exists st',
    muxSteps (map (fun d => rxFrame (frames.FrameDisposition d)) ds
                ++ repeat (dispReady [sessionTakes]) (length answers)) st
    = Some st'
    /\ sent st' = sent st ++ map frames.FrameDisposition answers
    /\ pending st' = []
    /\ txTransfer st' = txTransfer st
    /\ availableCredit (mux_s st') = availableCredit (mux_s st).
Proof.
  intros Hall answers.
  destruct (mux_receives ds st Hall)
    as [st1 [Hrun [Hp [Hs [Htx [Hc _]]]]]].
  fold answers in Hp.
  destruct (mux_flushes answers st1 Hp)
    as [st' [Hrun' [Hp' [Hs' [Htx' [Hc' _]]]]]].
  exists st'. rewrite muxSteps_app, Hrun.
  split; [ exact Hrun' | ].
  split; [ congruence | ].
  split; [ exact Hp' | ].
  split; congruence.
Qed.

Lemma mux_confirms_in_order_witness :
  let ds := [exampleDisposition 0 false; exampleDisposition 1 true;
             exampleDisposition 2 false] in
  exists st',
    muxSteps (map (fun d => rxFrame (frames.FrameDisposition d)) ds
                ++ repeat (dispReady [sessionTakes]) 2) (exampleMux 1)
    = Some st'
    /\ sent st'
       = [frames.FrameDisposition
            (frames.mkDisposition RoleSender 0 None true None);
          frames.FrameDisposition
            (frames.mkDisposition RoleSender 2 None true None)]
    /\ pending st' = [].
Proof.
  intros ds.
  destruct (mux_confirms_in_order ds (exampleMux 1)
              ltac:(repeat constructor))
    as [st' [Hrun [Hsent [Hp _]]]].
  exists st'. repeat split; assumption.
Defined.

(** ** Closing the link *)

Section CloseLink.

Variable deallocateHandle : Session -> link -> Session.

(** Deallocating a handle does not touch the frames that wait to be
    written. *)
Hypothesis deallocateHandle_tx :
  forall ss x, session_tx (deallocateHandle ss x) = session_tx ss.





End CloseLink.


Section MuxEnds.

Variable deallocateHandle : Session -> link -> Session.

Hypothesis deallocateHandle_tx :
  forall ss x, session_tx (deallocateHandle ss x) = session_tx ss.

Variable Marshal : Message -> Buffer -> Buffer * option error.





End MuxEnds.


